(** * M&A timeline engine: scheduler, compression and VDD injection

    A shallow embedding of [src/lib/logic.ts], of the templates
    ([lib/templates]) and of the handlers of [App] that call the engine
    ([toggleCountry], [loadTemplate] and the recalculation effect).

    Modelling conventions.
    - A JavaScript [Date] is its time value: an integer count of
      milliseconds since the epoch ([Z]).  Invalid dates are not modelled.
      [addDays] and [isWeekend] of date-fns work on local time; the model
      fixes the local zone to UTC, so a day is always 86 400 000 ms.
    - The [date-holidays] library is outside the repository: it is a
      parameter [holidayIn code date] of the development.
    - A JavaScript [number] holding a duration or a ratio is an exact
      rational ([Q]); rounding of doubles, NaN and the infinities are not
      modelled.  A day count such as [manualStartOffset] is an integer.
      The one place where the width of a double is modelled is the counter
      of the duration loop, which the loop has to bring down to 0: see
      [decrement].
    - Task objects are mutated in place and shared between the project and
      its shallow copies.  The task array is a [list] whose slots are the
      objects: an in-place update of a task is an update of its slot, and a
      reference to a task object is the index of its slot.  No object sits
      in two slots of the array.
    - A [while] loop that steps through the calendar has no bound in the
      source.  It is run with [fuel] iterations at most and yields [None]
      when they are used up; [None] therefore stands for a loop that is
      still running.
    - A handler of [App] reads the React state and hands a new value to a
      setter.  It is a function from the state values it reads to the value
      it sets; toasts, the sidebar and the rendering are not modelled. *)

From Stdlib Require Import ZArith QArith Qround Lia.
From stdpp Require Import gmap strings list fin_maps.

(** ** Data model *)

Inductive TaskType : Set :=
  | Standard | Milestone | Bottleneck | KeyDecision | ExternalDependency.

(** A date: milliseconds since the epoch. *)
Definition Date : Type := Z.

Module Task.
Record t : Type := mk {
  id : string;
  name : string;
  phase : string;
  durationWeeks : Q;
  originalDurationWeeks : Q;
  compressionRatio : Q;
  predecessors : list string;
  type : TaskType;
  manualStartOffset : option Z;
  serialNumber : option nat;
  computedStart : option Date;
  computedEnd : option Date
}.

(** [t.serialNumber = n; t.computedStart = s; t.computedEnd = e] *)
Definition setComputed (x : t) (n : option nat) (s e : option Date) : t :=
  mk (id x) (name x) (phase x) (durationWeeks x) (originalDurationWeeks x)
     (compressionRatio x) (predecessors x) (type x) (manualStartOffset x)
     n s e.

(** [t.durationWeeks = d; t.compressionRatio = r] *)
Definition setDuration (x : t) (d r : Q) : t :=
  mk (id x) (name x) (phase x) d (originalDurationWeeks x)
     r (predecessors x) (type x) (manualStartOffset x)
     (serialNumber x) (computedStart x) (computedEnd x).

(** The three assignments of the Phase 3 shortening in [injectVddTasks]. *)
Definition shorten (x : t) (d : Q) (n : string) : t :=
  mk (id x) n (phase x) d d
     (compressionRatio x) (predecessors x) (type x) (manualStartOffset x)
     (serialNumber x) (computedStart x) (computedEnd x).
End Task.

Abbreviation Task := Task.t.

Module Project.
Record t : Type := mk {
  name : string;
  startDate : Date;
  country : list string;
  tasks : list Task;
  vddEnabled : bool
}.

(** [project.tasks = ts] (also: the same project seen after its task
    objects were mutated). *)
Definition setTasks (p : t) (ts : list Task) : t :=
  mk (name p) (startDate p) (country p) ts (vddEnabled p).
End Project.

Abbreviation Project := Project.t.

Definition createProject (name : string) (startDate : Date)
    (country : list string) : Project :=
  Project.mk name startDate country [] false.

(** ** Numbers and strings of the host language *)

(** [x > 0] on numbers. *)
Definition Qpositive (x : Q) : bool := (0 <? Qnum x)%Z.

(** [x === 0] on numbers. *)
Definition Qis_zero (x : Q) : bool := (Qnum x =? 0)%Z.

(** [x > n] for an integer literal [n]. *)
Definition Qgtb (x y : Q) : bool :=
  (Qnum y * Zpos (Qden x) <? Qnum x * Zpos (Qden y))%Z.

(** 2^53: up to here every whole number is a double. *)
Definition maxExact : Z := 9007199254740992.

(** [daysToAdd--] on the counter of the duration loop, a double that holds
    a whole number.  Up to 2^53 the decrement is exact.  Above 2^53 the
    doubles are 2 or more apart and [daysToAdd - 1] is rounded to a double:
    from 2^53 + 4 on, the result is the counter itself, or once the double
    below it, which is then kept, so the counter never comes down.  The
    model leaves every counter above 2^53 as it is.  (For the double
    2^53 + 2 alone the rounding goes down to 2^53; the model does not
    follow this value and lets it stay as well.) *)
Definition decrement (daysToAdd : Z) : Z :=
  if (daysToAdd <=? maxExact)%Z then (daysToAdd - 1)%Z else daysToAdd.

(** [hay.includes(needle)] *)
Fixpoint includes (needle hay : string) : bool :=
  String.prefix needle hay
  || match hay with
     | EmptyString => false
     | String _ rest => includes needle rest
     end.

(** ** Calendar *)

Definition msPerDay : Z := 86400000.

(** date-fns [addDays]. *)
Definition addDays (d : Date) (amount : Z) : Date := (d + amount * msPerDay)%Z.

(** [Date.prototype.getDay]: 0 is Sunday; the epoch was a Thursday. *)
Definition getDay (d : Date) : Z := ((d / msPerDay + 4) mod 7)%Z.

(** date-fns [isWeekend]. *)
Definition isWeekend (d : Date) : bool :=
  (getDay d =? 0)%Z || (getDay d =? 6)%Z.

(** The holiday calendar of one jurisdiction code; a code the library does
    not know has no holidays. *)
Definition HolidayOracle : Type := string → Date → bool.

Section Engine.

Variable holidayIn : HolidayOracle.
Variable fuel : nat.

Definition isHoliday (date : Date) (countries : list string) : bool :=
  existsb (fun code => holidayIn code date) countries.

(** The test [isWeekend(d) || isHoliday(d, countries)] of the loops. *)
Definition nonWorking (d : Date) (countries : list string) : bool :=
  isWeekend d || isHoliday d countries.

(** An assumption on the calendar: from any date on, one of the next
    [gap] days is a working day. *)
Definition recurring (countries : list string) (gap : nat) : Prop :=
  ∀ d : Date, ∃ k : nat,
    k < gap ∧ nonWorking (addDays d (Z.of_nat k)) countries = false.

(** [while (curr < end) { if (working curr) count++; curr = addDays(curr, 1) }] *)
Fixpoint countBusinessDays (n : nat) (curr end_ : Date)
    (countries : list string) (count : Z) : option Z :=
  if (curr <? end_)%Z then
    match n with
    | O => None
    | S n' =>
        countBusinessDays n' (addDays curr 1) end_ countries
          (if nonWorking curr countries then count else (count + 1)%Z)
    end
  else Some count.

Definition getBusinessDays (start end_ : Date) (countries : list string)
    : option Z :=
  countBusinessDays fuel start end_ countries 0%Z.

(** [while (isWeekend(c) || isHoliday(c, countries)) c = addDays(c, 1)] *)
Fixpoint rollForward (n : nat) (startCandidate : Date)
    (countries : list string) : option Date :=
  if nonWorking startCandidate countries then
    match n with
    | O => None
    | S n' => rollForward n' (addDays startCandidate 1) countries
    end
  else Some startCandidate.

(** [while (daysToAdd > 0) { current = addDays(current, 1);
      if (nonWorking current) continue; daysToAdd--; }] *)
Fixpoint addWorkingDays (n : nat) (daysToAdd : Z) (current : Date)
    (countries : list string) : option Date :=
  if (0 <? daysToAdd)%Z then
    match n with
    | O => None
    | S n' =>
        let current := addDays current 1 in
        if nonWorking current countries
        then addWorkingDays n' daysToAdd current countries
        else addWorkingDays n' (decrement daysToAdd) current countries
    end
  else Some current.

(** *** The dependency scheduler *)

(** The first [forEach] of [calculateSchedule]. *)
Definition resetComputed (ts : list Task) : list Task :=
  imap (fun index t => Task.setComputed t (Some (index + 1)) None None) ts.

(** [tasksById]: [project.tasks.forEach(t => tasksById.set(t.id, t))].
    The value stored for an id is the task object, here the index of its
    slot; a later task replaces an earlier one that has the same id. *)
Fixpoint indexTasks (i : nat) (ts : list Task) (m : gmap string nat)
    : gmap string nat :=
  match ts with
  | [] => m
  | t :: rest => indexTasks (S i) rest (<[Task.id t := i]> m)
  end.

(** The variables of the [while] loop of [calculateSchedule]. [passes]
    counts the runs of the [for] loop over the tasks. *)
Record SchedState : Type := mkSched {
  objects : list Task;
  processed : gset string;
  progressMade : bool;
  passes : nat
}.

(** The loop over [task.predecessors].  [None] is [predsReady = false];
    [Some d] is [predsReady = true] with [maxPredEnd = d]. *)
Fixpoint predecessorsEnd (tasksById : gmap string nat) (ts : list Task)
    (done : gset string) (preds : list string) (maxPredEnd : Date)
    : option Date :=
  match preds with
  | [] => Some maxPredEnd
  | predId :: rest =>
      match tasksById !! predId with
      | None => predecessorsEnd tasksById ts done rest maxPredEnd
      | Some j =>
          match ts !! j with
          | None => None
          | Some pred =>
              match Task.computedEnd pred with
              | Some predEnd =>
                  if decide (Task.id pred ∈ done) then
                    predecessorsEnd tasksById ts done rest
                      (if (maxPredEnd <? predEnd)%Z then predEnd
                       else maxPredEnd)
                  else None
              | None => None
              end
          end
      end
  end.

(** [startCandidate] after the manual offset. *)
Definition applyOffset (maxPredEnd : Date) (offset : option Z) : Date :=
  match offset with
  | Some n => if (n =? 0)%Z then maxPredEnd else addDays maxPredEnd n
  | None => maxPredEnd
  end.

(** Start and end of a task that is ready. *)
Definition placeTask (countries : list string) (task : Task)
    (maxPredEnd : Date) : option (Date * Date) :=
  start ← rollForward fuel
            (applyOffset maxPredEnd (Task.manualStartOffset task)) countries;
  end_ ← (if Qis_zero (Task.durationWeeks task) then Some start
          else addWorkingDays fuel (Qfloor (Task.durationWeeks task * 5))
                 start countries);
  Some (start, end_).

(** The body of [for (const task of project.tasks)] for the task in
    slot [i]. *)
Definition visitTask (startDate : Date) (countries : list string)
    (tasksById : gmap string nat) (st : SchedState) (i : nat)
    : option SchedState :=
  match objects st !! i with
  | None => Some st
  | Some task =>
      if decide (Task.id task ∈ processed st) then Some st
      else
        match predecessorsEnd tasksById (objects st) (processed st)
                (Task.predecessors task) startDate with
        | None => Some st
        | Some maxPredEnd =>
            '(start, end_) ← placeTask countries task maxPredEnd;
            Some (mkSched
                    (<[i := Task.setComputed task (Task.serialNumber task)
                              (Some start) (Some end_)]> (objects st))
                    ({[Task.id task]} ∪ processed st)
                    true
                    (passes st))
        end
  end.

(** A loop over slots whose body may not return. *)
Fixpoint forEachSlot {St : Type} (body : St → nat → option St)
    (slots : list nat) (s : St) : option St :=
  match slots with
  | [] => Some s
  | i :: rest =>
      match body s i with
      | Some s' => forEachSlot body rest s'
      | None => None
      end
  end.

(** One run of the [for] loop, with [progressMade = false] before it. *)
Definition onePass (startDate : Date) (countries : list string)
    (tasksById : gmap string nat) (st : SchedState) : option SchedState :=
  forEachSlot (visitTask startDate countries tasksById)
    (seq 0 (length (objects st)))
    (mkSched (objects st) (processed st) false (S (passes st))).

(** The [while] loop.  [remaining] is [maxIterations - iterations]: when
    it is 0 the test [iterations > maxIterations] succeeds and the loop
    is left with the warning. *)
Fixpoint scheduleLoop (startDate : Date) (countries : list string)
    (tasksById : gmap string nat) (remaining : nat) (st : SchedState)
    : option SchedState :=
  if decide (size (processed st) < length (objects st)) then
    match remaining with
    | O => Some st
    | S remaining' =>
        match onePass startDate countries tasksById st with
        | Some st' =>
            if progressMade st'
            then scheduleLoop startDate countries tasksById remaining' st'
            else Some st'
        | None => None
        end
    end
  else Some st.

Definition maxIterations (ts : list Task) : nat := length ts * 3.

(** [calculateSchedule] up to its [return]: the project is read for its
    [startDate], [country] and [tasks] only. *)
Definition runSchedule (p : Project) : option SchedState :=
  let ts := resetComputed (Project.tasks p) in
  scheduleLoop (Project.startDate p) (Project.country p)
    (indexTasks 0 ts ∅) (maxIterations ts) (mkSched ts ∅ false 0).

Definition calculateSchedule (p : Project) : option Project :=
  st ← runSchedule p;
  Some (Project.setTasks p (objects st)).

End Engine.

(** ** The VDD workstream injector *)

Definition vddTasks : list Task :=
  [ Task.mk "VDD.1" "Selection of VDD Advisors (Financial, Legal, Tax)"
      "Phase 1: Preparation" 2 2 1 ["T1.1"] KeyDecision None None None None;
    Task.mk "VDD.2" "Financial VDD Execution"
      "Phase 1: Preparation" 4 4 1 ["VDD.1"] Standard None None None None;
    Task.mk "VDD.3" "Tax & Legal VDD Execution"
      "Phase 1: Preparation" 4 4 1 ["VDD.1"] Standard None None None None;
    Task.mk "VDD.4" "VDD Reports Draft Review"
      "Phase 1: Preparation" 2 2 1 ["VDD.2"; "VDD.3"] Bottleneck
      None None None None ].

(** The predicate of [findIndex] in [injectVddTasks]. *)
Definition isKickoff (t : Task) : bool :=
  String.eqb (Task.id t) "T1.1" || String.eqb (Task.id t) "F1.1"
  || String.eqb (Task.id t) "D1.1".

Definition isSentinel (t : Task) : bool := String.eqb (Task.id t) "VDD.1".

Definition isConfirmatoryDD (t : Task) : bool :=
  includes "Confirmatory Due Diligence" (Task.name t).

(** [findIndex], then [-1 -> 0] and [i -> i + 1]. *)
Definition insertIdx (ts : list Task) : nat :=
  match list_find (λ t, isKickoff t = true) ts with
  | None => 0
  | Some (i, _) => i + 1
  end.

(** [l.splice(idx, 0, ...items)] *)
Definition splice {A : Type} (idx : nat) (items l : list A) : list A :=
  take idx l ++ items ++ drop idx l.

(** The Phase 3 shortening: the first task whose name has the marker is
    changed in place when it is longer than 3 weeks. *)
Definition shortenPhase3 (ts : list Task) : list Task :=
  match list_find (λ t, isConfirmatoryDD t = true) ts with
  | Some (k, p3Task) =>
      if Qgtb (Task.durationWeeks p3Task) 3 then
        <[k := Task.shorten p3Task (Task.durationWeeks p3Task - 2)
                 (Task.name p3Task ++ " (Shortened due to VDD)")]> ts
      else ts
  | None => ts
  end.

Definition injectVddTasks (p : Project) : Project :=
  if negb (Project.vddEnabled p) then p
  else if existsb isSentinel (Project.tasks p) then p
  else
    let newTasks := splice (insertIdx (Project.tasks p)) vddTasks
                      (Project.tasks p) in
    Project.setTasks p (shortenPhase3 newTasks).

(** ** The compression engine *)

(** Step 1 of [compressSchedule]: the body of the [forEach], and the loop. *)
Definition resetOne (t : Task) : Task :=
  if Qpositive (Task.originalDurationWeeks t)
  then Task.setDuration t (Task.originalDurationWeeks t) 1
  else t.

Definition resetDurations (ts : list Task) : list Task := resetOne <$> ts.

(** The filter of [block1Tasks].  [block2Tasks] keeps the objects that are
    not in [block1Tasks]: the tasks on which this test fails. *)
Definition inBlock1 (t : Task) : bool :=
  includes "Phase 1" (Task.phase t) || includes "Preparation" (Task.phase t)
  || includes "Kick-off" (Task.phase t).

Definition inBlock2 (t : Task) : bool := negb (inBlock1 t).

(** [tempProj.tasks.find(x => x.id === t.id)] *)
Definition findById (ts : list Task) (i : string) : option Task :=
  snd <$> list_find (λ x, Task.id x = i) ts.

(** The [forEach] that computes [maxEndBlock1] (and [maxEndBlock2]). *)
Definition latestEnd (inBlock : Task → bool) (ts : list Task) (init : Date)
    : Date :=
  fold_left
    (λ maxEnd t,
       match findById ts (Task.id t) ≫= Task.computedEnd with
       | Some e => if (maxEnd <? e)%Z then e else maxEnd
       | None => maxEnd
       end)
    (List.filter inBlock ts) init.

(** The [forEach] that computes [minStartBlock2]; [None] is the sentinel,
    the [signingDate] object itself. *)
Definition earliestStart (inBlock : Task → bool) (ts : list Task)
    : option Date :=
  fold_left
    (λ minStart t,
       match findById ts (Task.id t) ≫= Task.computedStart with
       | Some s =>
           match minStart with
           | None => Some s
           | Some m => if (s <? m)%Z then Some s else Some m
           end
       | None => minStart
       end)
    (List.filter inBlock ts) None.

(** The [forEach] that applies a ratio to a block: its body, and the loop
    over the tasks of the block. *)
Definition scaleOne (inBlock : Task → bool) (ratio : Q) (t : Task) : Task :=
  if inBlock t && Qpositive (Task.durationWeeks t)
  then Task.setDuration t (Task.originalDurationWeeks t * ratio) ratio
  else t.

Definition scaleBlock (inBlock : Task → bool) (ratio : Q) (ts : list Task)
    : list Task :=
  scaleOne inBlock ratio <$> ts.

(** [if (standardDays > 0 && availableDays > 0) { ratio = ...; scale }] *)
Definition applyRatio (inBlock : Task → bool) (availableDays standardDays : Z)
    (p : Project) : Project :=
  if (0 <? standardDays)%Z && (0 <? availableDays)%Z then
    Project.setTasks p
      (scaleBlock inBlock (inject_Z availableDays / inject_Z standardDays)
         (Project.tasks p))
  else p.

Section Compression.

Variable holidayIn : HolidayOracle.
Variable fuel : nat.

(** Block 1 up to the test on the day counts: the project after the
    baseline scheduling (the shallow copy shares the task objects),
    [availableDays] and [standardDays]. *)
Definition block1Days (p : Project) (marketingDate : Date)
    : option (Project * Z * Z) :=
  availableDays ← getBusinessDays holidayIn fuel (Project.startDate p)
                    marketingDate (Project.country p);
  tempProj ← calculateSchedule holidayIn fuel p;
  let maxEndBlock1 :=
    latestEnd inBlock1 (Project.tasks tempProj) (Project.startDate p) in
  standardDays ← getBusinessDays holidayIn fuel (Project.startDate p)
                   maxEndBlock1 (Project.country p);
  Some (tempProj, availableDays, standardDays).

Definition compressBlock1 (p : Project) (marketingDate : Date)
    : option Project :=
  '(tempProj, availableDays, standardDays) ← block1Days p marketingDate;
  Some (applyRatio inBlock1 availableDays standardDays tempProj).

(** Block 2 up to the test on the day counts.  The day counts are [None]
    when [minStartBlock2 < signingDate] fails. *)
Definition block2Days (p : Project) (signingDate : Date)
    : option (Project * option (Z * Z)) :=
  tempProj ← calculateSchedule holidayIn fuel p;
  let maxEndBlock2 := latestEnd inBlock2 (Project.tasks tempProj) 0%Z in
  match earliestStart inBlock2 (Project.tasks tempProj) with
  | Some minStartBlock2 =>
      if (minStartBlock2 <? signingDate)%Z then
        availableDays ← getBusinessDays holidayIn fuel minStartBlock2
                          signingDate (Project.country p);
        standardDays ← getBusinessDays holidayIn fuel minStartBlock2
                         maxEndBlock2 (Project.country p);
        Some (tempProj, Some (availableDays, standardDays))
      else Some (tempProj, None)
  | None => Some (tempProj, None)
  end.

Definition compressBlock2 (p : Project) (signingDate : Date)
    : option Project :=
  '(tempProj, days) ← block2Days p signingDate;
  match days with
  | Some (availableDays, standardDays) =>
      Some (applyRatio inBlock2 availableDays standardDays tempProj)
  | None => Some tempProj
  end.

(** [if (marketingDate) { ... }] *)
Definition block1Stage (p : Project) (marketingDate : option Date)
    : option Project :=
  match marketingDate with
  | Some m => compressBlock1 p m
  | None => Some p
  end.

(** [if (signingDate) { ... }] *)
Definition block2Stage (p : Project) (signingDate : option Date)
    : option Project :=
  match signingDate with
  | Some s => compressBlock2 p s
  | None => Some p
  end.

(** The project after step 1. *)
Definition resetProject (p : Project) : Project :=
  Project.setTasks p (resetDurations (Project.tasks p)).

Definition compressSchedule (p : Project)
    (marketingDate signingDate : option Date) : option Project :=
  let p := resetProject p in
  match marketingDate, signingDate with
  | None, None => calculateSchedule holidayIn fuel p
  | _, _ =>
      p1 ← block1Stage p marketingDate;
      p2 ← block2Stage p1 signingDate;
      calculateSchedule holidayIn fuel p2
  end.

End Compression.

(** ** The templates *)

(** A task as the templates push it: the baseline is the duration, the
    ratio is 1, and no computed field is set. *)
Definition templateTask (i n ph : string) (weeks : Q) (preds : list string)
    (ty : TaskType) : Task :=
  Task.mk i n ph weeks weeks 1 preds ty None None None None.

Definition template1Tasks : list Task :=
  [
    templateTask "T1.1"
      "Kick-off & Information Gathering"
      "Phase 1: Preparation" 2 [] Standard;
    templateTask "T1.2"
      "Preparation of Teaser & Information Memorandum (IM)"
      "Phase 1: Preparation" 4 ["T1.1"] Standard;
    templateTask "T1.3"
      "Structuring of Virtual Data Room (VDR)"
      "Phase 1: Preparation" 3 ["T1.1"] Standard;
    templateTask "T2.1"
      "Contact with Potential Investors & NDAs"
      "Phase 2: Marketing" 3 ["T1.2"] Standard;
    templateTask "T2.2"
      "Distribution of IM & Process Letter I"
      "Phase 2: Marketing" 1 ["T2.1"] Milestone;
    templateTask "T2.3"
      "Reception & Evaluation of Non-Binding Offers (NBOs)"
      "Phase 2: Marketing" 2 ["T2.2"] KeyDecision;
    templateTask "T3.1"
      "VDR Access & Confirmatory Due Diligence"
      "Phase 3: Due Diligence & Exclusivity" 6 ["T2.3"] Standard;
    templateTask "T3.2"
      "Management Presentations & Site Visits"
      "Phase 3: Due Diligence & Exclusivity" 2 ["T2.3"] Bottleneck;
    templateTask "T3.3"
      "Sharing of SPA Drafts & Legal Terms"
      "Phase 3: Due Diligence & Exclusivity" 1 ["T3.1"] Standard;
    templateTask "T3.4"
      "Reception of Binding Offers (BOs) & SPA Mark-up"
      "Phase 3: Due Diligence & Exclusivity" 2 ["T3.1"] KeyDecision;
    templateTask "T4.1"
      "Final Negotiation with Selected Investor"
      "Phase 4: Conclusion" 3 ["T3.4"] Standard;
    templateTask "T4.2"
      "Finalization of Legal Docs & SPA Signature / Closing"
      "Phase 4: Conclusion" 1 ["T4.1"] Milestone ].

Definition template2Tasks : list Task :=
  [
    templateTask "F1.1"
      "Teaser, VDR Setup & Initial Contacts"
      "Phase 1: Accelerated Prep & Marketing" 3 [] Standard;
    templateTask "F1.2"
      "IM Distribution & Fast-track NDAs"
      "Phase 1: Accelerated Prep & Marketing" 2 ["F1.1"] Standard;
    templateTask "F1.3"
      "Reception of NBOs"
      "Phase 1: Accelerated Prep & Marketing" 1 ["F1.2"] KeyDecision;
    templateTask "F2.1"
      "Intensive DD & Q&A"
      "Phase 2: Deep Dive & Closing" 4 ["F1.3"] Standard;
    templateTask "F2.2"
      "Management Presentations"
      "Phase 2: Deep Dive & Closing" 1 ["F1.3"] Bottleneck;
    templateTask "F2.3"
      "Binding Offers & SPA Negotiation"
      "Phase 2: Deep Dive & Closing" 2 ["F2.1"] KeyDecision;
    templateTask "F2.4"
      "Closing"
      "Phase 2: Deep Dive & Closing" 1 ["F2.3"] Milestone ].

Definition template3Tasks : list Task :=
  [
    templateTask "D1.1"
      "Kick-off Meetings for DDs (Financial, Tax, Legal)"
      "Phase 1: DD Kick-off" 1 [] Standard;
    templateTask "D1.2"
      "Data Room Opening & Info Processing"
      "Phase 1: DD Kick-off" 2 ["D1.1"] Standard;
    templateTask "D2.1"
      "Expert Sessions & Q&A with Key People"
      "Phase 2: Execution & Q&A" 3 ["D1.2"] Standard;
    templateTask "D2.2"
      "Confirmatory DD Execution"
      "Phase 2: Execution & Q&A" 5 ["D1.2"] Standard;
    templateTask "D3.1"
      "SPA Draft Sharing"
      "Phase 3: Legal & Conclusion" 1 ["D2.2"] Standard;
    templateTask "D3.2"
      "Evaluation of BOs & SPA Mark-up"
      "Phase 3: Legal & Conclusion" 2 ["D3.1"] KeyDecision;
    templateTask "D3.3"
      "Final Negotiation & Closing"
      "Phase 3: Legal & Conclusion" 2 ["D3.2"] Milestone ].

Section Templates.

Variable holidayIn : HolidayOracle.
Variable fuel : nat.

(** [createProject(name, startDate)] with the default jurisdiction, the
    pushes, and [calculateSchedule(p); return p]. *)
Definition getTemplate1 (startDate : Date) : option Project :=
  let p := createProject "Standard Sell-Side M&A" startDate ["US"] in
  calculateSchedule holidayIn fuel (Project.setTasks p template1Tasks).

Definition getTemplate2 (startDate : Date) : option Project :=
  let p := createProject "Fast-Track / Sprint M&A" startDate ["US"] in
  calculateSchedule holidayIn fuel (Project.setTasks p template2Tasks).

Definition getTemplate3 (startDate : Date) : option Project :=
  let p := createProject "Due Diligence Heavy / Buy-Side" startDate ["US"] in
  calculateSchedule holidayIn fuel (Project.setTasks p template3Tasks).

Definition getProjectByTemplateName (name : string) (startDate : Date)
    : option Project :=
  if includes "Standard" name then getTemplate1 startDate
  else if includes "Fast-Track" name then getTemplate2 startDate
  else if includes "Buy-Side" name then getTemplate3 startDate
  else getTemplate1 startDate.

End Templates.

(** ** The application: country selection, template loading, recalculation *)

(** [toggleCountry] of [App]: the next value of [selectedCountries]. *)
Definition toggleCountry (selectedCountries : list string) (code : string)
    : list string :=
  if bool_decide (code ∈ selectedCountries)
  then filter (λ c, c ≠ code) selectedCountries
  else selectedCountries ++ [code].

Section App.

Variable holidayIn : HolidayOracle.
Variable fuel : nat.

(** [loadTemplate] of [App], as a function of the settings it reads: the
    project that it hands to [setProject]. *)
Definition loadTemplate (selectedTemplate : string) (start : Date)
    (projectName : string) (selectedCountries : list string)
    (vddEnabled : bool) : option Project :=
  p ← getProjectByTemplateName holidayIn fuel selectedTemplate start;
  let p := Project.mk projectName (Project.startDate p) selectedCountries
             (Project.tasks p) vddEnabled in
  let p := if vddEnabled then injectVddTasks p else p in
  calculateSchedule holidayIn fuel p.


End App.

(** ** Concrete calendars and projects used in the examples *)

(** A calendar without holidays; the projects that are scheduled with it
    list no jurisdiction. *)
Definition noHolidays : HolidayOracle := λ _ _, false.

(** 2024-01-01T00:00:00Z, a Monday. *)
Definition jan1_2024 : Date := 1704067200000%Z.

(** New Year's Day 2024 in the US, nothing else. *)
Definition newYear2024 : HolidayOracle :=
  λ code d, String.eqb code "US" && (d / msPerDay =? 19723)%Z.

(** A task as the templates write it, with its baseline equal to its
    duration. *)
Definition simpleTask (i ph : string) (weeks : Q) (preds : list string)
    (offset : option Z) : Task :=
  Task.mk i i ph weeks weeks 1 preds Standard offset None None None.

(** A task whose baseline and ratio differ from the template values. *)
Definition editedTask (i ph : string) (weeks baseline ratio : Q)
    (preds : list string) : Task :=
  Task.mk i i ph weeks baseline ratio preds Standard None None None None.

(** The scenario of the specification: a start on New Year's Day and one
    task of one week. *)
Definition holidayStart : Project :=
  Project.mk "holiday start" jan1_2024 ["US"]
    [simpleTask "A" "Phase 1" 1 [] None] false.

(** One task of two weeks. *)
Definition twoWeeks : Project :=
  Project.mk "two weeks" jan1_2024 []
    [simpleTask "A" "Phase 1" 2 [] None] false.

(** B follows A with a lag of two days. *)
Definition lagProject : Project :=
  Project.mk "lag" jan1_2024 []
    [simpleTask "A" "Phase 1" 1 [] None;
     simpleTask "B" "Phase 1" 1 ["A"] (Some 2%Z)] false.


(** Two tasks that wait for each other. *)
Definition cycleProject : Project :=
  Project.mk "cycle" jan1_2024 []
    [simpleTask "A" "Phase 1" 1 ["B"] None;
     simpleTask "B" "Phase 1" 1 ["A"] None] false.

(** One task of 1e17 weeks, a value that the duration field accepts. *)
Definition hugeDuration : Project :=
  Project.mk "huge duration" jan1_2024 []
    [simpleTask "A" "Phase 1" 100000000000000000 [] None] false.

(** Projects for the injector: a standard kickoff, a fast-track kickoff,
    and both kickoff ids with the fast-track one first. *)
Definition standardKickoff : Project :=
  Project.mk "standard" jan1_2024 ["US"]
    [simpleTask "T1.1" "Phase 1: Preparation" 2 [] None;
     simpleTask "T1.2" "Phase 1: Preparation" 4 ["T1.1"] None] true.

Definition fastTrackKickoff : Project :=
  Project.mk "fast track" jan1_2024 ["US"]
    [simpleTask "F1.1" "Phase 1: Accelerated Prep & Marketing" 3 [] None;
     simpleTask "F1.2" "Phase 1: Accelerated Prep & Marketing" 2 ["F1.1"]
       None] true.

Definition bothKickoffs : Project :=
  Project.mk "both" jan1_2024 ["US"]
    [simpleTask "F1.1" "Phase 1: Accelerated Prep & Marketing" 3 [] None;
     simpleTask "T1.1" "Phase 1: Preparation" 2 [] None] true.

(** Projects for the compression engine: two phases with template tasks;
    a Phase 1 task with a duration of 2 weeks and a baseline of 0 before a
    template task; one task with a baseline of 0 and a ratio of 1/2. *)
Definition twoPhases : Project :=
  Project.mk "two phases" jan1_2024 []
    [simpleTask "A" "Phase 1" 2 [] None;
     simpleTask "B" "Phase 2" 2 ["A"] None] false.

Definition noBaseline : Project :=
  Project.mk "no baseline" jan1_2024 []
    [editedTask "A" "Phase 1" 2 0 1 [];
     simpleTask "B" "Phase 1" 1 ["A"] None] false.

Definition halfRatio : Project :=
  Project.mk "half ratio" jan1_2024 []
    [editedTask "A" "Phase 1" 2 0 (1 # 2) []] false.

(** A zero-duration marker whose ratio is 1/2. *)
Definition staleRatio : Project :=
  Project.mk "stale ratio" jan1_2024 []
    [editedTask "M" "Phase 1" 0 0 (1 # 2) []] false.

(** A Phase 1 task followed by a zero-duration marker of Phase 2. *)
Definition markerPhase2 : Project :=
  Project.mk "marker" jan1_2024 []
    [simpleTask "A" "Phase 1" 2 [] None;
     simpleTask "M" "Phase 2" 0 ["A"] None] false.

(** A task that names a predecessor that the project does not have. *)
Definition danglingProject : Project :=
  Project.mk "dangling" jan1_2024 []
    [simpleTask "A" "Phase 1" 1 ["X"] None] false.

(** The standard template with VDD switched on, before the injection. *)
Definition vddStandard : Project :=
  Project.mk "vdd standard" jan1_2024 [] template1Tasks true.

(** One week after the start of the example projects. *)
Definition jan8_2024 : Date := addDays jan1_2024 7.

(** ** Vocabulary of the statements *)

(** The fields of a task that scheduling does not write. *)
Definition static (t : Task) : Task := Task.setComputed t None None None.

(** The task has both computed dates. *)
Definition scheduled (t : Task) : Prop :=
  is_Some (Task.computedStart t) ∧ is_Some (Task.computedEnd t).

(** The task has no computed date. *)
Definition unscheduled (t : Task) : Prop :=
  Task.computedStart t = None ∧ Task.computedEnd t = None.

(** [tasksById.get(predId)] read in the task list [ts]. *)
Definition taskById (ts : list Task) (predId : string) : option Task :=
  indexTasks 0 ts ∅ !! predId ≫= λ j, ts !! j.

(** The manual offset is absent or not negative. *)
Definition lagOnly (t : Task) : Prop :=
  match Task.manualStartOffset t with
  | Some n => (0 ≤ n)%Z
  | None => True
  end.

(** A business day of a project with these jurisdictions. *)
Definition businessDay (holidayIn : HolidayOracle) (countries : list string)
    (d : Date) : Prop :=
  isWeekend d = false ∧ ∀ code, code ∈ countries → holidayIn code d = false.

(** The dates of a task are those the scheduler computes from its start. *)
Definition wellPlaced (holidayIn : HolidayOracle) (fuel : nat)
    (countries : list string) (t : Task) : Prop :=
  match Task.computedStart t, Task.computedEnd t with
  | Some s, Some e =>
      nonWorking holidayIn s countries = false
      ∧ (if Qis_zero (Task.durationWeeks t) then e = s
         else addWorkingDays holidayIn fuel
                (Qfloor (Task.durationWeeks t * 5)) s countries = Some e)
  | None, None => True
  | _, _ => False
  end.

(** One step of the scheduler: the task in a slot is ready and gets its
    dates.  This is the only way [visitTask] changes the tasks and the set
    of processed ids. *)
Inductive placeStep (holidayIn : HolidayOracle) (fuel : nat)
    (startDate : Date) (countries : list string)
    (tasksById : gmap string nat)
    : list Task * gset string → list Task * gset string → Prop :=
  | place_ready ts done i task maxPredEnd start end_ :
      ts !! i = Some task →
      Task.id task ∉ done →
      predecessorsEnd tasksById ts done (Task.predecessors task) startDate
        = Some maxPredEnd →
      placeTask holidayIn fuel countries task maxPredEnd = Some (start, end_) →
      placeStep holidayIn fuel startDate countries tasksById (ts, done)
        (<[i := Task.setComputed task (Task.serialNumber task)
                  (Some start) (Some end_)]> ts,
         {[Task.id task]} ∪ done).

(** What holds of the tasks and of the processed ids all along a run. *)
Record consistent (holidayIn : HolidayOracle) (fuel : nat)
    (countries : list string) (ts0 : list Task)
    (ts : list Task) (done : gset string) : Prop := {
  c_static : resetComputed ts = ts0;
  c_placed : ∀ i t, ts !! i = Some t → wellPlaced holidayIn fuel countries t;
  c_done : ∀ i t, ts !! i = Some t → is_Some (Task.computedEnd t) →
           Task.id t ∈ done;
  c_unique : ∀ i j ti tj, ts !! i = Some ti → ts !! j = Some tj →
             is_Some (Task.computedEnd ti) → is_Some (Task.computedEnd tj) →
             Task.id ti = Task.id tj → i = j;
  c_preds : ∀ i t s predId j, ts !! i = Some t →
            Task.computedStart t = Some s →
            predId ∈ Task.predecessors t →
            indexTasks 0 ts0 ∅ !! predId = Some j →
            ∃ tp e, ts !! j = Some tp ∧ Task.computedEnd tp = Some e
                    ∧ (lagOnly t → (e ≤ s)%Z)
}.

(** The fuel is enough for the working days of the task when working days
    come back within [gap] days. *)
Definition affordable (gap fuel : nat) (t : Task) : Prop :=
  gap * Z.to_nat (Qfloor (Task.durationWeeks t * 5)) ≤ fuel.

(** The number of working days of the task is one that the counter of the
    duration loop can count down: at most 2^53. *)
Definition countsDown (t : Task) : Prop :=
  (Qfloor (Task.durationWeeks t * 5) ≤ maxExact)%Z.

(** What a task contributes to a compression run: its static fields once
    the durations are reset. *)
Definition core (t : Task) : Task := static (resetOne t).

(** A task without a positive baseline has no positive duration. *)
Definition baselineKept (t : Task) : Prop :=
  Qpositive (Task.originalDurationWeeks t) = false →
  Qpositive (Task.durationWeeks t) = false.

(** Two projects that the scheduler cannot tell apart. *)
Definition sameInputs (x y : Project) : Prop :=
  Project.name x = Project.name y
  ∧ Project.startDate x = Project.startDate y
  ∧ Project.country x = Project.country y
  ∧ Project.vddEnabled x = Project.vddEnabled y
  ∧ resetComputed (Project.tasks x) = resetComputed (Project.tasks y).

(** [y] is [x] up to the fields that compression and scheduling write, and
    no task of [y] has a positive duration without a positive baseline. *)
Definition kept (x y : Project) : Prop :=
  Project.name y = Project.name x
  ∧ Project.startDate y = Project.startDate x
  ∧ Project.country y = Project.country x
  ∧ Project.vddEnabled y = Project.vddEnabled x
  ∧ core <$> Project.tasks y = core <$> Project.tasks x
  ∧ Forall baselineKept (Project.tasks y).

(** From [x] to [y] every slot keeps its phase and its baseline, and the
    tasks selected by [keep] keep their duration and their ratio. *)
Definition keepsDurations (keep : Task → bool) (x y : Project) : Prop :=
  ∀ i t, Project.tasks x !! i = Some t →
    ∃ t', Project.tasks y !! i = Some t'
          ∧ Task.phase t' = Task.phase t
          ∧ Task.originalDurationWeeks t' = Task.originalDurationWeeks t
          ∧ (keep t = true →
             Task.durationWeeks t' = Task.durationWeeks t
             ∧ Task.compressionRatio t' = Task.compressionRatio t).

(** ** Vocabulary of the further statements *)

(** [max(startDate, computedEnd of the predecessors that tasksById has)],
    read in a task list. *)
Definition latestPredecessorEnd (ts : list Task) (preds : list string)
    (startDate : Date) : Date :=
  fold_left
    (λ acc predId,
       match taskById ts predId ≫= Task.computedEnd with
       | Some e => Z.max acc e
       | None => acc
       end)
    preds startDate.

(** [s] is the first business day at or after [d], in steps of one day. *)
Definition firstBusinessDayFrom (holidayIn : HolidayOracle)
    (countries : list string) (d s : Date) : Prop :=
  ∃ k : nat,
    s = addDays d (Z.of_nat k)
    ∧ nonWorking holidayIn s countries = false
    ∧ ∀ j : nat, j < k →
        nonWorking holidayIn (addDays d (Z.of_nat j)) countries = true.

(** The task has a predecessor that [tasksById] finds and that has no
    computed end. *)
Definition blocked (ts : list Task) (t : Task) : Prop :=
  ∃ predId tp,
    predId ∈ Task.predecessors t
    ∧ taskById ts predId = Some tp
    ∧ Task.computedEnd tp = None.

(** The dependencies go down along [rank]: no cycle among the tasks. *)
Definition ranked (rank : string → nat) (ts : list Task) : Prop :=
  ∀ t predId,
    t ∈ ts → predId ∈ Task.predecessors t → predId ∈ (Task.id <$> ts) →
    rank predId < rank (Task.id t).

(** What a run keeps beyond [consistent]: the serial numbers, the way each
    start and end was computed, and which ids are processed. *)
Record traced (holidayIn : HolidayOracle) (fuel : nat)
    (startDate : Date) (countries : list string) (ts0 : list Task)
    (ts : list Task) (done : gset string) : Prop := {
  t_serial : ∀ i t, ts !! i = Some t → Task.serialNumber t = Some (i + 1);
  t_placed : ∀ i t s, ts !! i = Some t → Task.computedStart t = Some s →
             ∃ m e, predecessorsEnd (indexTasks 0 ts0 ∅) ts done
                      (Task.predecessors t) startDate = Some m
                    ∧ placeTask holidayIn fuel countries t m = Some (s, e)
                    ∧ Task.computedEnd t = Some e;
  t_done : ∀ x, x ∈ done →
           ∃ i t, ts !! i = Some t ∧ Task.id t = x
                  ∧ is_Some (Task.computedEnd t)
}.

(** The fields of a task that neither scheduling nor compression writes:
    id, name, phase, baseline, predecessors, type and manual offset. *)
Definition identity (t : Task) : Task := Task.setDuration (static t) 0 1.

(** The ratio of a task with a positive baseline is its duration over its
    baseline, and both are positive. *)
Definition ratioOk (t : Task) : Prop :=
  Qpositive (Task.originalDurationWeeks t) = true →
  Task.durationWeeks t == Task.originalDurationWeeks t * Task.compressionRatio t
  ∧ Qpositive (Task.compressionRatio t) = true
  ∧ Qpositive (Task.durationWeeks t) = true.

(** [availableDays / standardDays] *)
Definition ratioOf (availableDays standardDays : Z) : Q :=
  inject_Z availableDays / inject_Z standardDays.

(** The position of an id in a list of ids, and the test that every
    predecessor of every task stands before the task in that list. *)
Definition rankIn (ids : list string) (x : string) : nat :=
  default 0 (fst <$> list_find (λ y, y = x) ids).

Definition rankedb (ids : list string) (ts : list Task) : bool :=
  forallb
    (λ t, forallb (λ predId, rankIn ids predId <? rankIn ids (Task.id t))
            (Task.predecessors t))
    ts.

(** The task list of the template that a name selects. *)
Definition templateTasksOf (name : string) : list Task :=
  if includes "Standard" name then template1Tasks
  else if includes "Fast-Track" name then template2Tasks
  else if includes "Buy-Side" name then template3Tasks
  else template1Tasks.

(** The tasks of a loaded template, computed fields apart: with VDD the
    four VDD tasks follow the kickoff task and Phase 3 is shortened. *)
Definition loadedTasks (name : string) (vdd : bool) : list Task :=
  if vdd then shortenPhase3 (splice 1 vddTasks (templateTasksOf name))
  else templateTasksOf name.

(** * Properties *)

(** ** The calendar loops *)

Section CalendarFacts.

Context (holidayIn : HolidayOracle) (countries : list string).

Local Abbreviation working d := (nonWorking holidayIn d countries = false).

Lemma addDays_lt d : (d < addDays d 1)%Z.
Proof. unfold addDays, msPerDay. lia. Qed.

Lemma rollForward_working n d d' :
  rollForward holidayIn n d countries = Some d' → working d'.
Proof.
  revert d. induction n as [|n IH]; intros d; simpl;
    destruct (nonWorking holidayIn d countries) eqn:E; try congruence; eauto.
Qed.

Lemma rollForward_ge n d d' :
  rollForward holidayIn n d countries = Some d' → (d ≤ d')%Z.
Proof.
  revert d. induction n as [|n IH]; intros d; simpl;
    destruct (nonWorking holidayIn d countries); try congruence.
  - intros [= ->]. lia.
  - intros H%IH. pose proof (addDays_lt d). lia.
  - intros [= ->]. lia.
Qed.

Lemma addWorkingDays_done n k d :
  (k ≤ 0)%Z → addWorkingDays holidayIn n k d countries = Some d.
Proof.
  intros Hk. destruct n; simpl; destruct (0 <? k)%Z eqn:E; try done; lia.
Qed.

Lemma decrement_exact k : (k ≤ maxExact)%Z → decrement k = (k - 1)%Z.
Proof. intros H%Z.leb_le. unfold decrement. by rewrite H. Qed.

Lemma decrement_stuck k : (maxExact < k)%Z → decrement k = k.
Proof. intros H%Z.leb_gt. unfold decrement. by rewrite H. Qed.

(** A counter above 2^53 never comes down: the loop does not end. *)
Lemma addWorkingDays_stuck n k d :
  (maxExact < k)%Z → addWorkingDays holidayIn n k d countries = None.
Proof.
  intros Hk. assert ((0 <? k)%Z = true) as Hpos.
  { apply Z.ltb_lt. unfold maxExact in Hk. lia. }
  revert d. induction n as [|n IH]; intros d; simpl; rewrite Hpos; [done|].
  rewrite (decrement_stuck _ Hk).
  by destruct (nonWorking holidayIn (addDays d 1) countries).
Qed.

(** Where the loop ends, the decrements were exact. *)
Lemma addWorkingDays_exact n k d e :
  addWorkingDays holidayIn n k d countries = Some e → (k ≤ maxExact)%Z.
Proof.
  intros Hrun. destruct (Z_le_gt_dec k maxExact) as [|Hgt]; [done|].
  rewrite addWorkingDays_stuck in Hrun by lia. done.
Qed.



Lemma addWorkingDays_last n k d e :
  addWorkingDays holidayIn n k d countries = Some e →
  ((k ≤ 0)%Z ∧ e = d) ∨ working e.
Proof.
  revert k d. induction n as [|n IH]; intros k d; simpl;
    destruct (0 <? k)%Z eqn:Ek; try congruence;
    try (intros [= <-]; left; split; [lia|done]).
  destruct (nonWorking holidayIn (addDays d 1) countries) eqn:E;
    intros [[Hk ->]|He]%IH; auto; lia.
Qed.

(** The end of a task is a working day when its start is one. *)
Lemma addWorkingDays_working n k d e :
  working d →
  addWorkingDays holidayIn n k d countries = Some e → working e.
Proof. intros Hd [[_ ->]|He]%addWorkingDays_last; done. Qed.

Lemma countBusinessDays_done n d e c :
  (e ≤ d)%Z → countBusinessDays holidayIn n d e countries c = Some c.
Proof.
  intros H. destruct n; simpl; destruct (d <? e)%Z eqn:E; try done; lia.
Qed.


Lemma addDays_0 d : addDays d 0 = d.
Proof. unfold addDays. lia. Qed.

Lemma addDays_succ d (k : nat) :
  addDays (addDays d 1) (Z.of_nat k) = addDays d (Z.of_nat (S k)).
Proof. unfold addDays. lia. Qed.

Lemma rollForward_within k : ∀ n d,
  k ≤ n → working (addDays d (Z.of_nat k)) →
  is_Some (rollForward holidayIn n d countries).
Proof.
  induction k as [|k IH]; intros n d Hn Hw.
  - rewrite addDays_0 in Hw. destruct n; simpl; rewrite Hw; eauto.
  - destruct n as [|n]; [lia|]. simpl.
    destruct (nonWorking holidayIn d countries); [|eauto].
    apply IH; [lia|]. by rewrite addDays_succ.
Qed.

Lemma rollForward_total gap n d :
  recurring holidayIn countries gap → gap ≤ n → is_Some (rollForward holidayIn n d countries).
Proof.
  intros Hrec Hn. destruct (Hrec d) as (k & Hk & Hw).
  apply (rollForward_within k); [lia|done].
Qed.

(** One working day is consumed within [gap] iterations. *)
Lemma addWorkingDays_within k : ∀ n m j d,
  (0 < j ≤ maxExact)%Z → S k + m ≤ n →
  working (addDays (addDays d 1) (Z.of_nat k)) →
  (∀ m' d', m ≤ m' →
     is_Some (addWorkingDays holidayIn m' (j - 1) d' countries)) →
  is_Some (addWorkingDays holidayIn n j d countries).
Proof.
  induction k as [|k IH]; intros n m j d Hj Hn Hw Hrest;
    (destruct n as [|n]; [lia|]); simpl;
    (destruct (0 <? j)%Z eqn:Ej; [|lia]);
    rewrite decrement_exact by lia.
  - rewrite addDays_0 in Hw. rewrite Hw. apply Hrest. lia.
  - destruct (nonWorking holidayIn (addDays d 1) countries).
    + apply (IH _ m); try done; [lia|]. by rewrite addDays_succ.
    + apply Hrest. lia.
Qed.

Lemma addWorkingDays_total gap (j : nat) : ∀ n d,
  recurring holidayIn countries gap → gap * j ≤ n →
  (Z.of_nat j ≤ maxExact)%Z →
  is_Some (addWorkingDays holidayIn n (Z.of_nat j) d countries).
Proof.
  induction j as [|j IH]; intros n d Hrec Hn Hj.
  - rewrite addWorkingDays_done by lia. eauto.
  - destruct (Hrec (addDays d 1)) as (k & Hk & Hw).
    rewrite Nat.mul_succ_r in Hn.
    apply (addWorkingDays_within k n (gap * j)); try done; try lia.
    intros m' d' Hm'. replace (Z.of_nat (S j) - 1)%Z with (Z.of_nat j) by lia.
    apply IH; [done|lia|lia].
Qed.

End CalendarFacts.

(** ** Resetting and indexing the tasks *)

Lemma resetComputed_lookup ts i :
  resetComputed ts !! i
  = (λ t, Task.setComputed t (Some (i + 1)) None None) <$> ts !! i.
Proof. unfold resetComputed. by rewrite list_lookup_imap. Qed.

Lemma length_resetComputed ts : length (resetComputed ts) = length ts.
Proof. unfold resetComputed. by rewrite length_imap. Qed.

Lemma resetComputed_idemp ts : resetComputed (resetComputed ts) = resetComputed ts.
Proof.
  apply list_eq; intros i. rewrite !resetComputed_lookup.
  by destruct (ts !! i).
Qed.

Lemma resetComputed_insert ts i t n s e :
  ts !! i = Some t →
  resetComputed (<[i := Task.setComputed t n s e]> ts) = resetComputed ts.
Proof.
  intros Hi. apply list_eq; intros j. rewrite !resetComputed_lookup.
  destruct (decide (i = j)) as [->|Hne].
  - rewrite list_lookup_insert_eq by (by eapply lookup_lt_Some).
    by rewrite Hi.
  - by rewrite list_lookup_insert_ne.
Qed.

Lemma static_setComputed t n s e : static (Task.setComputed t n s e) = static t.
Proof. done. Qed.

(** Two task lists that reset to the same list agree slot by slot on the
    static fields. *)
Lemma resetComputed_eq_static ts ts' i t :
  resetComputed ts = resetComputed ts' → ts !! i = Some t →
  ∃ t', ts' !! i = Some t' ∧ static t' = static t.
Proof.
  intros Heq Hi. pose proof (f_equal (λ l, l !! i) Heq) as Hl. simpl in Hl.
  rewrite !resetComputed_lookup, Hi in Hl.
  destruct (ts' !! i) as [t'|]; [|done]. exists t'. split; [done|].
  apply (f_equal (fmap static)) in Hl. simpl in Hl.
  rewrite !static_setComputed in Hl. congruence.
Qed.

Lemma static_fields t t' :
  static t' = static t →
  Task.id t' = Task.id t ∧ Task.name t' = Task.name t
  ∧ Task.phase t' = Task.phase t
  ∧ Task.durationWeeks t' = Task.durationWeeks t
  ∧ Task.originalDurationWeeks t' = Task.originalDurationWeeks t
  ∧ Task.compressionRatio t' = Task.compressionRatio t
  ∧ Task.predecessors t' = Task.predecessors t
  ∧ Task.manualStartOffset t' = Task.manualStartOffset t.
Proof. destruct t, t'. unfold static. simpl. intros [=]. by subst. Qed.

(** [tasksById] holds, for an id, the last slot with that id. *)
Lemma indexTasks_spec ts : ∀ i m k j,
  indexTasks i ts m !! k = Some j ↔
    (∃ t, i ≤ j ∧ ts !! (j - i) = Some t ∧ Task.id t = k
          ∧ ∀ j' t', ts !! j' = Some t' → Task.id t' = k → j' ≤ j - i)
    ∨ (m !! k = Some j ∧ ∀ j' t', ts !! j' = Some t' → Task.id t' ≠ k).
Proof.
  induction ts as [|t ts IH]; intros i m k j; simpl.
  - split; [intros H; right; split; [done|by intros ? ? [=]] |].
    intros [(t & _ & [=] & _)|[H _]]; done.
  - rewrite IH. clear IH. split.
    + intros [(t' & Hij & Hl & Hid & Hlast)|[Hm Hno]].
      * left. exists t'. replace (j - i) with (S (j - S i)) by lia.
        repeat split; try done; [lia|].
        intros [|j'] t'' Hj' Hid'; [lia|]. simpl in Hj'.
        specialize (Hlast _ _ Hj' Hid'). lia.
      * destruct (decide (Task.id t = k)) as [Heq|Hne].
        -- rewrite Heq, lookup_insert_eq in Hm. injection Hm as <-.
           left. exists t. rewrite Nat.sub_diag. repeat split; try done.
           intros [|j'] t'' Hj' Hid'; [lia|]. simpl in Hj'.
           by destruct (Hno _ _ Hj').
        -- rewrite lookup_insert_ne in Hm by done. right. split; [done|].
           intros [|j'] t''; simpl; [by intros [= <-]|]. apply Hno.
    + intros [(t' & Hij & Hl & Hid & Hlast)|[Hm Hno]].
      * destruct (decide (j = i)) as [->|Hne].
        -- rewrite Nat.sub_diag in Hl, Hlast. simpl in Hl. injection Hl as ->.
           right. rewrite Hid, lookup_insert_eq. split; [done|].
           intros j' t'' Hj' Hid'. specialize (Hlast (S j') t'' Hj' Hid'). lia.
        -- left. exists t'. replace (j - i) with (S (j - S i)) in Hl, Hlast by lia.
           simpl in Hl. repeat split; try done; [lia|].
           intros j' t'' Hj' Hid'. specialize (Hlast (S j') t'' Hj' Hid'). lia.
      * right. split.
        -- rewrite lookup_insert_ne; [done|]. apply (Hno 0 t). done.
        -- intros j' t'' Hj'. apply (Hno (S j') t''). done.
Qed.

Lemma indexTasks_Some ts k j :
  indexTasks 0 ts ∅ !! k = Some j →
  ∃ t, ts !! j = Some t ∧ Task.id t = k.
Proof.
  rewrite indexTasks_spec. rewrite Nat.sub_0_r.
  intros [(t & _ & Hl & Hid & _)|[[=] _]]. eauto.
Qed.


(** ** The scheduler as a sequence of placement steps *)

Section SchedulerFacts.

Context (holidayIn : HolidayOracle) (fuel : nat).
Context (startDate : Date) (countries : list string).
Context (tasksById : gmap string nat).

Local Abbreviation step :=
  (placeStep holidayIn fuel startDate countries tasksById).
Local Abbreviation view st := (objects st, processed st).

Lemma visitTask_step st i st' :
  visitTask holidayIn fuel startDate countries tasksById st i = Some st' →
  st' = st
  ∨ (step (view st) (view st') ∧ progressMade st' = true
     ∧ passes st' = passes st).
Proof.
  unfold visitTask. destruct (objects st !! i) as [task|] eqn:Hi;
    [|intros [= <-]; by left].
  case_decide as Hdone; [intros [= <-]; by left|].
  destruct (predecessorsEnd _ _ _ _ _) as [maxPredEnd|] eqn:Hp;
    [|intros [= <-]; by left].
  destruct (placeTask _ _ _ _ _) as [[start end_]|] eqn:Hpl; [|done].
  simpl. intros [= <-]. right. simpl. split; [|done].
  by eapply place_ready.
Qed.

Lemma forEachSlot_steps slots : ∀ st st',
  forEachSlot (visitTask holidayIn fuel startDate countries tasksById)
    slots st = Some st' →
  rtc step (view st) (view st') ∧ passes st' = passes st
  ∧ (progressMade st' = false → st' = st).
Proof.
  induction slots as [|i slots IH]; intros st st'; simpl.
  - intros [= <-]. done.
  - destruct (visitTask _ _ _ _ _ st i) as [st1|] eqn:Hv; [|done].
    intros (Hrtc & Hp & Hnone)%IH.
    apply visitTask_step in Hv as [->|(Hs & Hprog & Hpass)]; [done|].
    split; [by eapply rtc_l|]. split; [congruence|].
    intros Hf. specialize (Hnone Hf). congruence.
Qed.

Lemma onePass_steps st st' :
  onePass holidayIn fuel startDate countries tasksById st = Some st' →
  rtc step (view st) (view st') ∧ passes st' = S (passes st).
Proof. unfold onePass. intros (H & Hp & _)%forEachSlot_steps. done. Qed.

Lemma scheduleLoop_steps remaining : ∀ st st',
  scheduleLoop holidayIn fuel startDate countries tasksById remaining st
    = Some st' →
  rtc step (view st) (view st') ∧ passes st' ≤ passes st + remaining.
Proof.
  induction remaining as [|r IH]; intros st st'; simpl;
    (case_decide; [|intros [= <-]; split; [done|lia]]).
  - intros [= <-]. split; [done|lia].
  - destruct (onePass _ _ _ _ _ st) as [st1|] eqn:Hp; [|done].
    apply onePass_steps in Hp as [Hrtc Hpass].
    destruct (progressMade st1).
    + intros [Hrtc' Hpass']%IH. split; [by etrans|lia].
    + intros [= <-]. split; [done|lia].
Qed.

Lemma steps_invariant (P : list Task → gset string → Prop) x y :
  (∀ ts done ts' done', P ts done → step (ts, done) (ts', done') →
                        P ts' done') →
  rtc step x y → P x.1 x.2 → P y.1 y.2.
Proof.
  intros Hkeep Hrtc. induction Hrtc as [x|[ts dn] [ts1 dn1] z Hs _ IH];
    [done|].
  intros H0. apply IH. simpl in *. by eapply Hkeep.
Qed.

(** A property of the tasks and the processed ids that every placement
    keeps holds at the end of the loop. *)
Lemma scheduleLoop_invariant (P : list Task → gset string → Prop)
    remaining st st' :
  (∀ ts done ts' done', P ts done → step (ts, done) (ts', done') →
                        P ts' done') →
  P (objects st) (processed st) →
  scheduleLoop holidayIn fuel startDate countries tasksById remaining st
    = Some st' →
  P (objects st') (processed st').
Proof.
  intros Hkeep H0 [Hrtc _]%scheduleLoop_steps.
  by apply (steps_invariant P _ _ Hkeep Hrtc).
Qed.

(** *** What the loop over the predecessors establishes *)

Lemma predecessorsEnd_spec ts done preds : ∀ m0 m,
  predecessorsEnd tasksById ts done preds m0 = Some m →
  (m0 ≤ m)%Z
  ∧ ∀ predId j, predId ∈ preds → tasksById !! predId = Some j →
      ∃ tp e, ts !! j = Some tp ∧ Task.computedEnd tp = Some e
              ∧ Task.id tp ∈ done ∧ (e ≤ m)%Z.
Proof.
  induction preds as [|predId rest IH]; intros m0 m; simpl.
  - intros [= <-]. split; [lia|]. intros ? ? []%elem_of_nil.
  - destruct (tasksById !! predId) as [j|] eqn:Hj.
    + destruct (ts !! j) as [tp|] eqn:Htp; [|done].
      destruct (Task.computedEnd tp) as [e|] eqn:He; [|done].
      case_decide as Hd; [|done].
      intros [Hle Hall]%IH. split; [destruct (m0 <? e)%Z eqn:E; lia|].
      intros predId' j' [->|Hin]%elem_of_cons Hj'; [|eauto].
      rewrite Hj in Hj'. injection Hj' as <-. exists tp, e.
      repeat split; try done. destruct (m0 <? e)%Z eqn:E; lia.
    + intros [Hle Hall]%IH. split; [done|].
      intros predId' j' [->|Hin]%elem_of_cons Hj'; [congruence|eauto].
Qed.

Lemma applyOffset_ge m t : lagOnly t → (m ≤ applyOffset m (Task.manualStartOffset t))%Z.
Proof.
  unfold lagOnly, applyOffset, addDays, msPerDay.
  destruct (Task.manualStartOffset t) as [n|]; [|lia].
  intros Hn. destruct (n =? 0)%Z; lia.
Qed.

Lemma placeTask_spec task maxPredEnd start end_ :
  placeTask holidayIn fuel countries task maxPredEnd = Some (start, end_) →
  nonWorking holidayIn start countries = false
  ∧ (lagOnly task → (maxPredEnd ≤ start)%Z)
  ∧ (if Qis_zero (Task.durationWeeks task) then end_ = start
     else addWorkingDays holidayIn fuel
            (Qfloor (Task.durationWeeks task * 5)) start countries
          = Some end_).
Proof.
  unfold placeTask.
  destruct (rollForward _ _ _ _) as [s|] eqn:Hr; [|done]. simpl.
  destruct (Qis_zero (Task.durationWeeks task)); simpl.
  - intros [= <- <-]. split; [by eapply rollForward_working|]. split; [|done].
    intros Hlag. apply rollForward_ge in Hr.
    pose proof (applyOffset_ge maxPredEnd task Hlag). lia.
  - destruct (addWorkingDays _ _ _ _ _) as [e|] eqn:Ha; [|done]. simpl.
    intros [= <- <-]. split; [by eapply rollForward_working|]. split; [|done].
    intros Hlag. apply rollForward_ge in Hr.
    pose proof (applyOffset_ge maxPredEnd task Hlag). lia.
Qed.

End SchedulerFacts.

(** ** Consistency of the scheduler state *)

Section Consistency.

Context (holidayIn : HolidayOracle) (fuel : nat).
Context (startDate : Date) (countries : list string).

Lemma consistent_init ts :
  consistent holidayIn fuel countries (resetComputed ts) (resetComputed ts) ∅.
Proof.
  assert (∀ i t, resetComputed ts !! i = Some t →
            Task.computedStart t = None ∧ Task.computedEnd t = None) as Hnone.
  { intros i t. rewrite resetComputed_lookup.
    destruct (ts !! i); intros [= <-]; done. }
  split.
  - apply resetComputed_idemp.
  - intros i t [Hs He]%Hnone. unfold wellPlaced. by rewrite Hs, He.
  - intros i t [_ He]%Hnone [e He']. congruence.
  - intros i j ti tj [_ He]%Hnone _ [e He']. congruence.
  - intros i t s predId j [Hs _]%Hnone. congruence.
Qed.

Lemma consistent_step ts0 ts dn ts' dn' :
  consistent holidayIn fuel countries ts0 ts dn →
  placeStep holidayIn fuel startDate countries (indexTasks 0 ts0 ∅)
    (ts, dn) (ts', dn') →
  consistent holidayIn fuel countries ts0 ts' dn'.
Proof.
  intros [Hstatic Hplaced Hdone Huniq Hpreds] Hstep.
  inversion Hstep as [? ? i task maxPredEnd start end_ Hi Hfresh Hpe Hpl];
    subst.
  pose proof (lookup_lt_Some _ _ _ Hi) as Hlt.
  apply placeTask_spec in Hpl as (Hwork & Hge & Hend).
  apply predecessorsEnd_spec in Hpe as [Hm Hready].
  set (task' := Task.setComputed task (Task.serialNumber task)
                  (Some start) (Some end_)).
  assert (∀ j t, <[i:=task']> ts !! j = Some t →
            (j = i ∧ t = task') ∨ (j ≠ i ∧ ts !! j = Some t)) as Hcases.
  { intros j t. destruct (decide (j = i)) as [->|Hne].
    - rewrite list_lookup_insert_eq by done. intros [= <-]. by left.
    - rewrite list_lookup_insert_ne by done. by right. }
  assert (∀ j t, ts !! j = Some t → is_Some (Task.computedEnd t) → j ≠ i)
    as Hother.
  { intros j t Hj He ->. rewrite Hi in Hj. injection Hj as <-.
    apply Hfresh. by eapply Hdone. }
  split.
  - by apply resetComputed_insert.
  - intros j t [[-> ->]|[Hne Hj]]%Hcases; [|by eapply Hplaced].
    unfold wellPlaced. simpl. done.
  - intros j t [[-> ->]|[Hne Hj]]%Hcases He; [set_solver|].
    apply elem_of_union_r. by eapply Hdone.
  - intros j1 j2 t1 t2 [[-> ->]|[Hne1 Hj1]]%Hcases
      [[-> ->]|[Hne2 Hj2]]%Hcases He1 He2 Hid; [done| | |by eapply Huniq].
    + destruct Hfresh. simpl in Hid. rewrite Hid. by eapply Hdone.
    + destruct Hfresh. simpl in Hid. rewrite <- Hid. by eapply Hdone.
  - intros j t s predId k [[-> ->]|[Hne Hj]]%Hcases Hs Hin Hk.
    + simpl in Hs. injection Hs as <-. simpl in Hin.
      destruct (Hready _ _ Hin Hk) as (tp & e & Htp & He & Hd & Hle).
      exists tp, e. split.
      * rewrite list_lookup_insert_ne; [done|].
        intros <-. rewrite Hi in Htp. injection Htp as <-. done.
      * split; [done|]. intros Hlag. specialize (Hge Hlag). lia.
    + destruct (Hpreds _ _ _ _ _ Hj Hs Hin Hk) as (tp & e & Htp & He & Hle).
      exists tp, e. split; [|done].
      rewrite list_lookup_insert_ne; [done|].
      intros <-. by eapply (Hother i tp).
Qed.

Lemma scheduleLoop_consistent ts0 remaining st st' :
  consistent holidayIn fuel countries ts0 (objects st) (processed st) →
  scheduleLoop holidayIn fuel startDate countries (indexTasks 0 ts0 ∅)
    remaining st = Some st' →
  consistent holidayIn fuel countries ts0 (objects st') (processed st').
Proof.
  intros H0. apply scheduleLoop_invariant; [|done].
  intros ts dn ts' dn'. apply consistent_step.
Qed.

End Consistency.

Lemma runSchedule_consistent holidayIn fuel p st :
  runSchedule holidayIn fuel p = Some st →
  consistent holidayIn fuel (Project.country p)
    (resetComputed (Project.tasks p)) (objects st) (processed st).
Proof.
  unfold runSchedule. apply scheduleLoop_consistent. simpl.
  apply consistent_init.
Qed.

Lemma calculateSchedule_run holidayIn fuel p p' :
  calculateSchedule holidayIn fuel p = Some p' →
  ∃ st, runSchedule holidayIn fuel p = Some st
        ∧ p' = Project.setTasks p (objects st).
Proof.
  unfold calculateSchedule.
  destruct (runSchedule holidayIn fuel p) as [st|]; [|done].
  simpl. intros [= <-]. eauto.
Qed.

(** The scheduler writes the computed fields only. *)
Lemma calculateSchedule_static holidayIn fuel p p' :
  calculateSchedule holidayIn fuel p = Some p' →
  Project.name p' = Project.name p
  ∧ Project.startDate p' = Project.startDate p
  ∧ Project.country p' = Project.country p
  ∧ Project.vddEnabled p' = Project.vddEnabled p
  ∧ resetComputed (Project.tasks p') = resetComputed (Project.tasks p).
Proof.
  intros (st & Hrun & ->)%calculateSchedule_run. simpl.
  repeat split. by destruct (runSchedule_consistent _ _ _ _ Hrun).
Qed.

Lemma calculateSchedule_lookup holidayIn fuel p p' i t :
  calculateSchedule holidayIn fuel p = Some p' →
  Project.tasks p !! i = Some t →
  ∃ t', Project.tasks p' !! i = Some t' ∧ static t' = static t.
Proof.
  intros (_ & _ & _ & _ & Hs)%calculateSchedule_static Hi.
  by eapply resetComputed_eq_static.
Qed.

Lemma nonWorking_businessDay holidayIn countries d :
  nonWorking holidayIn d countries = false ↔ businessDay holidayIn countries d.
Proof.
  unfold nonWorking, businessDay, isHoliday.
  rewrite orb_false_iff. apply and_iff_compat_l.
  induction countries as [|c cs IH]; simpl.
  - split; [intros _ ? []%elem_of_nil|done].
  - rewrite orb_false_iff, IH. split.
    + intros [Hc Hcs] code [->|Hin]%elem_of_cons; eauto.
    + intros H. split; [apply H; left|intros code Hin; apply H; by right].
  Qed.

Lemma wellPlaced_cases holidayIn fuel countries t :
  wellPlaced holidayIn fuel countries t → scheduled t ∨ unscheduled t.
Proof.
  unfold wellPlaced, scheduled, unscheduled.
  destruct (Task.computedStart t), (Task.computedEnd t); try done.
  - intros _. left. eauto.
  - intros _. by right.
Qed.



(** ** The scheduler: claims *)

(** C7. After a scheduling run, the [computedStart] of a task, when it is
    set, is a business day: not a Saturday or a Sunday, and not a holiday
    in any jurisdiction of the project. *)
Theorem computedStart_is_business_day holidayIn fuel p p' i t s :
  calculateSchedule holidayIn fuel p = Some p' →
  Project.tasks p' !! i = Some t →
  Task.computedStart t = Some s →
  businessDay holidayIn (Project.country p) s.
Proof.
  intros (st & Hrun & ->)%calculateSchedule_run Hi Hs. simpl in Hi.
  destruct (runSchedule_consistent _ _ _ _ Hrun) as [_ Hplaced _ _ _].
  specialize (Hplaced _ _ Hi). unfold wellPlaced in Hplaced.
  rewrite Hs in Hplaced. destruct (Task.computedEnd t); [|done].
  apply nonWorking_businessDay. tauto.
Qed.

(** C10. After a scheduling run, the [computedEnd] of a task, when it is
    set, is a business day as well, whatever the duration of the task. *)
Theorem computedEnd_is_business_day holidayIn fuel p p' i t e :
  calculateSchedule holidayIn fuel p = Some p' →
  Project.tasks p' !! i = Some t →
  Task.computedEnd t = Some e →
  businessDay holidayIn (Project.country p) e.
Proof.
  intros (st & Hrun & ->)%calculateSchedule_run Hi He. simpl in Hi.
  destruct (runSchedule_consistent _ _ _ _ Hrun) as [_ Hplaced _ _ _].
  specialize (Hplaced _ _ Hi). unfold wellPlaced in Hplaced.
  rewrite He in Hplaced. destruct (Task.computedStart t) as [s|]; [|done].
  destruct Hplaced as [Hw Hend]. apply nonWorking_businessDay.
  destruct (Qis_zero (Task.durationWeeks t)); [by subst|].
  by eapply addWorkingDays_working.
Qed.


Lemma indexTasks_ids ts : ∀ ts' i m,
  Task.id <$> ts = Task.id <$> ts' → indexTasks i ts m = indexTasks i ts' m.
Proof.
  induction ts as [|t ts IH]; intros [|t' ts'] i m; simpl; try done.
  intros [= Hid Hrest]. rewrite Hid. by apply IH.
Qed.

Lemma resetComputed_ids ts : Task.id <$> resetComputed ts = Task.id <$> ts.
Proof.
  apply list_eq; intros i. rewrite !list_lookup_fmap, resetComputed_lookup.
  by destruct (ts !! i).
Qed.

Lemma indexTasks_resetComputed ts ts0 :
  resetComputed ts = ts0 → indexTasks 0 ts0 ∅ = indexTasks 0 ts ∅.
Proof. intros <-. apply indexTasks_ids, resetComputed_ids. Qed.


(** ** Termination of the scheduler *)

Section Termination.

Context (holidayIn : HolidayOracle) (fuel gap : nat).
Context (startDate : Date) (countries : list string).
Context (tasksById : gmap string nat).
Hypothesis Hrec : recurring holidayIn countries gap.
Hypothesis Hgap : gap ≤ fuel.

Local Abbreviation allAffordable ts :=
  (∀ i t, (ts : list Task) !! i = Some t →
          affordable gap fuel t ∧ countsDown t).

Lemma placeTask_total task maxPredEnd :
  affordable gap fuel task ∧ countsDown task →
  is_Some (placeTask holidayIn fuel countries task maxPredEnd).
Proof.
  intros [Hfuel Hdown].
  destruct (rollForward_total holidayIn countries gap fuel
              (applyOffset maxPredEnd (Task.manualStartOffset task))
              Hrec Hgap) as [s Hs].
  assert (is_Some (if Qis_zero (Task.durationWeeks task) then Some s
                   else addWorkingDays holidayIn fuel
                          (Qfloor (Task.durationWeeks task * 5)) s countries))
    as [e He].
  { destruct (Qis_zero (Task.durationWeeks task)); [eauto|].
    destruct (Z_le_gt_dec (Qfloor (Task.durationWeeks task * 5)) 0)
      as [Hle|Hgt].
    - rewrite addWorkingDays_done by done. eauto.
    - destruct (addWorkingDays_total holidayIn countries gap
                  (Z.to_nat (Qfloor (Task.durationWeeks task * 5))) fuel s
                  Hrec Hfuel) as [e He].
      { unfold countsDown in Hdown. lia. }
      rewrite Z2Nat.id in He by lia. eauto. }
  exists (s, e). unfold placeTask.
  apply bind_Some. exists s. split; [done|].
  apply bind_Some. exists e. split; done.
Qed.

Lemma step_affordable ts dn ts' dn' :
  allAffordable ts →
  placeStep holidayIn fuel startDate countries tasksById (ts, dn) (ts', dn') →
  allAffordable ts'.
Proof.
  intros Hall Hstep.
  inversion Hstep as [? ? i task maxPredEnd start end_ Hi _ _ _]; subst.
  intros j t. destruct (decide (j = i)) as [->|Hne].
  - rewrite list_lookup_insert_eq by (by eapply lookup_lt_Some).
    intros [= <-]. apply (Hall _ _ Hi).
  - rewrite list_lookup_insert_ne by done. apply Hall.
Qed.

Lemma visitTask_total st i :
  allAffordable (objects st) →
  is_Some (visitTask holidayIn fuel startDate countries tasksById st i).
Proof.
  intros Hall. unfold visitTask.
  destruct (objects st !! i) as [task|] eqn:Hi; [|eauto].
  case_decide; [eauto|].
  destruct (predecessorsEnd _ _ _ _ _) as [maxPredEnd|]; [|eauto].
  destruct (placeTask_total task maxPredEnd (Hall _ _ Hi)) as [[s e] ->].
  simpl. eauto.
Qed.

Lemma forEachSlot_total slots : ∀ st,
  allAffordable (objects st) →
  is_Some (forEachSlot
             (visitTask holidayIn fuel startDate countries tasksById)
             slots st).
Proof.
  induction slots as [|i slots IH]; intros st Hall; simpl; [eauto|].
  destruct (visitTask_total st i Hall) as [st1 Hv]. rewrite Hv.
  apply IH.
  apply visitTask_step in Hv as [->|(Hs & _)]; [done|].
  by eapply step_affordable.
Qed.

Lemma scheduleLoop_total remaining : ∀ st,
  allAffordable (objects st) →
  is_Some (scheduleLoop holidayIn fuel startDate countries tasksById
             remaining st).
Proof.
  induction remaining as [|r IH]; intros st Hall; simpl;
    (case_decide; [|eauto]); [eauto|].
  destruct (forEachSlot_total (seq 0 (length (objects st)))
              (mkSched (objects st) (processed st) false (S (passes st)))
              Hall) as [st1 Hp].
  unfold onePass. rewrite Hp.
  destruct (progressMade st1); [|eauto]. apply IH.
  apply forEachSlot_steps in Hp as (Hrtc & _).
  apply (steps_invariant holidayIn fuel startDate countries tasksById
           (λ ts _, allAffordable ts) _ _ step_affordable Hrtc).
  done.
Qed.

End Termination.

Lemma taskById_run ts0 ts predId :
  resetComputed ts = ts0 →
  taskById ts predId = indexTasks 0 ts0 ∅ !! predId ≫= λ j, ts !! j.
Proof. intros H. unfold taskById. by rewrite (indexTasks_resetComputed _ _ H). Qed.

(** C4, as amended. When, for every task, [floor(durationWeeks × 5)] is
    at most 2^53 (and working days come back within [gap] days, and the fuel
    covers the longest task), [calculateSchedule] returns: it runs the loop
    over the tasks at most [3 × N] times, every task ends with both computed
    dates or with none, and a task one of whose predecessors (as found in
    [tasksById]) never got a computed end has no computed date. *)
Theorem calculateSchedule_terminates holidayIn fuel gap p :
  recurring holidayIn (Project.country p) gap →
  gap ≤ fuel →
  (∀ t, t ∈ Project.tasks p → affordable gap fuel t) →
  (∀ t, t ∈ Project.tasks p → countsDown t) →
  ∃ st,
    runSchedule holidayIn fuel p = Some st
    ∧ calculateSchedule holidayIn fuel p
      = Some (Project.setTasks p (objects st))
    ∧ passes st ≤ 3 * length (Project.tasks p)
    ∧ length (objects st) = length (Project.tasks p)
    ∧ (∀ i t, objects st !! i = Some t → scheduled t ∨ unscheduled t)
    ∧ (∀ i t predId tp,
         objects st !! i = Some t →
         predId ∈ Task.predecessors t →
         taskById (objects st) predId = Some tp →
         Task.computedEnd tp = None →
         unscheduled t).
Proof.
  intros Hrec Hgap Hfuel Hdown.
  destruct (scheduleLoop_total holidayIn fuel gap (Project.startDate p)
              (Project.country p)
              (indexTasks 0 (resetComputed (Project.tasks p)) ∅) Hrec Hgap
              (maxIterations (resetComputed (Project.tasks p)))
              (mkSched (resetComputed (Project.tasks p)) ∅ false 0))
    as [st Hrun].
  { simpl. intros i t. rewrite resetComputed_lookup.
    destruct (Project.tasks p !! i) as [t0|] eqn:Hi; [|done].
    intros [= <-].
    split; [apply (Hfuel t0)|apply (Hdown t0)];
      by eapply list_elem_of_lookup_2. }
  change (runSchedule holidayIn fuel p = Some st) in Hrun.
  exists st. split; [done|]. split; [unfold calculateSchedule; by rewrite Hrun|].
  pose proof (runSchedule_consistent _ _ _ _ Hrun)
    as [Hstatic Hplaced _ _ Hpreds].
  split.
  { apply scheduleLoop_steps in Hrun as [_ Hpass]. simpl in Hpass.
    unfold maxIterations in Hpass. rewrite length_resetComputed in Hpass. lia. }
  split.
  { apply (f_equal length) in Hstatic.
    by rewrite !length_resetComputed in Hstatic. }
  split.
  { intros i t Hi. eapply wellPlaced_cases, Hplaced, Hi. }
  intros i t predId tp Hi Hin Htp Hnone.
  rewrite (taskById_run _ _ _ Hstatic) in Htp.
  destruct (indexTasks 0 (resetComputed (Project.tasks p)) ∅ !! predId)
    as [j|] eqn:Hj; [|done].
  simpl in Htp.
  destruct (wellPlaced_cases _ _ _ _ (Hplaced _ _ Hi)) as [[[s Hs] _]|Hun];
    [|done].
  destruct (Hpreds _ _ _ _ _ Hi Hs Hin Hj) as (tp' & e & Htp' & He & _).
  congruence.
Qed.

(** ** The injector *)

Lemma existsb_isSentinel ts :
  existsb isSentinel ts = true ↔ ∃ i t, ts !! i = Some t ∧ Task.id t = "VDD.1".
Proof.
  rewrite existsb_exists. split.
  - intros (t & Hin & Hs). apply list_elem_of_In, list_elem_of_lookup in Hin as [i Hi].
    exists i, t. split; [done|]. by apply String.eqb_eq.
  - intros (i & t & Hi & Hid). exists t. split.
    + apply list_elem_of_In. by eapply list_elem_of_lookup_2.
    + by apply String.eqb_eq.
Qed.

(** The shortening keeps every slot, its id and its predecessors, and
    leaves a task alone unless its name has the marker. *)
Lemma shortenPhase3_lookup ts i t :
  ts !! i = Some t →
  ∃ t', shortenPhase3 ts !! i = Some t'
        ∧ Task.id t' = Task.id t
        ∧ Task.predecessors t' = Task.predecessors t
        ∧ (isConfirmatoryDD t = false → t' = t).
Proof.
  intros Hi. unfold shortenPhase3.
  destruct (list_find _ ts) as [[k p3Task]|] eqn:Hf; [|by exists t].
  apply list_find_Some in Hf as (Hk & Hm & _).
  destruct (Qgtb (Task.durationWeeks p3Task) 3); [|by exists t].
  destruct (decide (i = k)) as [->|Hne].
  - rewrite list_lookup_insert_eq by (by eapply lookup_lt_Some).
    rewrite Hi in Hk. injection Hk as <-.
    eexists. split; [done|]. simpl. repeat split. congruence.
  - rewrite list_lookup_insert_ne by done. by exists t.
Qed.

Lemma length_shortenPhase3 ts : length (shortenPhase3 ts) = length ts.
Proof.
  unfold shortenPhase3. destruct (list_find _ ts) as [[k p3Task]|]; [|done].
  destruct (Qgtb _ _); [|done]. by rewrite length_insert.
Qed.

Lemma insertIdx_spec ts :
  (insertIdx ts = 0 ∧ ∀ i t, ts !! i = Some t → isKickoff t = false)
  ∨ (∃ i kick, insertIdx ts = i + 1 ∧ ts !! i = Some kick
       ∧ isKickoff kick = true
       ∧ ∀ j t, j < i → ts !! j = Some t → isKickoff t = false).
Proof.
  unfold insertIdx.
  destruct (list_find _ ts) as [[i kick]|] eqn:Hf.
  - apply list_find_Some in Hf as (Hi & Hk & Hfirst). right.
    exists i, kick. repeat split; try done.
    intros j t Hj Ht. specialize (Hfirst _ _ Ht Hj).
    by destruct (isKickoff t).
  - left. split; [done|]. intros i t Hi.
    rewrite list_find_None, Forall_forall in Hf.
    specialize (Hf t (list_elem_of_lookup_2 _ _ _ Hi)).
    by destruct (isKickoff t).
Qed.

Lemma insertIdx_le ts : insertIdx ts ≤ length ts.
Proof.
  destruct (insertIdx_spec ts) as [[-> _]|(i & kick & -> & Hi & _)]; [lia|].
  apply lookup_lt_Some in Hi. lia.
Qed.

Lemma splice_lookup_items {A} k (items l : list A) n :
  k ≤ length l → n < length items →
  splice k items l !! (k + n) = items !! n.
Proof.
  intros Hk Hn. unfold splice.
  rewrite lookup_app_r by (rewrite length_take; lia).
  rewrite length_take, Nat.min_l by done.
  rewrite lookup_app_l by lia. f_equal. lia.
Qed.

Lemma splice_lookup_old {A} k (items l : list A) i :
  k ≤ length l →
  splice k items l !! (if decide (i < k) then i else i + length items) = l !! i.
Proof.
  intros Hk. unfold splice. case_decide as Hik.
  - rewrite lookup_app_l by (rewrite length_take; lia).
    by rewrite lookup_take_lt.
  - rewrite lookup_app_r by (rewrite length_take; lia).
    rewrite length_take, Nat.min_l by done.
    rewrite lookup_app_r by lia. rewrite lookup_drop. f_equal. lia.
Qed.

Lemma length_splice {A} k (items l : list A) :
  length (splice k items l) = length l + length items.
Proof.
  unfold splice. rewrite !length_app, length_take, length_drop. lia.
Qed.

Lemma injectVddTasks_tasks p :
  Project.vddEnabled p = true →
  existsb isSentinel (Project.tasks p) = false →
  Project.tasks (injectVddTasks p)
  = shortenPhase3
      (splice (insertIdx (Project.tasks p)) vddTasks (Project.tasks p)).
Proof. intros Hv Hs. unfold injectVddTasks. by rewrite Hv, Hs. Qed.

Lemma injectVddTasks_block p n :
  Project.vddEnabled p = true →
  existsb isSentinel (Project.tasks p) = false →
  n < 4 →
  Project.tasks (injectVddTasks p) !! (insertIdx (Project.tasks p) + n)
  = vddTasks !! n.
Proof.
  intros Hv Hs Hn. rewrite injectVddTasks_tasks by done.
  pose proof (splice_lookup_items (insertIdx (Project.tasks p)) vddTasks
                (Project.tasks p) n (insertIdx_le _) Hn) as Hl.
  destruct (vddTasks !! n) as [v|] eqn:Hvn;
    [|apply lookup_ge_None in Hvn; simpl in Hvn; lia].
  destruct (shortenPhase3_lookup _ _ _ Hl) as (t' & Ht' & _ & _ & Hsame).
  rewrite Ht'. f_equal. apply Hsame.
  do 4 (destruct n as [|n]; [by injection Hvn as <-|]). simpl in Hvn. done.
Qed.

(** C3, as amended. When the injector injects, the four VDD tasks are
    placed right after the first task of the list whose id is one of the
    three kickoff ids, or at position 0 when there is none; the entry task
    depends on that kickoff task when its id is T1.1; every other task
    keeps its id and its predecessors, in the same order. *)
Theorem injectVddTasks_inserts p :
  Project.vddEnabled p = true →
  existsb isSentinel (Project.tasks p) = false →
  let ts := Project.tasks p in
  let ts' := Project.tasks (injectVddTasks p) in
  let k := insertIdx ts in
  ((k = 0 ∧ ∀ i t, ts !! i = Some t → isKickoff t = false)
   ∨ (∃ i kick, k = i + 1 ∧ ts !! i = Some kick ∧ isKickoff kick = true
        ∧ (∀ j t, j < i → ts !! j = Some t → isKickoff t = false)
        ∧ (Task.id kick = "T1.1" →
           ∃ entry, ts' !! k = Some entry
                    ∧ Task.id kick ∈ Task.predecessors entry)))
  ∧ (∀ n, n < 4 → ts' !! (k + n) = vddTasks !! n)
  ∧ length ts' = length ts + 4
  ∧ (∀ i t, ts !! i = Some t →
       ∃ t', ts' !! (if decide (i < k) then i else i + 4) = Some t'
             ∧ Task.id t' = Task.id t
             ∧ Task.predecessors t' = Task.predecessors t).
Proof.
  intros Hv Hs. simpl.
  pose proof (insertIdx_le (Project.tasks p)) as Hk.
  split; [|split; [intros n Hn; by apply injectVddTasks_block|split]].
  - destruct (insertIdx_spec (Project.tasks p))
      as [H0|(i & kick & Hki & Hi & Hkick & Hfirst)]; [by left|right].
    exists i, kick. repeat split; try done.
    intros Hid. exists (Task.mk "VDD.1"
      "Selection of VDD Advisors (Financial, Legal, Tax)"
      "Phase 1: Preparation" 2 2 1 ["T1.1"] KeyDecision None None None None).
    split.
    + pose proof (injectVddTasks_block p 0 Hv Hs ltac:(lia)) as H0.
      by rewrite Nat.add_0_r in H0.
    + rewrite Hid. simpl. set_solver.
  - rewrite injectVddTasks_tasks by done.
    by rewrite length_shortenPhase3, length_splice.
  - intros i t Hi. rewrite injectVddTasks_tasks by done.
    pose proof (splice_lookup_old (insertIdx (Project.tasks p)) vddTasks
                  (Project.tasks p) i Hk) as Hl.
    rewrite Hi in Hl. simpl in Hl.
    destruct (shortenPhase3_lookup _ _ _ Hl) as (t' & Ht' & Hid & Hp & _).
    eauto.
Qed.

(** C9. The injector returns the project unchanged when [vddEnabled] is
    false and when a task with the id VDD.1 is present; therefore a second
    call changes nothing. *)
Theorem injectVddTasks_idempotent p :
  (Project.vddEnabled p = false → injectVddTasks p = p)
  ∧ (existsb isSentinel (Project.tasks p) = true → injectVddTasks p = p)
  ∧ injectVddTasks (injectVddTasks p) = injectVddTasks p.
Proof.
  assert (Project.vddEnabled p = false → injectVddTasks p = p) as Hoff.
  { intros Hv. unfold injectVddTasks. by rewrite Hv. }
  assert (∀ q, existsb isSentinel (Project.tasks q) = true →
               injectVddTasks q = q) as Hsent.
  { intros q Hs. unfold injectVddTasks. rewrite Hs. by destruct (negb _). }
  split; [done|]. split; [apply Hsent|].
  destruct (Project.vddEnabled p) eqn:Hv; [|by rewrite !Hoff].
  destruct (existsb isSentinel (Project.tasks p)) eqn:Hs;
    [by rewrite !(Hsent p Hs)|].
  apply Hsent. apply existsb_isSentinel.
  pose proof (injectVddTasks_block p 0 Hv Hs ltac:(lia)) as H0.
  simpl in H0. eexists _, _. split; [exact H0|done].
Qed.

(** ** The compression engine *)

Lemma static_transfer {A} (f : Task → A) xs ys :
  resetComputed ys = resetComputed xs →
  (∀ t t', static t' = static t → f t' = f t) →
  f <$> ys = f <$> xs.
Proof.
  intros Heq Hf. apply list_eq; intros i. rewrite !list_lookup_fmap.
  destruct (xs !! i) as [t|] eqn:Hx.
  - symmetry in Heq.
    destruct (resetComputed_eq_static _ _ _ _ Heq Hx) as (t' & -> & Hst).
    simpl. f_equal. by apply Hf.
  - apply lookup_ge_None in Hx.
    apply (f_equal length) in Heq. rewrite !length_resetComputed in Heq.
    rewrite (proj2 (lookup_ge_None ys i)); [done|lia].
Qed.

Lemma static_Forall (P : Task → Prop) xs ys :
  resetComputed ys = resetComputed xs →
  (∀ t t', static t' = static t → P t → P t') →
  Forall P xs → Forall P ys.
Proof.
  intros Heq HP. rewrite !Forall_lookup. intros Hall i t' Hy.
  destruct (resetComputed_eq_static _ _ _ _ Heq Hy) as (t & Hx & Hst).
  apply (HP t t'); [done|]. by eapply Hall.
Qed.

Lemma core_static t t' : static t' = static t → core t' = core t.
Proof.
  destruct t, t'. unfold static, core, resetOne. simpl. intros [=]. subst.
  by destruct (Qpositive _).
Qed.

Lemma baselineKept_static t t' :
  static t' = static t → baselineKept t → baselineKept t'.
Proof.
  intros (_ & _ & _ & Hd & Ho & _)%static_fields. unfold baselineKept.
  by rewrite Hd, Ho.
Qed.

Lemma core_resetOne t : core (resetOne t) = core t.
Proof.
  unfold core, resetOne.
  destruct (Qpositive (Task.originalDurationWeeks t)) eqn:E; simpl;
    by rewrite E.
Qed.

Lemma baselineKept_resetOne t : baselineKept t → baselineKept (resetOne t).
Proof.
  unfold baselineKept, resetOne.
  destruct (Qpositive (Task.originalDurationWeeks t)) eqn:E; simpl; [|auto].
  congruence.
Qed.

Lemma core_scaleOne b r t : baselineKept t → core (scaleOne b r t) = core t.
Proof.
  unfold baselineKept, core, scaleOne, resetOne. intros Hk.
  destruct (b t && Qpositive (Task.durationWeeks t)) eqn:E; [|done].
  apply andb_true_iff in E as [_ Hd]. simpl.
  destruct (Qpositive (Task.originalDurationWeeks t)) eqn:Ho; [done|].
  rewrite Hk in Hd; done.
Qed.

Lemma baselineKept_scaleOne b r t :
  baselineKept t → baselineKept (scaleOne b r t).
Proof.
  unfold baselineKept, scaleOne. intros Hk.
  destruct (b t && Qpositive (Task.durationWeeks t)) eqn:E; [|done].
  apply andb_true_iff in E as [_ Hd]. simpl. intros Ho.
  rewrite Hk in Hd; done.
Qed.

(** The scheduler reads the project through [sameInputs]. *)
Lemma calculateSchedule_ext holidayIn fuel x y :
  sameInputs x y →
  calculateSchedule holidayIn fuel x = calculateSchedule holidayIn fuel y.
Proof.
  intros (Hn & Hs & Hc & Hv & Ht).
  unfold calculateSchedule, runSchedule. rewrite Hs, Hc, Ht.
  destruct (scheduleLoop _ _ _ _ _ _ _) as [st|]; [|done]. simpl.
  unfold Project.setTasks. by rewrite Hn, Hs, Hc, Hv.
Qed.

Lemma compressBlock1_ext holidayIn fuel x y m :
  sameInputs x y →
  compressBlock1 holidayIn fuel x m = compressBlock1 holidayIn fuel y m.
Proof.
  intros Hxy. pose proof (calculateSchedule_ext holidayIn fuel x y Hxy) as Hc.
  destruct Hxy as (_ & Hs & Hco & _).
  unfold compressBlock1, block1Days. by rewrite Hc, Hs, Hco.
Qed.

Lemma compressBlock2_ext holidayIn fuel x y s :
  sameInputs x y →
  compressBlock2 holidayIn fuel x s = compressBlock2 holidayIn fuel y s.
Proof.
  intros Hxy. pose proof (calculateSchedule_ext holidayIn fuel x y Hxy) as Hc.
  destruct Hxy as (_ & Hs & Hco & _).
  unfold compressBlock2, block2Days. by rewrite Hc, Hco.
Qed.

Lemma compressSchedule_ext holidayIn fuel x y m s :
  sameInputs (resetProject x) (resetProject y) →
  compressSchedule holidayIn fuel x m s = compressSchedule holidayIn fuel y m s.
Proof.
  intros Hxy. unfold compressSchedule.
  destruct m as [m|], s as [s|]; simpl.
  - by rewrite (compressBlock1_ext _ _ _ _ m Hxy).
  - by rewrite (compressBlock1_ext _ _ _ _ m Hxy).
  - by rewrite (compressBlock2_ext _ _ _ _ s Hxy).
  - by apply calculateSchedule_ext.
Qed.

(** *** What a compression run keeps *)

Lemma kept_reset p :
  Forall baselineKept (Project.tasks p) → kept p (resetProject p).
Proof.
  intros Hall. unfold kept, resetProject, resetDurations. simpl.
  repeat split.
  - rewrite <- list_fmap_compose. apply list_fmap_ext.
    intros i t _. apply core_resetOne.
  - apply Forall_fmap. eapply Forall_impl; [done|].
    intros t. apply baselineKept_resetOne.
Qed.

Lemma kept_calculateSchedule holidayIn fuel p x y :
  kept p x → calculateSchedule holidayIn fuel x = Some y → kept p y.
Proof.
  intros (Hn & Hs & Hc & Hv & Hcore & Hall)
    (Hn' & Hs' & Hc' & Hv' & Ht)%calculateSchedule_static.
  unfold kept. repeat split; try congruence.
  - rewrite <- Hcore. apply static_transfer; [done|]. apply core_static.
  - eapply static_Forall; [| |done]; [done|]. apply baselineKept_static.
Qed.

Lemma kept_applyRatio p b a sd x : kept p x → kept p (applyRatio b a sd x).
Proof.
  intros Hk. unfold applyRatio. destruct (_ && _); [|done].
  destruct Hk as (Hn & Hs & Hc & Hv & Hcore & Hall).
  unfold kept, scaleBlock. simpl. repeat split; try done.
  - rewrite <- Hcore, <- list_fmap_compose. apply list_fmap_ext.
    intros i t Hi. apply core_scaleOne.
    rewrite Forall_lookup in Hall. by eapply Hall.
  - apply Forall_fmap. eapply Forall_impl; [done|].
    intros t. apply baselineKept_scaleOne.
Qed.

Lemma compressBlock1_Some holidayIn fuel x m y :
  compressBlock1 holidayIn fuel x m = Some y →
  ∃ tp a sd, block1Days holidayIn fuel x m = Some (tp, a, sd)
             ∧ calculateSchedule holidayIn fuel x = Some tp
             ∧ y = applyRatio inBlock1 a sd tp.
Proof.
  unfold compressBlock1. intros ([[tp a] sd] & Hd & [= <-])%bind_Some.
  exists tp, a, sd. split; [done|]. split; [|done].
  unfold block1Days in Hd.
  apply bind_Some in Hd as (a' & _ & Hd).
  apply bind_Some in Hd as (tp' & Hc & Hd).
  apply bind_Some in Hd as (sd' & _ & Hd). congruence.
Qed.

Lemma compressBlock2_Some holidayIn fuel x s y :
  compressBlock2 holidayIn fuel x s = Some y →
  ∃ tp days, block2Days holidayIn fuel x s = Some (tp, days)
             ∧ calculateSchedule holidayIn fuel x = Some tp
             ∧ y = match days with
                   | Some (a, sd) => applyRatio inBlock2 a sd tp
                   | None => tp
                   end.
Proof.
  unfold compressBlock2. intros ([tp days] & Hd & Hy)%bind_Some.
  exists tp, days. split; [done|]. split.
  - unfold block2Days in Hd. apply bind_Some in Hd as (tp' & Hc & Hd).
    destruct (earliestStart _ _) as [minStart|]; [|congruence].
    destruct (minStart <? s)%Z; [|congruence].
    apply bind_Some in Hd as (a' & _ & Hd).
    apply bind_Some in Hd as (sd' & _ & Hd). congruence.
  - destruct days as [[a sd]|]; congruence.
Qed.

Lemma kept_block1Stage holidayIn fuel p x m y :
  kept p x → block1Stage holidayIn fuel x m = Some y → kept p y.
Proof.
  intros Hk. destruct m as [m|]; simpl; [|by intros [= <-]].
  intros (tp & a & sd & _ & Hc & ->)%compressBlock1_Some.
  apply kept_applyRatio. by eapply kept_calculateSchedule.
Qed.

Lemma kept_block2Stage holidayIn fuel p x s y :
  kept p x → block2Stage holidayIn fuel x s = Some y → kept p y.
Proof.
  intros Hk. destruct s as [s|]; simpl; [|by intros [= <-]].
  intros (tp & days & _ & Hc & ->)%compressBlock2_Some.
  pose proof (kept_calculateSchedule _ _ _ _ _ Hk Hc) as Hk'.
  destruct days as [[a sd]|]; [|done]. by apply kept_applyRatio.
Qed.

Lemma compressSchedule_stages holidayIn fuel p m s q :
  compressSchedule holidayIn fuel p m s = Some q →
  (m = None ∧ s = None
   ∧ calculateSchedule holidayIn fuel (resetProject p) = Some q)
  ∨ (¬ (m = None ∧ s = None) ∧ ∃ p1 p2,
       block1Stage holidayIn fuel (resetProject p) m = Some p1
       ∧ block2Stage holidayIn fuel p1 s = Some p2
       ∧ calculateSchedule holidayIn fuel p2 = Some q).
Proof.
  unfold compressSchedule. intros H.
  assert (block1Stage holidayIn fuel (resetProject p) m
            ≫= (λ p1, block2Stage holidayIn fuel p1 s
                        ≫= calculateSchedule holidayIn fuel) = Some q
          → ∃ p1 p2,
              block1Stage holidayIn fuel (resetProject p) m = Some p1
              ∧ block2Stage holidayIn fuel p1 s = Some p2
              ∧ calculateSchedule holidayIn fuel p2 = Some q) as Hb.
  { intros (p1 & H1 & (p2 & H2 & H3)%bind_Some)%bind_Some. eauto. }
  destruct m as [m|], s as [s|]; [right|right|right|left; done];
    (split; [intros [? ?]; done|]); by apply Hb.
Qed.

Lemma compressSchedule_kept holidayIn fuel p m s q :
  Forall baselineKept (Project.tasks p) →
  compressSchedule holidayIn fuel p m s = Some q → kept p q.
Proof.
  intros Hk%kept_reset
    [(_ & _ & Hc)|(_ & p1 & p2 & H1 & H2 & Hc)]%compressSchedule_stages.
  - by eapply kept_calculateSchedule.
  - eapply kept_calculateSchedule; [|done].
    eapply kept_block2Stage; [|done]. by eapply kept_block1Stage.
Qed.

Lemma kept_sameInputs p q :
  kept p q → sameInputs (resetProject q) (resetProject p).
Proof.
  intros (Hn & Hs & Hc & Hv & Hcore & _). unfold sameInputs. simpl.
  repeat split; try done.
  apply list_eq; intros i. unfold resetDurations.
  rewrite !resetComputed_lookup, !list_lookup_fmap.
  apply (f_equal (λ l, l !! i)) in Hcore. rewrite !list_lookup_fmap in Hcore.
  destruct (Project.tasks q !! i) as [tq|], (Project.tasks p !! i) as [tp|];
    try done.
  assert (core tq = core tp) as Hct by (simpl in Hcore; congruence).
  simpl. f_equal. unfold core in Hct.
  change (Task.setComputed (static (resetOne tq)) (Some (i + 1)) None None
          = Task.setComputed (static (resetOne tp)) (Some (i + 1)) None None).
  by rewrite Hct.
Qed.

(** C2, as amended. [compressSchedule] is idempotent on every project in
    which no task has a positive [durationWeeks] without a positive
    [originalDurationWeeks]: a second call with the same dates returns the
    project that the first call returned, so every task has the same
    [durationWeeks] and [compressionRatio]. *)
Theorem compressSchedule_idempotent holidayIn fuel p m s q :
  (∀ t, t ∈ Project.tasks p → baselineKept t) →
  compressSchedule holidayIn fuel p m s = Some q →
  compressSchedule holidayIn fuel q m s = Some q.
Proof.
  intros Hall%Forall_forall Hq.
  rewrite <- Hq. apply compressSchedule_ext, kept_sameInputs.
  by eapply compressSchedule_kept.
Qed.

(** C5, as amended. Without target dates [compressSchedule] returns the
    schedule of the reset project: a task with [originalDurationWeeks > 0]
    has [durationWeeks = originalDurationWeeks] and [compressionRatio = 1];
    any other task keeps the duration and the ratio it had. *)
Theorem compressSchedule_reset holidayIn fuel p :
  compressSchedule holidayIn fuel p None None
  = calculateSchedule holidayIn fuel (resetProject p)
  ∧ ∀ q i t,
      compressSchedule holidayIn fuel p None None = Some q →
      Project.tasks p !! i = Some t →
      ∃ t', Project.tasks q !! i = Some t'
        ∧ Task.originalDurationWeeks t' = Task.originalDurationWeeks t
        ∧ (Qpositive (Task.originalDurationWeeks t) = true →
           Task.durationWeeks t' = Task.originalDurationWeeks t
           ∧ Task.compressionRatio t' = 1%Q)
        ∧ (Qpositive (Task.originalDurationWeeks t) = false →
           Task.durationWeeks t' = Task.durationWeeks t
           ∧ Task.compressionRatio t' = Task.compressionRatio t).
Proof.
  split; [done|]. intros q i t Hq Hi.
  change (calculateSchedule holidayIn fuel (resetProject p) = Some q) in Hq.
  assert (Project.tasks (resetProject p) !! i = Some (resetOne t)) as Hr.
  { simpl. unfold resetDurations. by rewrite list_lookup_fmap, Hi. }
  destruct (calculateSchedule_lookup _ _ _ _ _ _ Hq Hr) as (t' & Ht' & Hst).
  apply static_fields in Hst as (_ & _ & _ & Hd & Ho & Hc & _).
  exists t'. split; [done|]. rewrite Hd, Ho, Hc. unfold resetOne.
  destruct (Qpositive (Task.originalDurationWeeks t)); simpl; done.
Qed.

(** *** Which durations a stage leaves alone *)

Lemma inBlock1_phase t t' :
  Task.phase t' = Task.phase t → inBlock1 t' = inBlock1 t.
Proof. unfold inBlock1. by intros ->. Qed.

Lemma inBlock2_phase t t' :
  Task.phase t' = Task.phase t → inBlock2 t' = inBlock2 t.
Proof. unfold inBlock2. by intros ->%inBlock1_phase. Qed.

Lemma keepsDurations_trans keep x y z :
  (∀ t t', Task.phase t' = Task.phase t → keep t' = keep t) →
  keepsDurations keep x y → keepsDurations keep y z →
  keepsDurations keep x z.
Proof.
  intros Hkeep Hxy Hyz i t Hi.
  destruct (Hxy _ _ Hi) as (t1 & H1 & Hp1 & Ho1 & Hd1).
  destruct (Hyz _ _ H1) as (t2 & H2 & Hp2 & Ho2 & Hd2).
  exists t2. split; [done|]. split; [congruence|]. split; [congruence|].
  intros Hk. destruct (Hd1 Hk) as [Ha Hb].
  rewrite <- (Hkeep _ _ Hp1) in Hk. destruct (Hd2 Hk) as [Hc Hd].
  split; congruence.
Qed.

Lemma keepsDurations_calculateSchedule holidayIn fuel keep x y :
  calculateSchedule holidayIn fuel x = Some y → keepsDurations keep x y.
Proof.
  intros Hc i t Hi.
  destruct (calculateSchedule_lookup _ _ _ _ _ _ Hc Hi) as (t' & Ht' & Hst).
  apply static_fields in Hst as (_ & _ & Hp & Hd & Ho & Hr & _).
  exists t'. done.
Qed.

Lemma keepsDurations_applyRatio keep b a sd x :
  (∀ t, keep t = true → b t = false) →
  keepsDurations keep x (applyRatio b a sd x).
Proof.
  intros Hother i t Hi. unfold applyRatio.
  destruct (_ && _); [|by exists t]. simpl. unfold scaleBlock.
  rewrite list_lookup_fmap, Hi. simpl. eexists. split; [done|].
  unfold scaleOne.
  destruct (b t && Qpositive (Task.durationWeeks t)) eqn:E; simpl; [|done].
  split; [done|]. split; [done|].
  intros Hk. apply Hother in Hk. by rewrite Hk in E.
Qed.

Lemma applyRatio_skip b a sd x :
  (sd ≤ 0 ∨ a ≤ 0)%Z → applyRatio b a sd x = x.
Proof.
  intros H. unfold applyRatio.
  destruct (0 <? sd)%Z eqn:E1, (0 <? a)%Z eqn:E2; simpl; try done. lia.
Qed.

Lemma keepsDurations_block1Stage holidayIn fuel x m y :
  block1Stage holidayIn fuel x m = Some y → keepsDurations inBlock2 x y.
Proof.
  destruct m as [m|]; simpl.
  - intros (tp & a & sd & _ & Hc & ->)%compressBlock1_Some.
    eapply keepsDurations_trans; [apply inBlock2_phase| |].
    + by eapply keepsDurations_calculateSchedule.
    + apply keepsDurations_applyRatio. unfold inBlock2.
      intros t. by destruct (inBlock1 t).
  - intros [= <-] i t Hi. by exists t.
Qed.

Lemma keepsDurations_block2Stage holidayIn fuel x s y :
  block2Stage holidayIn fuel x s = Some y → keepsDurations inBlock1 x y.
Proof.
  destruct s as [s|]; simpl.
  - intros (tp & days & _ & Hc & ->)%compressBlock2_Some.
    eapply keepsDurations_trans; [apply inBlock1_phase| |].
    + by eapply keepsDurations_calculateSchedule.
    + destruct days as [[a sd]|]; [|intros i t Hi; by exists t].
      apply keepsDurations_applyRatio. unfold inBlock2. by intros t ->.
  - intros [= <-] i t Hi. by exists t.
Qed.

Lemma resetProject_lookup p i t :
  Project.tasks p !! i = Some t →
  Project.tasks (resetProject p) !! i = Some (resetOne t).
Proof. intros Hi. simpl. unfold resetDurations. by rewrite list_lookup_fmap, Hi. Qed.

Lemma resetOne_fields t :
  Task.phase (resetOne t) = Task.phase t
  ∧ (Qpositive (Task.originalDurationWeeks t) = true →
     Task.compressionRatio (resetOne t) = 1%Q).
Proof.
  unfold resetOne. destruct (Qpositive (Task.originalDurationWeeks t)); done.
Qed.

(** The tasks of a block that was not scaled leave [compressSchedule] with
    the duration and the ratio of the reset. *)
Lemma unscaled_block keep x q i t :
  keepsDurations keep x q →
  Project.tasks x !! i = Some (resetOne t) →
  keep (resetOne t) = true →
  ∃ t', Project.tasks q !! i = Some t'
    ∧ Task.durationWeeks t' = Task.durationWeeks (resetOne t)
    ∧ Task.compressionRatio t' = Task.compressionRatio (resetOne t)
    ∧ (Qpositive (Task.originalDurationWeeks t) = true →
       Task.compressionRatio t' = 1%Q).
Proof.
  intros Hk Hi Hb. destruct (Hk _ _ Hi) as (t' & Ht' & _ & _ & Hd).
  destruct (Hd Hb) as [Hdur Hcr]. exists t'. repeat split; try done.
  intros Ho. rewrite Hcr. by apply resetOne_fields.
Qed.

(** C8, as amended. [getBusinessDays] returns 0 when its end date is not
    after its start date.  When the [standardDays] or the [availableDays] of
    a block is zero or negative, the block is not scaled, so the ratio is
    never computed with a zero divisor: each task of the block leaves
    [compressSchedule] with the [durationWeeks] and the [compressionRatio]
    the reset left, which is a ratio of 1 for every task with
    [originalDurationWeeks > 0]. *)
Theorem compression_skips_empty_block holidayIn fuel :
  (∀ start end_ countries,
     (end_ ≤ start)%Z →
     getBusinessDays holidayIn fuel start end_ countries = Some 0%Z)
  ∧ ∀ p m s q,
      compressSchedule holidayIn fuel p m s = Some q →
      (∀ md tp a sd,
         m = Some md →
         block1Days holidayIn fuel (resetProject p) md = Some (tp, a, sd) →
         (sd ≤ 0 ∨ a ≤ 0)%Z →
         block1Stage holidayIn fuel (resetProject p) m
         = calculateSchedule holidayIn fuel (resetProject p)
         ∧ ∀ i t,
             Project.tasks p !! i = Some t → inBlock1 t = true →
             ∃ t', Project.tasks q !! i = Some t'
               ∧ Task.durationWeeks t' = Task.durationWeeks (resetOne t)
               ∧ Task.compressionRatio t' = Task.compressionRatio (resetOne t)
               ∧ (Qpositive (Task.originalDurationWeeks t) = true →
                  Task.compressionRatio t' = 1%Q))
      ∧ (∀ sg p1 tp a sd,
           s = Some sg →
           block1Stage holidayIn fuel (resetProject p) m = Some p1 →
           block2Days holidayIn fuel p1 sg = Some (tp, Some (a, sd)) →
           (sd ≤ 0 ∨ a ≤ 0)%Z →
           block2Stage holidayIn fuel p1 s = calculateSchedule holidayIn fuel p1
           ∧ ∀ i t,
               Project.tasks p !! i = Some t → inBlock2 t = true →
               ∃ t', Project.tasks q !! i = Some t'
                 ∧ Task.durationWeeks t' = Task.durationWeeks (resetOne t)
                 ∧ Task.compressionRatio t'
                   = Task.compressionRatio (resetOne t)
                 ∧ (Qpositive (Task.originalDurationWeeks t) = true →
                    Task.compressionRatio t' = 1%Q)).
Proof.
  split.
  { intros start end_ countries Hle. unfold getBusinessDays.
    by apply countBusinessDays_done. }
  intros p m s q Hq.
  apply compressSchedule_stages in Hq
    as [(-> & -> & _)|(_ & p1 & p2 & H1 & H2 & Hc)].
  { split; [intros ? ? ? ? [=]|intros ? ? ? ? ? [=]]. }
  split.
  - intros md tp a sd -> Hdays Hskip. simpl in H1.
    apply compressBlock1_Some in H1 as (tp' & a' & sd' & Hd' & Hc1 & ->).
    rewrite Hdays in Hd'. injection Hd' as <- <- <-.
    rewrite applyRatio_skip in H2 by done.
    split.
    { simpl. unfold compressBlock1. rewrite Hdays. simpl.
      by rewrite applyRatio_skip. }
    intros i t Hi Hb.
    apply (unscaled_block inBlock1 (resetProject p));
      [|by apply resetProject_lookup
       |by rewrite (inBlock1_phase t) by apply resetOne_fields].
    eapply keepsDurations_trans; [apply inBlock1_phase| |].
    { by eapply keepsDurations_calculateSchedule. }
    eapply keepsDurations_trans; [apply inBlock1_phase| |].
    { by eapply keepsDurations_block2Stage. }
    by eapply keepsDurations_calculateSchedule.
  - intros sg p1' tp a sd -> Hp1 Hdays Hskip.
    rewrite H1 in Hp1. injection Hp1 as <-. simpl in H2.
    apply compressBlock2_Some in H2 as (tp' & days' & Hd' & Hc2 & ->).
    rewrite Hdays in Hd'. injection Hd' as <- <-.
    rewrite applyRatio_skip in Hc by done.
    split.
    { simpl. unfold compressBlock2. rewrite Hdays. simpl.
      by rewrite applyRatio_skip. }
    intros i t Hi Hb.
    apply (unscaled_block inBlock2 (resetProject p));
      [|by apply resetProject_lookup
       |by rewrite (inBlock2_phase t) by apply resetOne_fields].
    eapply keepsDurations_trans; [apply inBlock2_phase| |].
    { by eapply keepsDurations_block1Stage. }
    eapply keepsDurations_trans; [apply inBlock2_phase| |].
    { by eapply keepsDurations_calculateSchedule. }
    by eapply keepsDurations_calculateSchedule.
Qed.

(** ** The claims on concrete projects *)

Lemma noHolidays_recurring countries : recurring noHolidays countries 3.
Proof.
  intros d.
  assert (∀ k : Z, nonWorking noHolidays (addDays d k) countries
                   = isWeekend (addDays d k)) as Hnw.
  { intros k. unfold nonWorking, isHoliday, noHolidays.
    assert (existsb (λ _ : string, false) countries = false) as ->
      by (by induction countries).
    apply orb_false_r. }
  assert (∀ k : Z, getDay (addDays d k) = ((d / msPerDay + 4 + k) mod 7)%Z)
    as Hday.
  { intros k. unfold getDay, addDays. rewrite Z.div_add by done.
    f_equal. lia. }
  pose proof (Z.mod_pos_bound (d / msPerDay + 4) 7 ltac:(lia)) as Hw.
  destruct (decide ((d / msPerDay + 4) mod 7 = 0)%Z) as [H0|H0];
    [|destruct (decide ((d / msPerDay + 4) mod 7 = 6)%Z) as [H6|H6]].
  - exists 1. split; [lia|]. rewrite Hnw. unfold isWeekend. rewrite Hday.
    apply orb_false_iff. split; apply Z.eqb_neq;
      Z.to_euclidean_division_equations; lia.
  - exists 2. split; [lia|]. rewrite Hnw. unfold isWeekend. rewrite Hday.
    apply orb_false_iff. split; apply Z.eqb_neq;
      Z.to_euclidean_division_equations; lia.
  - exists 0. split; [lia|]. rewrite Hnw. unfold isWeekend. rewrite Hday.
    apply orb_false_iff. split; apply Z.eqb_neq;
      Z.to_euclidean_division_equations; lia.
Qed.

(** The scenario of the specification: the start moves from New Year's Day
    to 2 January, and the end is 9 January. *)
Lemma computedStart_is_business_day_witness :
  ∃ p' t s,
    calculateSchedule newYear2024 60 holidayStart = Some p'
    ∧ Project.tasks p' !! 0 = Some t
    ∧ Task.computedStart t = Some s
    ∧ s = addDays jan1_2024 1
    ∧ businessDay newYear2024 (Project.country holidayStart) s.
Proof.
  eexists _, _, _.
  split; [reflexivity|]. split; [reflexivity|]. split; [reflexivity|].
  split; [reflexivity|].
  eapply (computedStart_is_business_day newYear2024 60 holidayStart _ 0);
    reflexivity.
Defined.

Lemma computedEnd_is_business_day_witness :
  ∃ p' t e,
    calculateSchedule newYear2024 60 holidayStart = Some p'
    ∧ Project.tasks p' !! 0 = Some t
    ∧ Task.computedEnd t = Some e
    ∧ e = addDays jan1_2024 8
    ∧ businessDay newYear2024 (Project.country holidayStart) e.
Proof.
  eexists _, _, _.
  split; [reflexivity|]. split; [reflexivity|]. split; [reflexivity|].
  split; [reflexivity|].
  eapply (computedEnd_is_business_day newYear2024 60 holidayStart _ 0);
    reflexivity.
Defined.




(** Two tasks that wait for each other: the scheduler stops after one run
    over the tasks and leaves both without dates. *)
Lemma calculateSchedule_terminates_witness :
  ∃ st,
    runSchedule noHolidays 60 cycleProject = Some st
    ∧ calculateSchedule noHolidays 60 cycleProject
      = Some (Project.setTasks cycleProject (objects st))
    ∧ passes st ≤ 3 * length (Project.tasks cycleProject)
    ∧ length (objects st) = length (Project.tasks cycleProject)
    ∧ (∀ i t, objects st !! i = Some t → scheduled t ∨ unscheduled t)
    ∧ (∀ i t predId tp,
         objects st !! i = Some t →
         predId ∈ Task.predecessors t →
         taskById (objects st) predId = Some tp →
         Task.computedEnd tp = None →
         unscheduled t).
Proof.
  apply (calculateSchedule_terminates noHolidays 60 3 cycleProject).
  - apply noHolidays_recurring.
  - lia.
  - intros t Hin. unfold affordable.
    repeat (apply elem_of_cons in Hin as [->|Hin]; [vm_compute; lia|]).
    by apply elem_of_nil in Hin.
  - intros t Hin. unfold countsDown.
    repeat (apply elem_of_cons in Hin as [->|Hin];
            [apply Z.leb_le; vm_compute; reflexivity|]).
    by apply elem_of_nil in Hin.
Defined.

(** A task whose number of working days is above 2^53 is never placed:
    its duration loop does not end. *)
Lemma placeTask_stuck holidayIn fuel countries task maxPredEnd :
  Qis_zero (Task.durationWeeks task) = false →
  (maxExact < Qfloor (Task.durationWeeks task * 5))%Z →
  placeTask holidayIn fuel countries task maxPredEnd = None.
Proof.
  intros Hz Hk. unfold placeTask.
  destruct (rollForward _ _ _ _) as [s|]; [|done]. simpl.
  by rewrite Hz, addWorkingDays_stuck.
Qed.

(** C4, the claim as it stood: in a calendar without holidays, where every
    week has five working days, the project with one task of 1e17 weeks
    asks for 5e17 working days; decrementing this counter gives 5e17 again,
    and [calculateSchedule] does not return, whatever the fuel. *)
Lemma calculateSchedule_terminates_counterexample :
  recurring noHolidays (Project.country hugeDuration) 3
  ∧ (∀ t, t ∈ Project.tasks hugeDuration →
          Qfloor (Task.durationWeeks t * 5) = 500000000000000000%Z)
  ∧ decrement 500000000000000000 = 500000000000000000%Z
  ∧ ∀ fuel,
      runSchedule noHolidays fuel hugeDuration = None
      ∧ calculateSchedule noHolidays fuel hugeDuration = None.
Proof.
  split; [apply noHolidays_recurring|].
  split.
  { intros t Hin. apply elem_of_cons in Hin as [->|Hin]; [reflexivity|].
    by apply elem_of_nil in Hin. }
  split; [reflexivity|].
  intros fuel.
  assert (runSchedule noHolidays fuel hugeDuration = None) as Hrun.
  { unfold runSchedule, scheduleLoop, maxIterations. cbn -[placeTask].
    rewrite placeTask_stuck by (vm_compute; reflexivity).
    case_decide as Hsize; [|rewrite size_empty in Hsize; lia].
    by case_decide. }
  split; [done|]. unfold calculateSchedule. by rewrite Hrun.
Qed.

Lemma cycle_left_unscheduled :
  ∃ st, runSchedule noHolidays 60 cycleProject = Some st
        ∧ passes st = 1
        ∧ Forall unscheduled (objects st).
Proof.
  eexists. split; [reflexivity|]. split; [reflexivity|].
  repeat constructor.
Qed.

Lemma injectVddTasks_inserts_witness :
  Project.vddEnabled standardKickoff = true
  ∧ existsb isSentinel (Project.tasks standardKickoff) = false
  ∧ insertIdx (Project.tasks standardKickoff) = 1
  ∧ (∀ n, n < 4 →
       Project.tasks (injectVddTasks standardKickoff)
         !! (insertIdx (Project.tasks standardKickoff) + n)
       = vddTasks !! n)
  ∧ length (Project.tasks (injectVddTasks standardKickoff))
    = length (Project.tasks standardKickoff) + 4.
Proof.
  split; [reflexivity|]. split; [reflexivity|]. split; [reflexivity|].
  destruct (injectVddTasks_inserts standardKickoff eq_refl eq_refl)
    as (_ & Hvdd & Hlen & _).
  split; [exact Hvdd|exact Hlen].
Defined.

(** C3 as stated fails.  On the fast-track template the entry task does
    not depend on the kickoff task F1.1 after which it is inserted; and when
    F1.1 precedes T1.1 in the list the tasks are inserted after F1.1, not
    after T1.1, the first id of the test. *)
Lemma injectVddTasks_inserts_counterexample :
  (Project.vddEnabled fastTrackKickoff = true
   ∧ existsb isSentinel (Project.tasks fastTrackKickoff) = false
   ∧ ∃ kick entry,
       Project.tasks fastTrackKickoff !! 0 = Some kick
       ∧ isKickoff kick = true
       ∧ Project.tasks (injectVddTasks fastTrackKickoff) !! 1 = Some entry
       ∧ Task.id entry = "VDD.1"
       ∧ Task.id kick ∉ Task.predecessors entry)
  ∧ (Project.vddEnabled bothKickoffs = true
     ∧ existsb isSentinel (Project.tasks bothKickoffs) = false
     ∧ ∃ t11 entry,
         Project.tasks bothKickoffs !! 1 = Some t11
         ∧ Task.id t11 = "T1.1"
         ∧ Project.tasks (injectVddTasks bothKickoffs) !! 1 = Some entry
         ∧ Task.id entry = "VDD.1"
         ∧ Project.tasks (injectVddTasks bothKickoffs) !! 5 = Some t11).
Proof.
  split.
  - split; [reflexivity|]. split; [reflexivity|]. eexists _, _.
    split; [reflexivity|]. split; [reflexivity|]. split; [reflexivity|].
    split; [reflexivity|]. simpl. intros [=]%list_elem_of_singleton.
  - split; [reflexivity|]. split; [reflexivity|]. eexists _, _.
    split; [reflexivity|]. split; [reflexivity|]. split; [reflexivity|].
    split; reflexivity.
Qed.

Lemma injectVddTasks_idempotent_witness :
  existsb isSentinel (Project.tasks (injectVddTasks standardKickoff)) = true
  ∧ injectVddTasks (injectVddTasks standardKickoff)
    = injectVddTasks standardKickoff.
Proof.
  split; [reflexivity|].
  apply (proj1 (proj2 (injectVddTasks_idempotent
                         (injectVddTasks standardKickoff)))).
  reflexivity.
Defined.

Lemma twoPhases_baselineKept t :
  t ∈ Project.tasks twoPhases → baselineKept t.
Proof.
  intros Hin. unfold baselineKept.
  repeat (apply elem_of_cons in Hin as [->|Hin]; [simpl; done|]).
  by apply elem_of_nil in Hin.
Qed.

Lemma compressSchedule_idempotent_witness :
  ∃ q,
    compressSchedule noHolidays 60 twoPhases (Some jan8_2024)
      (Some (addDays jan1_2024 21)) = Some q
    ∧ compressSchedule noHolidays 60 q (Some jan8_2024)
        (Some (addDays jan1_2024 21)) = Some q.
Proof.
  eexists. split; [vm_compute; reflexivity|].
  eapply (compressSchedule_idempotent noHolidays 60 twoPhases);
    [apply twoPhases_baselineKept|vm_compute; reflexivity].
Defined.

(** C2 as stated fails: a task with a duration of 2 weeks and a baseline
    of 0 is not reset, is scaled to 0 by the first call and then no longer
    counts in the second call, which gives the task after it another
    ratio. *)
Lemma compressSchedule_idempotent_counterexample :
  ∃ q q' t t',
    compressSchedule noHolidays 60 noBaseline (Some jan8_2024) None = Some q
    ∧ compressSchedule noHolidays 60 q (Some jan8_2024) None = Some q'
    ∧ Project.tasks q !! 1 = Some t
    ∧ Project.tasks q' !! 1 = Some t'
    ∧ ¬ (Task.durationWeeks t' == Task.durationWeeks t)
    ∧ ¬ (Task.compressionRatio t' == Task.compressionRatio t).
Proof.
  eexists _, _, _, _.
  split; [vm_compute; reflexivity|]. split; [vm_compute; reflexivity|].
  split; [vm_compute; reflexivity|]. split; [vm_compute; reflexivity|].
  split; vm_compute; discriminate.
Qed.

Lemma compressSchedule_reset_witness :
  ∃ q,
    compressSchedule noHolidays 60 twoPhases None None = Some q
    ∧ ∃ t', Project.tasks q !! 0 = Some t'
        ∧ Task.originalDurationWeeks t' = 2%Q
        ∧ Task.durationWeeks t' = 2%Q
        ∧ Task.compressionRatio t' = 1%Q.
Proof.
  eexists. split; [vm_compute; reflexivity|].
  match goal with
  | |- ∃ t', Project.tasks ?q !! _ = _ ∧ _ =>
      destruct (proj2 (compressSchedule_reset noHolidays 60 twoPhases) q 0
                  (simpleTask "A" "Phase 1" 2 [] None))
        as (t' & Ht' & Ho & Hpos & _);
        [vm_compute; reflexivity|vm_compute; reflexivity|]
  end.
  exists t'. split; [exact Ht'|]. split; [exact Ho|]. exact (Hpos eq_refl).
Defined.

(** C5 as stated fails: a task whose baseline is 0 keeps its duration of
    2 weeks and its ratio of 1/2. *)
Lemma compressSchedule_reset_counterexample :
  ∃ q t',
    compressSchedule noHolidays 60 halfRatio None None = Some q
    ∧ Project.tasks q !! 0 = Some t'
    ∧ ¬ (Task.durationWeeks t' == Task.originalDurationWeeks t')
    ∧ ¬ (Task.compressionRatio t' == 1).
Proof.
  eexists _, _. split; [vm_compute; reflexivity|].
  split; [vm_compute; reflexivity|].
  split; vm_compute; discriminate.
Qed.

(** Block 1 with no available day (the marketing date is the start date)
    and block 2 with no standard day (its only task is a marker). *)
Lemma compression_skips_empty_block_witness :
  ∃ q p1 tp1 sd1 tp2 a2,
    compressSchedule noHolidays 60 markerPhase2 (Some jan1_2024)
      (Some (addDays jan1_2024 28)) = Some q
    ∧ block1Days noHolidays 60 (resetProject markerPhase2) jan1_2024
      = Some (tp1, 0%Z, sd1)
    ∧ block1Stage noHolidays 60 (resetProject markerPhase2) (Some jan1_2024)
      = Some p1
    ∧ block2Days noHolidays 60 p1 (addDays jan1_2024 28)
      = Some (tp2, Some (a2, 0%Z))
    ∧ (∃ t', Project.tasks q !! 0 = Some t'
             ∧ Task.durationWeeks t' = 2%Q ∧ Task.compressionRatio t' = 1%Q)
    ∧ (∃ t', Project.tasks q !! 1 = Some t'
             ∧ Task.durationWeeks t' = 0%Q ∧ Task.compressionRatio t' = 1%Q).
Proof.
  eexists _, _, _, _, _, _.
  split; [vm_compute; reflexivity|]. split; [vm_compute; reflexivity|].
  split; [vm_compute; reflexivity|]. split; [vm_compute; reflexivity|].
  edestruct (proj2 (compression_skips_empty_block noHolidays 60) markerPhase2
               (Some jan1_2024) (Some (addDays jan1_2024 28)))
    as [Hb1 Hb2]; [vm_compute; reflexivity|].
  split.
  - edestruct (Hb1 jan1_2024) as [_ Hkeep];
      [reflexivity|vm_compute; reflexivity|right; lia|].
    edestruct (Hkeep 0 (simpleTask "A" "Phase 1" 2 [] None))
      as (t' & Ht' & Hd & Hr & _);
      [vm_compute; reflexivity|vm_compute; reflexivity|].
    exists t'. split; [exact Ht'|]. split; [exact Hd|exact Hr].
  - edestruct (Hb2 (addDays jan1_2024 28)) as [_ Hkeep];
      [reflexivity|vm_compute; reflexivity|vm_compute; reflexivity
      |left; lia|].
    edestruct (Hkeep 1 (simpleTask "M" "Phase 2" 0 ["A"] None))
      as (t' & Ht' & Hd & Hr & _);
      [vm_compute; reflexivity|vm_compute; reflexivity|].
    exists t'. split; [exact Ht'|]. split; [exact Hd|exact Hr].
Defined.

(** C8 as stated fails: block 1 has no standard day and is not scaled,
    and its task leaves with the ratio of 1/2 it came with, not with 1. *)
Lemma compression_skips_empty_block_counterexample :
  ∃ tp a sd q t',
    block1Days noHolidays 60 (resetProject staleRatio) jan8_2024
    = Some (tp, a, sd)
    ∧ (sd ≤ 0)%Z
    ∧ compressSchedule noHolidays 60 staleRatio (Some jan8_2024) None = Some q
    ∧ Project.tasks q !! 0 = Some t'
    ∧ inBlock1 t' = true
    ∧ ¬ (Task.compressionRatio t' == 1).
Proof.
  eexists _, _, _, _, _.
  split; [vm_compute; reflexivity|]. split; [lia|].
  split; [vm_compute; reflexivity|]. split; [vm_compute; reflexivity|].
  split; [vm_compute; reflexivity|]. vm_compute. discriminate.
Qed.

(** * Further properties *)

(** ** The scheduler: what a run records *)

Section Trace.

Context (holidayIn : HolidayOracle) (fuel : nat).
Context (startDate : Date) (countries : list string).
Context (tasksById : gmap string nat).

Local Abbreviation step :=
  (placeStep holidayIn fuel startDate countries tasksById).

(** A placement adds one id to the processed ids and keeps the slots. *)
Lemma placeStep_size ts dn ts' dn' :
  step (ts, dn) (ts', dn') →
  length ts' = length ts ∧ size dn' = S (size dn).
Proof.
  intros Hstep.
  inversion Hstep as [? ? i task m start end_ Hi Hfresh _ _]; subst.
  split; [by rewrite length_insert|].
  rewrite size_union by set_solver. by rewrite size_singleton.
Qed.

(** A later state reads the same latest end of the predecessors. *)
Lemma predecessorsEnd_mono ts dn preds k task task' : ∀ m0 m,
  (∀ j t, ts !! j = Some t → is_Some (Task.computedEnd t) → j ≠ k) →
  predecessorsEnd tasksById ts dn preds m0 = Some m →
  predecessorsEnd tasksById (<[k:=task']> ts) ({[Task.id task]} ∪ dn)
    preds m0 = Some m.
Proof.
  intros m0 m Hother. revert m0.
  induction preds as [|predId rest IH]; intros m0; simpl; [done|].
  destruct (tasksById !! predId) as [j|]; [|apply IH].
  destruct (ts !! j) as [pred|] eqn:Hj; [|done].
  destruct (Task.computedEnd pred) as [e|] eqn:He; [|done].
  case_decide as Hd; [|done].
  rewrite list_lookup_insert_ne
    by (intros Heq; eapply (Hother j pred); eauto).
  rewrite Hj, He. rewrite decide_True by set_solver. apply IH.
Qed.

Lemma predecessorsEnd_latest ts dn preds : ∀ m0 m,
  (∀ predId, tasksById !! predId = indexTasks 0 ts ∅ !! predId) →
  predecessorsEnd tasksById ts dn preds m0 = Some m →
  m = latestPredecessorEnd ts preds m0.
Proof.
  intros m0 m Hidx. revert m0. unfold latestPredecessorEnd.
  induction preds as [|predId rest IH]; intros m0; simpl; [congruence|].
  unfold taskById at 2. rewrite <- Hidx.
  destruct (tasksById !! predId) as [j|]; simpl; [|apply IH].
  destruct (ts !! j) as [pred|]; simpl; [|done].
  destruct (Task.computedEnd pred) as [e|]; [|done].
  case_decide; [|done].
  intros Hrec%IH. rewrite Hrec. f_equal.
  destruct (m0 <? e)%Z eqn:E; lia.
Qed.

End Trace.

Section Traced.

Context (holidayIn : HolidayOracle) (fuel : nat).
Context (startDate : Date) (countries : list string).

Lemma traced_init ts :
  traced holidayIn fuel startDate countries (resetComputed ts)
    (resetComputed ts) ∅.
Proof.
  split.
  - intros i t. rewrite resetComputed_lookup.
    destruct (ts !! i); intros [= <-]; done.
  - intros i t s. rewrite resetComputed_lookup.
    destruct (ts !! i); intros [= <-]; done.
  - intros x []%elem_of_empty.
Qed.

Lemma traced_step ts0 ts dn ts' dn' :
  consistent holidayIn fuel countries ts0 ts dn →
  traced holidayIn fuel startDate countries ts0 ts dn →
  placeStep holidayIn fuel startDate countries (indexTasks 0 ts0 ∅)
    (ts, dn) (ts', dn') →
  traced holidayIn fuel startDate countries ts0 ts' dn'.
Proof.
  intros [_ _ Hdone _ _] [Hserial Hplaced Hids] Hstep.
  inversion Hstep as [? ? k task maxPredEnd start end_ Hk Hfresh Hpe Hpl];
    subst.
  pose proof (lookup_lt_Some _ _ _ Hk) as Hlt.
  assert (∀ j t, ts !! j = Some t → is_Some (Task.computedEnd t) → j ≠ k)
    as Hother.
  { intros j t Hj He ->. rewrite Hk in Hj. injection Hj as <-.
    apply Hfresh. by eapply Hdone. }
  split.
  - intros j t. destruct (decide (j = k)) as [->|Hne].
    + rewrite list_lookup_insert_eq by done. intros [= <-]. simpl. eauto.
    + rewrite list_lookup_insert_ne by done. apply Hserial.
  - intros j t s. destruct (decide (j = k)) as [->|Hne].
    + rewrite list_lookup_insert_eq by done. intros [= <-]. simpl.
      intros [= <-]. exists maxPredEnd, end_. split; [|done].
      by apply predecessorsEnd_mono.
    + rewrite list_lookup_insert_ne by done. intros Hj Hs.
      destruct (Hplaced _ _ _ Hj Hs) as (m & e & Hm & Hp & He).
      exists m, e. split; [|done]. by apply predecessorsEnd_mono.
  - intros x [->%elem_of_singleton|Hx]%elem_of_union.
    + eexists k, _. rewrite list_lookup_insert_eq by done.
      split; [done|]. simpl. eauto.
    + destruct (Hids _ Hx) as (i & t & Hi & Hid & He).
      exists i, t. rewrite list_lookup_insert_ne; [done|].
      intros Heq. eapply (Hother i t); eauto.
Qed.

Lemma scheduleLoop_traced ts0 remaining st st' :
  consistent holidayIn fuel countries ts0 (objects st) (processed st) →
  traced holidayIn fuel startDate countries ts0 (objects st) (processed st) →
  scheduleLoop holidayIn fuel startDate countries (indexTasks 0 ts0 ∅)
    remaining st = Some st' →
  traced holidayIn fuel startDate countries ts0 (objects st') (processed st').
Proof.
  intros Hc Ht Hrun.
  apply (scheduleLoop_invariant holidayIn fuel startDate countries
           (indexTasks 0 ts0 ∅)
           (λ ts dn, consistent holidayIn fuel countries ts0 ts dn
                     ∧ traced holidayIn fuel startDate countries ts0 ts dn)
           remaining st st'); [|done|done].
  intros ts dn ts' dn' [Hc' Ht'] Hstep. split.
  - by eapply consistent_step.
  - by eapply traced_step.
Qed.

End Traced.

Lemma runSchedule_traced holidayIn fuel p st :
  runSchedule holidayIn fuel p = Some st →
  traced holidayIn fuel (Project.startDate p) (Project.country p)
    (resetComputed (Project.tasks p)) (objects st) (processed st).
Proof.
  unfold runSchedule. apply scheduleLoop_traced; simpl.
  - apply consistent_init.
  - apply traced_init.
Qed.

(** ** The scheduler: how the loop ends *)

Section LoopExit.

Context (holidayIn : HolidayOracle) (fuel : nat).
Context (startDate : Date) (countries : list string).
Context (tasksById : gmap string nat).

Local Abbreviation visit :=
  (visitTask holidayIn fuel startDate countries tasksById).

Lemma visitTask_grows st i st' :
  visit st i = Some st' →
  length (objects st') = length (objects st)
  ∧ size (processed st) ≤ size (processed st')
  ∧ (progressMade st = true → progressMade st' = true)
  ∧ (progressMade st = false → progressMade st' = true →
     size (processed st) < size (processed st')).
Proof.
  intros [->|(Hs & Hp & _)]%visitTask_step.
  - repeat split; try done. congruence.
  - apply placeStep_size in Hs as [Hl Hsz]. simpl in *.
    repeat split; try done; lia.
Qed.

Lemma forEachSlot_grows slots : ∀ st st',
  forEachSlot visit slots st = Some st' →
  length (objects st') = length (objects st)
  ∧ size (processed st) ≤ size (processed st')
  ∧ (progressMade st = true → progressMade st' = true)
  ∧ (progressMade st = false → progressMade st' = true →
     size (processed st) < size (processed st')).
Proof.
  induction slots as [|i slots IH]; intros st st'; simpl.
  - intros [= <-]. repeat split; try done. congruence.
  - destruct (visit st i) as [st1|] eqn:Hv; [|done].
    intros (Hl & Hsz & Hkeep & Hgrow)%IH.
    apply visitTask_grows in Hv as (Hl1 & Hsz1 & Hkeep1 & Hgrow1).
    repeat split; [congruence|lia|auto|].
    intros Hf Ht. destruct (progressMade st1) eqn:E.
    + specialize (Hgrow1 Hf eq_refl). lia.
    + specialize (Hgrow eq_refl Ht). lia.
Qed.

(** A run of the [for] loop that makes no progress has left every slot as
    it was. *)
Lemma forEachSlot_quiet slots : ∀ st st',
  forEachSlot visit slots st = Some st' →
  progressMade st = false → progressMade st' = false →
  st' = st ∧ ∀ i, i ∈ slots → visit st i = Some st.
Proof.
  induction slots as [|i slots IH]; intros st st'; simpl.
  - intros [= <-] _ _. split; [done|]. intros i []%elem_of_nil.
  - destruct (visit st i) as [st1|] eqn:Hv; [|done].
    intros Hrest Hf Hf'.
    pose proof (forEachSlot_grows _ _ _ Hrest) as (_ & _ & Hkeep & _).
    destruct (visitTask_step _ _ _ _ _ _ _ _ Hv) as [->|(_ & Hp & _)].
    + destruct (IH _ _ Hrest Hf Hf') as [-> Hall]. split; [done|].
      intros j [->|Hin]%elem_of_cons; [done|by apply Hall].
    + rewrite (Hkeep Hp) in Hf'. done.
Qed.

(** The loop ends with every slot counted in the processed ids or after a
    run over the tasks that changed nothing, and it runs over the tasks at
    most once per task. *)
Lemma scheduleLoop_exit remaining : ∀ st st',
  length (objects st) ≤ size (processed st) + remaining →
  scheduleLoop holidayIn fuel startDate countries tasksById remaining st
    = Some st' →
  passes st' + size (processed st) ≤ passes st + max (length (objects st)) (size (processed st))
  ∧ (length (objects st') ≤ size (processed st')
     ∨ ∀ i, i < length (objects st') → visit st' i = Some st').
Proof.
  induction remaining as [|r IH]; intros st st' Hrem; simpl;
    (case_decide as Hsz; [|intros [= <-]; split; [lia|left; lia]]);
    [lia|].
  destruct (onePass _ _ _ _ _ st) as [st1|] eqn:Hp; [|done].
  unfold onePass in Hp.
  pose proof (forEachSlot_grows _ _ _ Hp) as (Hl & Hs1 & _ & Hgrow).
  pose proof (forEachSlot_steps _ _ _ _ _ _ _ _ Hp) as (_ & Hpass & _).
  simpl in *.
  destruct (progressMade st1) eqn:Hprog.
  - specialize (Hgrow eq_refl eq_refl).
    intros [Hb Hend]%IH; [|lia]. split; [|done]. lia.
  - intros [= <-]. split; [lia|]. right.
    destruct (forEachSlot_quiet _ _ _ Hp eq_refl Hprog) as [Heq Hall].
    rewrite <- Heq in Hall. intros i Hi. apply Hall.
    apply list_elem_of_In, in_seq. lia.
Qed.

End LoopExit.

Lemma size_list_to_set_le (l : list string) :
  size (list_to_set l : gset string) ≤ length l.
Proof.
  induction l as [|x l IH].
  { rewrite list_to_set_nil, size_empty. done. }
  rewrite list_to_set_cons, size_union_alt, size_singleton. simpl.
  assert (size (list_to_set l ∖ {[x]} : gset string)
          ≤ size (list_to_set l : gset string)) as Hle
    by (apply subseteq_size; intros y [Hy _]%elem_of_difference; done).
  lia.
Qed.

Lemma visitTask_quiet holidayIn fuel startDate countries tasksById st i task :
  visitTask holidayIn fuel startDate countries tasksById st i = Some st →
  objects st !! i = Some task →
  Task.id task ∈ processed st
  ∨ predecessorsEnd tasksById (objects st) (processed st)
      (Task.predecessors task) startDate = None.
Proof.
  unfold visitTask. intros Hv Hi. rewrite Hi in Hv.
  case_decide as Hd; [by left|].
  destruct (predecessorsEnd _ _ _ _ _) as [m|]; [|by right].
  destruct (placeTask _ _ _ _ _) as [[s e]|]; [|done].
  simpl in Hv. apply (f_equal (fmap processed)) in Hv. simpl in Hv.
  destruct Hd. assert ({[Task.id task]} ∪ processed st = processed st) as <-
    by congruence.
  apply elem_of_union_l, elem_of_singleton. done.
Qed.

Lemma predecessorsEnd_None tasksById ts dn preds : ∀ m0,
  (∀ j t, ts !! j = Some t → is_Some (Task.computedEnd t) → Task.id t ∈ dn) →
  (∀ predId j, tasksById !! predId = Some j → is_Some (ts !! j)) →
  predecessorsEnd tasksById ts dn preds m0 = None →
  ∃ predId j tp, predId ∈ preds ∧ tasksById !! predId = Some j
                 ∧ ts !! j = Some tp ∧ Task.computedEnd tp = None.
Proof.
  intros m0 Hdone Hvalid. revert m0.
  induction preds as [|predId rest IH]; intros m0; simpl; [done|].
  destruct (tasksById !! predId) as [j|] eqn:Hj.
  - destruct (Hvalid _ _ Hj) as [tp Htp]. rewrite Htp.
    destruct (Task.computedEnd tp) as [e|] eqn:He.
    + rewrite decide_True by (eapply Hdone; eauto).
      intros (p' & j' & tp' & Hin & H1 & H2 & H3)%IH.
      exists p', j', tp'. split; [by right|done].
    + intros _. exists predId, j, tp. split; [by left|done].
  - intros (p' & j' & tp' & Hin & H1 & H2 & H3)%IH.
    exists p', j', tp'. split; [by right|done].
Qed.

(** When the scheduler stops, it has run over the tasks at most once per
    task, and every task either has its id among the processed ids or is
    blocked by a predecessor without a computed end. *)
Lemma runSchedule_settled holidayIn fuel p st :
  runSchedule holidayIn fuel p = Some st →
  passes st ≤ length (Project.tasks p)
  ∧ ∀ i t, objects st !! i = Some t →
      Task.id t ∈ processed st ∨ blocked (objects st) t.
Proof.
  intros Hrun.
  pose proof (runSchedule_consistent _ _ _ _ Hrun) as [Hstatic _ Hdone _ _].
  pose proof (runSchedule_traced _ _ _ _ Hrun) as [_ _ Hids].
  unfold runSchedule in Hrun.
  apply scheduleLoop_exit in Hrun as [Hpass Hend];
    [|simpl; unfold maxIterations; lia].
  cbn [objects processed passes] in Hpass.
  rewrite length_resetComputed, size_empty in Hpass.
  split; [lia|]. intros i t Hi. destruct Hend as [Hfull|Hquiet].
  - left.
    assert (processed st ⊆ list_to_set (Task.id <$> objects st)) as Hsub.
    { intros x (j & tj & Hj & <- & _)%Hids. apply elem_of_list_to_set.
      apply list_elem_of_fmap. exists tj. split; [done|].
      by eapply list_elem_of_lookup_2. }
    pose proof (size_list_to_set_le (Task.id <$> objects st)) as Hle.
    rewrite length_fmap in Hle.
    apply set_subseteq_size_eq in Hsub; [|lia]. rewrite Hsub.
    apply elem_of_list_to_set, list_elem_of_fmap. exists t.
    split; [done|]. by eapply list_elem_of_lookup_2.
  - specialize (Hquiet i (lookup_lt_Some _ _ _ Hi)).
    destruct (visitTask_quiet _ _ _ _ _ _ _ _ Hquiet Hi) as [Hin|Hnone];
      [by left|right].
    apply predecessorsEnd_None in Hnone
      as (predId & j & tp & Hin & Hj & Htp & He); [|done|].
    + exists predId, tp. split; [done|]. split; [|done].
      rewrite (taskById_run _ _ _ Hstatic), Hj. done.
    + intros predId j (t0 & Ht0 & _)%indexTasks_Some.
      apply lookup_lt_is_Some. apply lookup_lt_Some in Ht0.
      apply (f_equal length) in Hstatic.
      rewrite !length_resetComputed in *. lia.
Qed.


Lemma rollForward_first holidayIn countries n : ∀ d s,
  rollForward holidayIn n d countries = Some s →
  firstBusinessDayFrom holidayIn countries d s.
Proof.
  induction n as [|n IH]; intros d s; simpl;
    destruct (nonWorking holidayIn d countries) eqn:E; try done.
  - intros [= <-]. exists 0. rewrite addDays_0. repeat split; [done|lia].
  - intros (k & -> & Hw & Hbefore)%IH. exists (S k).
    rewrite addDays_succ in *. repeat split; [done|].
    intros [|j] Hj; [by rewrite addDays_0|].
    rewrite <- addDays_succ. apply Hbefore. lia.
  - intros [= <-]. exists 0. rewrite addDays_0. repeat split; [done|lia].
Qed.

Lemma placeTask_start holidayIn fuel countries t m s e :
  placeTask holidayIn fuel countries t m = Some (s, e) →
  rollForward holidayIn fuel (applyOffset m (Task.manualStartOffset t))
    countries = Some s.
Proof.
  unfold placeTask. intros (s' & Hs & (e' & _ & [= <- <-])%bind_Some)%bind_Some.
  done.
Qed.

Lemma taskById_Some ts predId tp :
  taskById ts predId = Some tp →
  Task.id tp = predId ∧ ∃ j, ts !! j = Some tp.
Proof.
  unfold taskById. intros (j & Hj & Htp)%bind_Some.
  apply indexTasks_Some in Hj as (t & Ht & Hid).
  rewrite Htp in Ht. injection Ht as <-. eauto.
Qed.

Lemma latestPredecessorEnd_dangling ts preds startDate :
  (∀ predId, predId ∈ preds → predId ∉ (Task.id <$> ts)) →
  latestPredecessorEnd ts preds startDate = startDate.
Proof.
  unfold latestPredecessorEnd. revert startDate.
  induction preds as [|predId rest IH]; intros startDate Hall; simpl; [done|].
  destruct (taskById ts predId) as [tp|] eqn:Htp.
  - apply taskById_Some in Htp as [Hid [j Hj]].
    destruct (Hall predId ltac:(by left)).
    apply list_elem_of_fmap. exists tp. split; [done|].
    by eapply list_elem_of_lookup_2.
  - simpl. apply IH. intros p' Hin. apply Hall. by right.
Qed.

(** Every task of a scheduled project has its dates, is blocked by a
    predecessor without a computed end, or shares its id with a task that
    was scheduled in its place. *)
Lemma calculateSchedule_settled holidayIn fuel p p' i t :
  calculateSchedule holidayIn fuel p = Some p' →
  Project.tasks p' !! i = Some t →
  is_Some (Task.computedEnd t)
  ∨ blocked (Project.tasks p') t
  ∨ ∃ j t2, j ≠ i ∧ Project.tasks p' !! j = Some t2
            ∧ Task.id t2 = Task.id t ∧ is_Some (Task.computedEnd t2).
Proof.
  intros (st & Hrun & ->)%calculateSchedule_run Hi. simpl in *.
  pose proof (runSchedule_traced _ _ _ _ Hrun) as [_ _ Hids].
  destruct (runSchedule_settled _ _ _ _ Hrun) as [_ Hset].
  destruct (Hset _ _ Hi) as [(j & t2 & Hj & Hid & He)%Hids|Hb];
    [|by right; left].
  destruct (decide (j = i)) as [->|Hne].
  - rewrite Hi in Hj. injection Hj as <-. by left.
  - right. right. by exists j, t2.
Qed.

Lemma calculateSchedule_ids holidayIn fuel p p' :
  calculateSchedule holidayIn fuel p = Some p' →
  Task.id <$> Project.tasks p' = Task.id <$> Project.tasks p.
Proof.
  intros (_ & _ & _ & _ & Hs)%calculateSchedule_static.
  apply static_transfer; [done|].
  intros t t' Hst. by apply static_fields in Hst as (-> & _).
Qed.

Lemma computedEnd_scheduled holidayIn fuel p p' i t :
  calculateSchedule holidayIn fuel p = Some p' →
  Project.tasks p' !! i = Some t →
  is_Some (Task.computedEnd t) → scheduled t.
Proof.
  intros (st & Hrun & ->)%calculateSchedule_run Hi [e He]. simpl in Hi.
  destruct (runSchedule_consistent _ _ _ _ Hrun) as [_ Hplaced _ _ _].
  destruct (wellPlaced_cases _ _ _ _ (Hplaced _ _ Hi)) as [Hs|[_ Hn]];
    [done|congruence].
Qed.

(** Each task of the result is a task of the project, in the same slot,
    with other computed fields only. *)
Lemma calculateSchedule_source holidayIn fuel p p' i t' :
  calculateSchedule holidayIn fuel p = Some p' →
  Project.tasks p' !! i = Some t' →
  ∃ t, Project.tasks p !! i = Some t ∧ static t' = static t.
Proof.
  intros (_ & _ & _ & _ & Hs)%calculateSchedule_static Hi.
  destruct (resetComputed_eq_static _ _ _ _ Hs Hi) as (t & Ht & Hst). eauto.
Qed.

(** Without a cycle and with one task per id, nothing stays unscheduled. *)
Lemma acyclic_all_scheduled holidayIn fuel p p' rank :
  calculateSchedule holidayIn fuel p = Some p' →
  NoDup (Task.id <$> Project.tasks p) →
  ranked rank (Project.tasks p) →
  ∀ i t, Project.tasks p' !! i = Some t → scheduled t.
Proof.
  intros Hc Hnd Hrank.
  pose proof (calculateSchedule_ids _ _ _ _ Hc) as Hids.
  rewrite <- Hids in Hnd.
  assert (∀ n i t, Project.tasks p' !! i = Some t → rank (Task.id t) < n →
                   is_Some (Task.computedEnd t)) as Hall.
  { induction n as [|n IH]; intros i t Hi Hn; [lia|].
    destruct (calculateSchedule_settled _ _ _ _ _ _ Hc Hi)
      as [He|[(predId & tp & Hin & Htp & Hnone)|(j & t2 & Hne & Hj & Hid & _)]];
      [done| |].
    - apply taskById_Some in Htp as [Hid [j Hj]].
      destruct (calculateSchedule_source _ _ _ _ _ _ Hc Hi)
        as (t0 & Ht0 & Hst).
      apply static_fields in Hst as (Hid0 & _ & _ & _ & _ & _ & Hpreds & _).
      assert (rank predId < rank (Task.id t)) as Hlt.
      { rewrite Hid0. apply (Hrank t0 predId).
        - by eapply list_elem_of_lookup_2.
        - by rewrite <- Hpreds.
        - rewrite <- Hids. apply list_elem_of_fmap. exists tp.
          split; [done|]. by eapply list_elem_of_lookup_2. }
      destruct (IH j tp Hj) as [e He]; [rewrite Hid; lia|congruence].
    - destruct Hne. eapply (NoDup_lookup _ j i (Task.id t) Hnd);
        rewrite list_lookup_fmap.
      + by rewrite Hj, <- Hid.
      + by rewrite Hi. }
  intros i t Hi. eapply computedEnd_scheduled; [done|done|].
  apply (Hall (S (rank (Task.id t))) i t Hi). lia.
Qed.

Lemma Qfloor_zero_weeks w : Qis_zero w = true → Qfloor (w * 5) = 0%Z.
Proof.
  destruct w as [n d]. unfold Qis_zero, Qfloor. simpl. intros ->%Z.eqb_eq.
  done.
Qed.

(** ** The scheduler: further properties *)

(** X1. [calculateSchedule] keeps the number and the order of the tasks,
    numbers them 1, 2, ... in list order, and changes no field of a task
    other than [serialNumber], [computedStart] and [computedEnd]. *)
Theorem calculateSchedule_renumbers holidayIn fuel p p' :
  calculateSchedule holidayIn fuel p = Some p' →
  length (Project.tasks p') = length (Project.tasks p)
  ∧ ∀ i t', Project.tasks p' !! i = Some t' →
      Task.serialNumber t' = Some (i + 1)
      ∧ ∃ t, Project.tasks p !! i = Some t ∧ static t' = static t.
Proof.
  intros Hc. split.
  - apply calculateSchedule_static in Hc as (_ & _ & _ & _ & Hs).
    apply (f_equal length) in Hs. by rewrite !length_resetComputed in Hs.
  - intros i t' Hi. split; [|by eapply calculateSchedule_source].
    apply calculateSchedule_run in Hc as (st & Hrun & ->). simpl in Hi.
    destruct (runSchedule_traced _ _ _ _ Hrun) as [Hserial _ _]. eauto.
Qed.


(** X3. Scheduling a scheduled project again returns the same project. *)
Theorem calculateSchedule_idempotent holidayIn fuel p p' :
  calculateSchedule holidayIn fuel p = Some p' →
  calculateSchedule holidayIn fuel p' = Some p'.
Proof.
  intros Hc. transitivity (calculateSchedule holidayIn fuel p); [|done].
  apply calculateSchedule_ext. by apply calculateSchedule_static in Hc.
Qed.


(** X5. A predecessor id that no task of the project has counts as
    satisfied: a task whose predecessors are all of this kind (or that has
    none), and whose id no other task has, is scheduled, and it starts on
    the first business day at or after the project start moved by its
    manual offset. *)
Theorem dangling_predecessors_are_satisfied holidayIn fuel p p' i t :
  calculateSchedule holidayIn fuel p = Some p' →
  Project.tasks p !! i = Some t →
  (∀ j t2, Project.tasks p !! j = Some t2 → Task.id t2 = Task.id t → j = i) →
  (∀ predId, predId ∈ Task.predecessors t →
             predId ∉ (Task.id <$> Project.tasks p)) →
  ∃ t' s, Project.tasks p' !! i = Some t'
          ∧ static t' = static t
          ∧ Task.computedStart t' = Some s
          ∧ firstBusinessDayFrom holidayIn (Project.country p)
              (applyOffset (Project.startDate p) (Task.manualStartOffset t)) s.
Proof.
  intros Hc Hi Huniq Hdangling.
  destruct (calculateSchedule_lookup _ _ _ _ _ _ Hc Hi) as (t' & Hi' & Hst).
  pose proof (static_fields _ _ Hst)
    as (Hid & _ & _ & _ & _ & _ & Hpreds & Hoff).
  pose proof (calculateSchedule_ids _ _ _ _ Hc) as Hids.
  assert (is_Some (Task.computedEnd t')) as He.
  { destruct (calculateSchedule_settled _ _ _ _ _ _ Hc Hi')
      as [He|[(predId & tp & Hin & Htp & _)|(j & t2 & Hne & Hj & Hid2 & _)]];
      [done| |].
    - apply taskById_Some in Htp as [Hidp [j Hj]].
      destruct (Hdangling predId); [by rewrite <- Hpreds|].
      rewrite <- Hids. apply list_elem_of_fmap. exists tp.
      split; [done|]. by eapply list_elem_of_lookup_2.
    - destruct (calculateSchedule_source _ _ _ _ _ _ Hc Hj)
        as (t0 & Ht0 & Hst0).
      apply static_fields in Hst0 as (Hid0 & _).
      destruct Hne. apply (Huniq j t0 Ht0). congruence. }
  destruct (computedEnd_scheduled _ _ _ _ _ _ Hc Hi' He) as [[s Hs] _].
  exists t', s. repeat split; try done.
  apply calculateSchedule_run in Hc as (st & Hrun & ->). simpl in *.
  destruct (runSchedule_consistent _ _ _ _ Hrun) as [Hstatic _ _ _ _].
  destruct (runSchedule_traced _ _ _ _ Hrun) as [_ Hplaced _].
  destruct (Hplaced _ _ _ Hi' Hs) as (m & e & Hm & Hp & _).
  apply predecessorsEnd_latest in Hm;
    [|intros predId; by rewrite (indexTasks_resetComputed _ _ Hstatic)].
  rewrite latestPredecessorEnd_dangling in Hm
    by (intros predId Hin; rewrite Hids, Hpreds in *; by apply Hdangling).
  subst m. apply placeTask_start in Hp. rewrite Hoff in Hp.
  by eapply rollForward_first.
Qed.

(** X6. In a project where every id belongs to one task and the
    dependencies have no cycle, every task is scheduled. *)
Theorem acyclic_project_fully_scheduled holidayIn fuel p p' rank i t :
  calculateSchedule holidayIn fuel p = Some p' →
  NoDup (Task.id <$> Project.tasks p) →
  ranked rank (Project.tasks p) →
  Project.tasks p' !! i = Some t →
  scheduled t.
Proof. intros Hc Hnd Hrank. by eapply acyclic_all_scheduled. Qed.

(** X7. The scheduler runs over the tasks at most once per task, so the
    cap of three runs per task is never what stops it; and a task that it
    leaves without dates is blocked by a predecessor without a computed
    end, or shares its id with a task that was scheduled. *)
Theorem scheduler_stops_settled holidayIn fuel p st :
  runSchedule holidayIn fuel p = Some st →
  passes st ≤ length (Project.tasks p)
  ∧ ∀ i t, objects st !! i = Some t → unscheduled t →
      blocked (objects st) t
      ∨ ∃ j t2, j ≠ i ∧ objects st !! j = Some t2
                ∧ Task.id t2 = Task.id t ∧ scheduled t2.
Proof.
  intros Hrun. split; [by apply runSchedule_settled in Hrun as [? _]|].
  intros i t Hi [_ Hnone].
  assert (calculateSchedule holidayIn fuel p
          = Some (Project.setTasks p (objects st))) as Hc
    by (unfold calculateSchedule; by rewrite Hrun).
  destruct (calculateSchedule_settled _ _ _ _ _ _ Hc Hi)
    as [[e He]|[Hb|(j & t2 & Hne & Hj & Hid & He)]];
    [congruence|by left|right].
  exists j, t2. repeat split; try done;
    by destruct (computedEnd_scheduled _ _ _ _ _ _ Hc Hj He).
Qed.

(** ** The calendar: further properties *)

Section CalendarMore.

Context (holidayIn : HolidayOracle).

Lemma addDays_add d a b : addDays (addDays d a) b = addDays d (a + b).
Proof. unfold addDays. lia. Qed.

Lemma getDay_addDays d k : getDay (addDays d k) = ((getDay d + k) mod 7)%Z.
Proof.
  unfold getDay, addDays. rewrite Z.div_add by done.
  rewrite Z.add_mod_idemp_l by done. f_equal. lia.
Qed.

Lemma getDay_range d : (0 ≤ getDay d < 7)%Z.
Proof. unfold getDay. apply Z.mod_pos_bound. lia. Qed.

Lemma nonWorking_nil d : nonWorking holidayIn d [] = isWeekend d.
Proof. unfold nonWorking. simpl. apply orb_false_r. Qed.

Lemma isWeekend_addDays d k :
  isWeekend (addDays d k)
  = (((getDay d + k) mod 7 =? 0) || ((getDay d + k) mod 7 =? 6))%Z.
Proof. unfold isWeekend. by rewrite getDay_addDays. Qed.

Lemma countBusinessDays_step n curr end_ countries c :
  (curr < end_)%Z →
  countBusinessDays holidayIn (S n) curr end_ countries c
  = countBusinessDays holidayIn n (addDays curr 1) end_ countries
      (if nonWorking holidayIn curr countries then c else (c + 1)%Z).
Proof. intros H%Z.ltb_lt. simpl. by rewrite H. Qed.

Lemma addWorkingDays_step n k current countries :
  (0 < k)%Z →
  addWorkingDays holidayIn (S n) k current countries
  = if nonWorking holidayIn (addDays current 1) countries
    then addWorkingDays holidayIn n k (addDays current 1) countries
    else addWorkingDays holidayIn n (decrement k) (addDays current 1)
           countries.
Proof. intros H%Z.ltb_lt. simpl. by rewrite H. Qed.

(** More fuel does not change a result. *)
Lemma addWorkingDays_fuel n n' k d countries e :
  addWorkingDays holidayIn n k d countries = Some e → n ≤ n' →
  addWorkingDays holidayIn n' k d countries = Some e.
Proof.
  revert n' k d. induction n as [|n IH]; intros n' k d; simpl.
  - destruct (0 <? k)%Z eqn:E; [done|]. intros [= <-] _.
    apply addWorkingDays_done. lia.
  - destruct (0 <? k)%Z eqn:E.
    + intros Hrun Hle. destruct n' as [|n']; [lia|]. simpl. rewrite E.
      destruct (nonWorking holidayIn (addDays d 1) countries);
        apply IH; (done || lia).
    + intros [= <-] _. apply addWorkingDays_done. lia.
Qed.

(** The number of day steps from [start] up to [end_]. *)
Lemma countBusinessDays_bounded n : ∀ curr end_ countries c,
  (curr < end_)%Z →
  ((end_ - curr + msPerDay - 1) / msPerDay ≤ Z.of_nat n)%Z →
  ∃ r, countBusinessDays holidayIn n curr end_ countries c = Some r
       ∧ (c ≤ r ≤ c + (end_ - curr + msPerDay - 1) / msPerDay)%Z.
Proof.
  induction n as [|n IH]; intros curr end_ countries c Hlt Hn.
  - exfalso. unfold msPerDay in *. Z.to_euclidean_division_equations. lia.
  - rewrite countBusinessDays_step by done.
    destruct (Z_lt_le_dec (addDays curr 1) end_) as [Hmore|Hlast].
    + edestruct (IH (addDays curr 1) end_ countries) as (r & -> & Hr);
        [done| |].
      * unfold addDays, msPerDay in *.
        Z.to_euclidean_division_equations. lia.
      * exists r. split; [done|].
        destruct (nonWorking holidayIn curr countries);
          unfold addDays, msPerDay in *;
          Z.to_euclidean_division_equations; lia.
    + rewrite countBusinessDays_done by done. eexists. split; [done|].
      destruct (nonWorking holidayIn curr countries);
        unfold addDays, msPerDay in *;
        Z.to_euclidean_division_equations; lia.
Qed.

End CalendarMore.
Section CalendarWeeks.

Context (holidayIn : HolidayOracle).

Lemma getDay_cases d :
  getDay d = 0%Z ∨ getDay d = 1%Z ∨ getDay d = 2%Z ∨ getDay d = 3%Z
  ∨ getDay d = 4%Z ∨ getDay d = 5%Z ∨ getDay d = 6%Z.
Proof. pose proof (getDay_range d). lia. Qed.

Lemma isWeekend_week d : isWeekend (addDays d 7) = isWeekend d.
Proof.
  unfold isWeekend. rewrite getDay_addDays.
  replace ((getDay d + 7) mod 7)%Z with (getDay d); [done|].
  pose proof (getDay_range d). Z.to_euclidean_division_equations. lia.
Qed.

(** Seven days on, five more business days are counted. *)
Lemma countBusinessDays_week n d end_ c :
  (addDays d 7 ≤ end_)%Z →
  countBusinessDays holidayIn (7 + n) d end_ [] c
  = countBusinessDays holidayIn n (addDays d 7) end_ [] (c + 5)%Z.
Proof.
  intros Hend. change (7 + n) with (S (S (S (S (S (S (S n))))))).
  do 7 (rewrite countBusinessDays_step
          by (unfold addDays, msPerDay in *; lia);
        rewrite ?addDays_add; simpl Z.add).
  rewrite !nonWorking_nil, !isWeekend_addDays. unfold isWeekend.
  destruct (getDay_cases d) as [H|[H|[H|[H|[H|[H|H]]]]]]; rewrite H;
    simpl; f_equal; lia.
Qed.

(** From a working day, the fifth working day is seven days on. *)
Lemma addWorkingDays_week n k d :
  isWeekend d = false → (5 ≤ k ≤ maxExact)%Z →
  addWorkingDays holidayIn (7 + n) k d []
  = addWorkingDays holidayIn n (k - 5) (addDays d 7) [].
Proof.
  intros Hd Hk. change (7 + n) with (S (S (S (S (S (S (S n))))))).
  unfold isWeekend in Hd.
  destruct (getDay_cases d) as [H|[H|[H|[H|[H|[H|H]]]]]];
    rewrite H in Hd; try discriminate Hd;
    do 7 (rewrite addWorkingDays_step by lia;
          rewrite ?addDays_add; simpl Z.add;
          rewrite nonWorking_nil, isWeekend_addDays, H;
          match goal with
          | |- context [if ?b then _ else _] =>
              let b' := eval vm_compute in b in change b with b'
          end;
          cbv iota;
          rewrite ?decrement_exact by lia);
    f_equal; lia.
Qed.

Lemma addWorkingDays_weeks (n : nat) : ∀ m d,
  isWeekend d = false → (5 * Z.of_nat n ≤ maxExact)%Z →
  addWorkingDays holidayIn (7 * n + m) (5 * Z.of_nat n) d []
  = Some (addDays d (7 * Z.of_nat n)).
Proof.
  induction n as [|n IH]; intros m d Hd Hn.
  - rewrite addWorkingDays_done by lia. by rewrite addDays_0.
  - replace (7 * S n + m) with (7 + (7 * n + m)) by lia.
    rewrite addWorkingDays_week by (done || lia).
    replace (5 * Z.of_nat (S n) - 5)%Z with (5 * Z.of_nat n)%Z by lia.
    rewrite IH by (by rewrite isWeekend_week || lia).
    rewrite addDays_add. f_equal. f_equal. lia.
Qed.

Lemma countBusinessDays_weeks (n : nat) : ∀ m d c,
  countBusinessDays holidayIn (7 * n + m) d (addDays d (7 * Z.of_nat n)) [] c
  = Some (c + 5 * Z.of_nat n)%Z.
Proof.
  induction n as [|n IH]; intros m d c.
  - rewrite countBusinessDays_done by (rewrite addDays_0; lia).
    f_equal. lia.
  - replace (7 * S n + m) with (7 + (7 * n + m)) by lia.
    rewrite countBusinessDays_week
      by (unfold addDays, msPerDay; lia).
    replace (addDays d (7 * Z.of_nat (S n)))
      with (addDays (addDays d 7) (7 * Z.of_nat n))
      by (rewrite addDays_add; f_equal; lia).
    rewrite IH. f_equal. lia.
Qed.

End CalendarWeeks.

(** X8. [getBusinessDays] ends after one step per day between its two
    dates, and its count is at least 0 and at most that number of days. *)
Theorem getBusinessDays_bounded holidayIn fuel start end_ countries :
  (start < end_)%Z →
  ((end_ - start + msPerDay - 1) / msPerDay ≤ Z.of_nat fuel)%Z →
  ∃ c, getBusinessDays holidayIn fuel start end_ countries = Some c
       ∧ (0 ≤ c ≤ (end_ - start + msPerDay - 1) / msPerDay)%Z.
Proof.
  intros Hlt Hfuel. unfold getBusinessDays.
  destruct (countBusinessDays_bounded holidayIn fuel start end_ countries 0%Z
              Hlt Hfuel) as (c & Hc & Hr).
  exists c. split; [done|lia].
Qed.

(** X9. For a project without jurisdictions, a span of [n] calendar weeks
    has [5 × n] business days, whatever the day it starts on. *)
Theorem getBusinessDays_whole_weeks holidayIn fuel d (n : nat) :
  7 * n ≤ fuel →
  getBusinessDays holidayIn fuel d (addDays d (7 * Z.of_nat n)) []
  = Some (5 * Z.of_nat n)%Z.
Proof.
  intros Hfuel. unfold getBusinessDays.
  replace fuel with (7 * n + (fuel - 7 * n)) by lia.
  by rewrite countBusinessDays_weeks.
Qed.

Lemma Qfloor_whole_weeks w (n : nat) :
  w == inject_Z (Z.of_nat n) → Qfloor (w * 5) = (5 * Z.of_nat n)%Z.
Proof.
  intros Hw.
  assert (w * 5 == inject_Z (5 * Z.of_nat n)) as H5.
  { rewrite Hw. unfold Qeq, inject_Z. simpl. lia. }
  by rewrite (Qfloor_comp _ _ H5), Qfloor_Z.
Qed.

(** X10. One week is five business days: in a project without
    jurisdictions, a scheduled task of [n] whole weeks ends exactly [7 × n]
    calendar days after it starts. *)
Theorem whole_weeks_span holidayIn fuel p p' i t s e (n : nat) :
  calculateSchedule holidayIn fuel p = Some p' →
  Project.country p = [] →
  Project.tasks p' !! i = Some t →
  Task.computedStart t = Some s →
  Task.computedEnd t = Some e →
  Task.durationWeeks t == inject_Z (Z.of_nat n) →
  e = addDays s (7 * Z.of_nat n).
Proof.
  intros (st & Hrun & ->)%calculateSchedule_run Hnil Hi Hs He Hn. simpl in Hi.
  destruct (runSchedule_consistent _ _ _ _ Hrun) as [_ Hplaced _ _ _].
  specialize (Hplaced _ _ Hi). unfold wellPlaced in Hplaced.
  rewrite Hs, He, Hnil, nonWorking_nil in Hplaced.
  destruct Hplaced as [Hw Hend].
  pose proof (Qfloor_whole_weeks _ _ Hn) as Hfloor.
  destruct (Qis_zero (Task.durationWeeks t)) eqn:Hz.
  - rewrite (Qfloor_zero_weeks _ Hz) in Hfloor.
    replace (7 * Z.of_nat n)%Z with 0%Z by lia. by rewrite addDays_0.
  - rewrite Hfloor in Hend.
    pose proof (addWorkingDays_exact _ _ _ _ _ _ Hend) as Hexact.
    apply (addWorkingDays_fuel _ _ (7 * n + fuel)) in Hend; [|lia].
    rewrite addWorkingDays_weeks in Hend by done. congruence.
Qed.

(** ** The compression engine: further properties *)

Lemma applyRatio_scaled b a sd x :
  (0 < sd)%Z → (0 < a)%Z →
  applyRatio b a sd x
  = Project.setTasks x (scaleBlock b (ratioOf a sd) (Project.tasks x)).
Proof.
  intros Hsd Ha. unfold applyRatio.
  by rewrite (proj2 (Z.ltb_lt 0 sd) Hsd), (proj2 (Z.ltb_lt 0 a) Ha).
Qed.

Lemma applyRatio_cases b a sd x :
  applyRatio b a sd x = x
  ∨ ((0 < sd)%Z ∧ (0 < a)%Z
     ∧ applyRatio b a sd x
       = Project.setTasks x (scaleBlock b (ratioOf a sd) (Project.tasks x))).
Proof.
  destruct (Z_lt_le_dec 0 sd) as [Hsd|Hsd], (Z_lt_le_dec 0 a) as [Ha|Ha];
    [right; by rewrite applyRatio_scaled
    |left; apply applyRatio_skip; lia..].
Qed.

(** A property that the reset establishes and that scheduling and scaling
    a block by a positive ratio keep holds of the result of
    [compressSchedule]. *)
Lemma compressSchedule_invariant holidayIn fuel (P : Project → Prop) p m s q :
  P (resetProject p) →
  (∀ x y, P x → calculateSchedule holidayIn fuel x = Some y → P y) →
  (∀ x b a sd, P x → b = inBlock1 ∨ b = inBlock2 → (0 < sd)%Z → (0 < a)%Z →
     P (Project.setTasks x (scaleBlock b (ratioOf a sd) (Project.tasks x)))) →
  compressSchedule holidayIn fuel p m s = Some q →
  P q.
Proof.
  intros H0 Hcalc Hscale
    [(_ & _ & Hc)|(_ & p1 & p2 & H1 & H2 & Hc)]%compressSchedule_stages;
    [by eapply Hcalc|].
  eapply Hcalc; [|done].
  assert (P p1) as Hp1.
  { destruct m as [md|]; simpl in H1; [|by injection H1 as <-].
    apply compressBlock1_Some in H1 as (tp & a & sd & _ & Hc1 & ->).
    pose proof (Hcalc _ _ H0 Hc1) as Htp.
    destruct (applyRatio_cases inBlock1 a sd tp) as [->|(? & ? & ->)];
      [done|]. apply Hscale; auto. }
  destruct s as [sg|]; simpl in H2; [|by injection H2 as <-].
  apply compressBlock2_Some in H2 as (tp & days & _ & Hc2 & ->).
  pose proof (Hcalc _ _ Hp1 Hc2) as Htp.
  destruct days as [[a sd]|]; [|done].
  destruct (applyRatio_cases inBlock2 a sd tp) as [->|(? & ? & ->)];
    [done|]. apply Hscale; auto.
Qed.

Lemma Qpositive_ratioOf a sd :
  (0 < sd)%Z → (0 < a)%Z → Qpositive (ratioOf a sd) = true.
Proof.
  intros Hsd Ha. unfold Qpositive, ratioOf, Qdiv, Qinv, inject_Z.
  destruct sd as [|sd|sd]; simpl; lia.
Qed.

Lemma Qpositive_mult x y :
  Qpositive x = true → Qpositive y = true → Qpositive (x * y) = true.
Proof.
  unfold Qpositive. destruct x, y. simpl.
  intros ?%Z.ltb_lt ?%Z.ltb_lt. apply Z.ltb_lt. nia.
Qed.

Lemma ratioOk_resetOne t : ratioOk (resetOne t).
Proof.
  unfold ratioOk, resetOne.
  destruct (Qpositive (Task.originalDurationWeeks t)) eqn:E; simpl;
    [|congruence].
  intros _. split; [by rewrite Qmult_1_r|done].
Qed.

Lemma ratioOk_static t t' : static t' = static t → ratioOk t → ratioOk t'.
Proof.
  intros (_ & _ & _ & Hd & Ho & Hc & _)%static_fields. unfold ratioOk.
  by rewrite Hd, Ho, Hc.
Qed.

Lemma ratioOk_scaleOne b r t :
  Qpositive r = true → ratioOk t → ratioOk (scaleOne b r t).
Proof.
  intros Hr Hok. unfold scaleOne.
  destruct (b t && Qpositive (Task.durationWeeks t)); [|done].
  unfold ratioOk. simpl. intros Ho.
  split; [reflexivity|]. split; [done|]. by apply Qpositive_mult.
Qed.

(** X11. After [compressSchedule], every task with a positive
    [originalDurationWeeks] has [durationWeeks] equal to
    [originalDurationWeeks × compressionRatio], and both its ratio and its
    duration are positive. *)
Theorem compressSchedule_ratio holidayIn fuel p m s q i t :
  compressSchedule holidayIn fuel p m s = Some q →
  Project.tasks q !! i = Some t →
  Qpositive (Task.originalDurationWeeks t) = true →
  Task.durationWeeks t == Task.originalDurationWeeks t * Task.compressionRatio t
  ∧ Qpositive (Task.compressionRatio t) = true
  ∧ Qpositive (Task.durationWeeks t) = true.
Proof.
  intros Hq Hi.
  assert (Forall ratioOk (Project.tasks q)) as Hall.
  { apply (compressSchedule_invariant holidayIn fuel
             (λ x, Forall ratioOk (Project.tasks x)) p m s q); [| | |done].
    - simpl. unfold resetDurations. apply Forall_fmap, Forall_forall.
      intros t0 _. apply ratioOk_resetOne.
    - intros x y Hx (_ & _ & _ & _ & Hs)%calculateSchedule_static.
      eapply static_Forall; [done| |done]. apply ratioOk_static.
    - intros x b a sd Hx _ Hsd Ha. simpl. unfold scaleBlock.
      apply Forall_fmap. eapply Forall_impl; [done|].
      intros t0. apply ratioOk_scaleOne. by apply Qpositive_ratioOf. }
  rewrite Forall_lookup in Hall. apply (Hall _ _ Hi).
Qed.

Lemma scaleOne_other b r t : b t = false → scaleOne b r t = t.
Proof. intros Hb. unfold scaleOne. by rewrite Hb. Qed.

Lemma scaleOne_scaled b r t :
  b t = true → Qpositive (Task.durationWeeks t) = true →
  scaleOne b r t
  = Task.setDuration t (Task.originalDurationWeeks t * r) r.
Proof. intros Hb Hd. unfold scaleOne. by rewrite Hb, Hd. Qed.

(** X12. After [compressSchedule] there are two ratios, one per block:
    every Block 1 task with a positive baseline has the first as its
    [compressionRatio], and every other task with a positive baseline has
    the second. *)
Theorem compressSchedule_uniform holidayIn fuel p m s q :
  compressSchedule holidayIn fuel p m s = Some q →
  ∃ r1 r2, ∀ i t,
    Project.tasks q !! i = Some t →
    Qpositive (Task.originalDurationWeeks t) = true →
    Task.compressionRatio t = if inBlock1 t then r1 else r2.
Proof.
  intros Hq.
  assert (∃ r1 r2, ∀ i t,
            Project.tasks q !! i = Some t →
            Qpositive (Task.originalDurationWeeks t) = true →
            Qpositive (Task.durationWeeks t) = true
            ∧ Task.compressionRatio t = if inBlock1 t then r1 else r2)
    as (r1 & r2 & Hall).
  { apply (compressSchedule_invariant holidayIn fuel
             (λ x, ∃ r1 r2, ∀ i t,
                Project.tasks x !! i = Some t →
                Qpositive (Task.originalDurationWeeks t) = true →
                Qpositive (Task.durationWeeks t) = true
                ∧ Task.compressionRatio t = if inBlock1 t then r1 else r2)
             p m s q); [| | |done].
    - exists 1%Q, 1%Q. intros i t. simpl. unfold resetDurations.
      rewrite list_lookup_fmap.
      destruct (Project.tasks p !! i) as [t0|]; [|done]. intros [= <-].
      unfold resetOne.
      destruct (Qpositive (Task.originalDurationWeeks t0)) eqn:E; simpl;
        [|congruence].
      intros _. split; [done|]. by destruct (inBlock1 _).
    - intros x y (r1 & r2 & Hx) Hc. exists r1, r2. intros i t Hi.
      destruct (calculateSchedule_source _ _ _ _ _ _ Hc Hi)
        as (t0 & Ht0 & Hst).
      apply static_fields in Hst as (_ & _ & Hp & Hd & Ho & Hr & _).
      rewrite Hd, Ho, Hr, (inBlock1_phase _ _ Hp). by apply (Hx i).
    - intros x b a sd (r1 & r2 & Hx) Hb Hsd Ha.
      pose proof (Qpositive_ratioOf _ _ Hsd Ha) as Hr.
      assert (∀ t0, inBlock1 (scaleOne b (ratioOf a sd) t0) = inBlock1 t0)
        as Hblock.
      { intros t0. apply inBlock1_phase. unfold scaleOne.
        by destruct (b t0 && Qpositive (Task.durationWeeks t0)). }
      assert (∀ t0, Qpositive (Task.originalDurationWeeks t0) = true →
                Qpositive (Task.durationWeeks t0) = true →
                Qpositive (Task.originalDurationWeeks
                             (scaleOne b (ratioOf a sd) t0)) = true
                ∧ Qpositive (Task.durationWeeks
                               (scaleOne b (ratioOf a sd) t0)) = true)
        as Hpos.
      { intros t0 Ho Hd. unfold scaleOne.
        destruct (b t0 && Qpositive (Task.durationWeeks t0)); simpl;
          [|done]. split; [done|]. by apply Qpositive_mult. }
      assert (∀ t0, Task.originalDurationWeeks (scaleOne b (ratioOf a sd) t0)
                    = Task.originalDurationWeeks t0) as Horig.
      { intros t0. unfold scaleOne.
        by destruct (b t0 && Qpositive (Task.durationWeeks t0)). }
      destruct Hb as [->| ->].
      + exists (ratioOf a sd), r2. intros i t. simpl. unfold scaleBlock.
        rewrite list_lookup_fmap.
        destruct (Project.tasks x !! i) as [t0|] eqn:Hi; [|done].
        intros [= <-]. rewrite Horig, Hblock. intros Ho.
        destruct (Hx _ _ Hi Ho) as [Hd Hcr].
        split; [by apply Hpos|].
        destruct (inBlock1 t0) eqn:Hb.
        * by rewrite scaleOne_scaled.
        * by rewrite scaleOne_other.
      + exists r1, (ratioOf a sd). intros i t. simpl. unfold scaleBlock.
        rewrite list_lookup_fmap.
        destruct (Project.tasks x !! i) as [t0|] eqn:Hi; [|done].
        intros [= <-]. rewrite Horig, Hblock. intros Ho.
        destruct (Hx _ _ Hi Ho) as [Hd Hcr].
        split; [by apply Hpos|].
        destruct (inBlock1 t0) eqn:Hb.
        * rewrite scaleOne_other; [done|]. unfold inBlock2. by rewrite Hb.
        * rewrite scaleOne_scaled; [done| |done]. unfold inBlock2.
          by rewrite Hb. }
  exists r1, r2. intros i t Hi Ho. by destruct (Hall _ _ Hi Ho).
Qed.

Lemma identity_static t t' : static t' = static t → identity t' = identity t.
Proof. unfold identity. by intros ->. Qed.

Lemma identity_resetOne t : identity (resetOne t) = identity t.
Proof.
  unfold resetOne. by destruct (Qpositive (Task.originalDurationWeeks t)).
Qed.

Lemma identity_scaleOne b r t : identity (scaleOne b r t) = identity t.
Proof.
  unfold scaleOne. by destruct (b t && Qpositive (Task.durationWeeks t)).
Qed.

Lemma identity_fields t t' :
  identity t' = identity t →
  Task.id t' = Task.id t ∧ Task.name t' = Task.name t
  ∧ Task.phase t' = Task.phase t
  ∧ Task.originalDurationWeeks t' = Task.originalDurationWeeks t
  ∧ Task.predecessors t' = Task.predecessors t
  ∧ Task.type t' = Task.type t
  ∧ Task.manualStartOffset t' = Task.manualStartOffset t.
Proof. destruct t, t'. unfold identity, static. simpl. intros [=]. by subst. Qed.

(** X13. [compressSchedule] changes neither the project's name, start
    date, jurisdictions and VDD flag, nor the number or order of the tasks,
    nor the id, name, phase, baseline, predecessors, type and manual offset
    of any task. *)
Theorem compressSchedule_frame holidayIn fuel p m s q :
  compressSchedule holidayIn fuel p m s = Some q →
  Project.name q = Project.name p
  ∧ Project.startDate q = Project.startDate p
  ∧ Project.country q = Project.country p
  ∧ Project.vddEnabled q = Project.vddEnabled p
  ∧ length (Project.tasks q) = length (Project.tasks p)
  ∧ ∀ i t', Project.tasks q !! i = Some t' →
      ∃ t, Project.tasks p !! i = Some t
        ∧ Task.id t' = Task.id t ∧ Task.name t' = Task.name t
        ∧ Task.phase t' = Task.phase t
        ∧ Task.originalDurationWeeks t' = Task.originalDurationWeeks t
        ∧ Task.predecessors t' = Task.predecessors t
        ∧ Task.type t' = Task.type t
        ∧ Task.manualStartOffset t' = Task.manualStartOffset t.
Proof.
  intros Hq.
  assert (Project.name q = Project.name p
          ∧ Project.startDate q = Project.startDate p
          ∧ Project.country q = Project.country p
          ∧ Project.vddEnabled q = Project.vddEnabled p
          ∧ identity <$> Project.tasks q = identity <$> Project.tasks p)
    as (Hn & Hs & Hc & Hv & Hid).
  { apply (compressSchedule_invariant holidayIn fuel
             (λ x, Project.name x = Project.name p
                   ∧ Project.startDate x = Project.startDate p
                   ∧ Project.country x = Project.country p
                   ∧ Project.vddEnabled x = Project.vddEnabled p
                   ∧ identity <$> Project.tasks x
                     = identity <$> Project.tasks p)
             p m s q); [| | |done].
    - simpl. repeat split. unfold resetDurations.
      rewrite <- list_fmap_compose. apply list_fmap_ext.
      intros i t _. apply identity_resetOne.
    - intros x y (Hn & Hs & Hc & Hv & Hid)
        (Hn' & Hs' & Hc' & Hv' & Ht)%calculateSchedule_static.
      repeat split; try congruence.
      rewrite <- Hid. apply static_transfer; [done|]. apply identity_static.
    - intros x b a sd (Hn & Hs & Hc & Hv & Hid) _ _ _. simpl.
      repeat split; try done. unfold scaleBlock.
      rewrite <- Hid, <- list_fmap_compose. apply list_fmap_ext.
      intros i t _. apply identity_scaleOne. }
  repeat split; try done.
  - apply (f_equal length) in Hid. by rewrite !length_fmap in Hid.
  - intros i t' Hi. apply (f_equal (λ l, l !! i)) in Hid.
    rewrite !list_lookup_fmap, Hi in Hid.
    destruct (Project.tasks p !! i) as [t|]; [|done].
    exists t. split; [done|]. apply identity_fields.
    simpl in Hid. congruence.
Qed.

Lemma calculateSchedule_again holidayIn fuel p p' :
  calculateSchedule holidayIn fuel p = Some p' →
  calculateSchedule holidayIn fuel p' = Some p'.
Proof.
  intros Hc. transitivity (calculateSchedule holidayIn fuel p); [|done].
  apply calculateSchedule_ext. by apply calculateSchedule_static in Hc.
Qed.

(** X14. The project that [compressSchedule] returns is scheduled with its
    final durations: scheduling it again returns it unchanged. *)
Theorem compressSchedule_is_scheduled holidayIn fuel p m s q :
  compressSchedule holidayIn fuel p m s = Some q →
  calculateSchedule holidayIn fuel q = Some q.
Proof.
  intros [(_ & _ & Hc)|(_ & p1 & p2 & _ & _ & Hc)]%compressSchedule_stages;
    by eapply calculateSchedule_again.
Qed.

Lemma scaleBlock_lookup_scaled b r x i t :
  Project.tasks x !! i = Some t →
  b t = true → Qpositive (Task.durationWeeks t) = true →
  Project.tasks (Project.setTasks x (scaleBlock b r (Project.tasks x))) !! i
  = Some (Task.setDuration t (Task.originalDurationWeeks t * r) r).
Proof.
  intros Hi Hb Hd. simpl. unfold scaleBlock.
  by rewrite list_lookup_fmap, Hi, <- (scaleOne_scaled b r t Hb Hd).
Qed.

Lemma resetOne_positive t :
  Qpositive (Task.originalDurationWeeks t) = true →
  Task.durationWeeks (resetOne t) = Task.originalDurationWeeks t
  ∧ Task.originalDurationWeeks (resetOne t) = Task.originalDurationWeeks t
  ∧ Task.phase (resetOne t) = Task.phase t.
Proof. intros Ho. unfold resetOne. by rewrite Ho. Qed.

(** X15. When the [standardDays] and the [availableDays] of a block are
    both positive, every task of the block with a positive baseline leaves
    [compressSchedule] with [compressionRatio = availableDays / standardDays]
    and [durationWeeks = originalDurationWeeks × ratio], for Block 1 and
    for Block 2. *)
Theorem compression_scales_block holidayIn fuel p m s q :
  compressSchedule holidayIn fuel p m s = Some q →
  (∀ md tp a sd,
     m = Some md →
     block1Days holidayIn fuel (resetProject p) md = Some (tp, a, sd) →
     (0 < sd)%Z → (0 < a)%Z →
     ∀ i t,
       Project.tasks p !! i = Some t → inBlock1 t = true →
       Qpositive (Task.originalDurationWeeks t) = true →
       ∃ t', Project.tasks q !! i = Some t'
         ∧ Task.compressionRatio t' = ratioOf a sd
         ∧ Task.durationWeeks t'
           = (Task.originalDurationWeeks t * ratioOf a sd)%Q)
  ∧ (∀ sg p1 tp a sd,
       s = Some sg →
       block1Stage holidayIn fuel (resetProject p) m = Some p1 →
       block2Days holidayIn fuel p1 sg = Some (tp, Some (a, sd)) →
       (0 < sd)%Z → (0 < a)%Z →
       ∀ i t,
         Project.tasks p !! i = Some t → inBlock2 t = true →
         Qpositive (Task.originalDurationWeeks t) = true →
         ∃ t', Project.tasks q !! i = Some t'
           ∧ Task.compressionRatio t' = ratioOf a sd
           ∧ Task.durationWeeks t'
             = (Task.originalDurationWeeks t * ratioOf a sd)%Q).
Proof.
  intros Hq.
  apply compressSchedule_stages in Hq
    as [(-> & -> & _)|(_ & p1 & p2 & H1 & H2 & Hc)].
  { split; [intros ? ? ? ? [=]|intros ? ? ? ? ? [=]]. }
  split.
  - intros md tp a sd -> Hdays Hsd Ha i t Hi Hb Ho. simpl in H1.
    apply compressBlock1_Some in H1 as (tp' & a' & sd' & Hd' & Hc1 & ->).
    rewrite Hdays in Hd'. injection Hd' as <- <- <-.
    rewrite applyRatio_scaled in H2 by done.
    destruct (resetOne_positive t Ho) as (Hdur & Horig & Hphase).
    destruct (calculateSchedule_lookup _ _ _ _ _ _ Hc1
                (resetProject_lookup _ _ _ Hi)) as (t1 & Ht1 & Hst).
    apply static_fields in Hst as (_ & _ & Hp1 & Hd1 & Ho1 & _).
    assert (inBlock1 t1 = true) as Hb1
      by (rewrite (inBlock1_phase t t1); [done|congruence]).
    pose proof (scaleBlock_lookup_scaled inBlock1 (ratioOf a sd) tp i t1
                  Ht1 Hb1 ltac:(congruence)) as Ht2.
    assert (keepsDurations inBlock1
              (Project.setTasks tp
                 (scaleBlock inBlock1 (ratioOf a sd) (Project.tasks tp))) q)
      as Hkeep.
    { eapply keepsDurations_trans; [apply inBlock1_phase| |].
      - by eapply keepsDurations_block2Stage.
      - by eapply keepsDurations_calculateSchedule. }
    destruct (Hkeep _ _ Ht2) as (t' & Ht' & _ & _ & Hsame).
    destruct (Hsame Hb1) as [Hd' Hr']. simpl in Hd', Hr'.
    exists t'. split; [done|]. split; [done|]. congruence.
  - intros sg p1' tp a sd -> Hp1 Hdays Hsd Ha i t Hi Hb Ho.
    rewrite H1 in Hp1. injection Hp1 as <-. simpl in H2.
    apply compressBlock2_Some in H2 as (tp' & days' & Hd' & Hc2 & ->).
    rewrite Hdays in Hd'. injection Hd' as <- <-.
    rewrite applyRatio_scaled in Hc by done.
    destruct (resetOne_positive t Ho) as (Hdur & Horig & Hphase).
    destruct (keepsDurations_block1Stage _ _ _ _ _ H1 _ _
                (resetProject_lookup _ _ _ Hi))
      as (t0 & Ht0 & Hp0 & Ho0 & Hsame0).
    destruct Hsame0 as [Hd0 _];
      [by rewrite (inBlock2_phase t) by done|].
    destruct (calculateSchedule_lookup _ _ _ _ _ _ Hc2 Ht0)
      as (t1 & Ht1 & Hst).
    apply static_fields in Hst as (_ & _ & Hp1 & Hd1 & Ho1 & _).
    assert (inBlock2 t1 = true) as Hb1
      by (rewrite (inBlock2_phase t t1); [done|congruence]).
    pose proof (scaleBlock_lookup_scaled inBlock2 (ratioOf a sd) tp i t1
                  Ht1 Hb1 ltac:(congruence)) as Ht2.
    destruct (calculateSchedule_lookup _ _ _ _ _ _ Hc Ht2)
      as (t' & Ht' & Hst').
    apply static_fields in Hst' as (_ & _ & _ & Hd' & _ & Hr' & _).
    simpl in Hd', Hr'.
    exists t'. split; [done|]. split; [done|]. congruence.
Qed.

Lemma block2Days_guard holidayIn fuel p1 sg tp :
  calculateSchedule holidayIn fuel p1 = Some tp →
  match earliestStart inBlock2 (Project.tasks tp) with
  | Some minStartBlock2 => (sg ≤ minStartBlock2)%Z
  | None => True
  end →
  block2Days holidayIn fuel p1 sg = Some (tp, None).
Proof.
  intros Hc Hguard. unfold block2Days. rewrite Hc. simpl.
  destruct (earliestStart inBlock2 (Project.tasks tp)) as [ms|]; [|done].
  by rewrite (proj2 (Z.ltb_ge ms sg) Hguard).
Qed.

(** X16. When the signing date is not after the earliest computed start
    of the Block 2 tasks, or no Block 2 task has a computed start, Block 2
    is not scaled: its tasks leave [compressSchedule] with the duration and
    the ratio the reset left. *)
Theorem signing_date_not_after_block2 holidayIn fuel p m sg q p1 tp :
  compressSchedule holidayIn fuel p m (Some sg) = Some q →
  block1Stage holidayIn fuel (resetProject p) m = Some p1 →
  calculateSchedule holidayIn fuel p1 = Some tp →
  match earliestStart inBlock2 (Project.tasks tp) with
  | Some minStartBlock2 => (sg ≤ minStartBlock2)%Z
  | None => True
  end →
  block2Stage holidayIn fuel p1 (Some sg) = Some tp
  ∧ ∀ i t,
      Project.tasks p !! i = Some t → inBlock2 t = true →
      ∃ t', Project.tasks q !! i = Some t'
        ∧ Task.durationWeeks t' = Task.durationWeeks (resetOne t)
        ∧ Task.compressionRatio t' = Task.compressionRatio (resetOne t)
        ∧ (Qpositive (Task.originalDurationWeeks t) = true →
           Task.compressionRatio t' = 1%Q).
Proof.
  intros Hq Hp1 Hc1 Hguard.
  pose proof (block2Days_guard _ _ _ _ _ Hc1 Hguard) as Hdays.
  assert (block2Stage holidayIn fuel p1 (Some sg) = Some tp) as Hstage.
  { simpl. unfold compressBlock2. by rewrite Hdays. }
  split; [done|]. intros i t Hi Hb.
  apply compressSchedule_stages in Hq
    as [(_ & [=] & _)|(_ & p1' & p2 & H1 & H2 & Hc)].
  rewrite Hp1 in H1. injection H1 as <-.
  rewrite Hstage in H2. injection H2 as <-.
  apply (unscaled_block inBlock2 (resetProject p));
    [|by apply resetProject_lookup
     |by rewrite (inBlock2_phase t) by apply resetOne_fields].
  eapply keepsDurations_trans; [apply inBlock2_phase| |].
  { by eapply keepsDurations_block1Stage. }
  eapply keepsDurations_trans; [apply inBlock2_phase| |].
  { by eapply keepsDurations_calculateSchedule. }
  by eapply keepsDurations_calculateSchedule.
Qed.

(** ** The injector: further properties *)

Lemma splice_lookup_inv {A} k (items l : list A) j y :
  k ≤ length l →
  splice k items l !! j = Some y →
  (∃ i, l !! i = Some y
        ∧ j = if decide (i < k) then i else i + length items)
  ∨ (∃ n, items !! n = Some y).
Proof.
  intros Hk. unfold splice. rewrite lookup_app_Some, length_take.
  rewrite Nat.min_l by done.
  intros [Hj|[Hle [Hj|[Hle' Hj]]%lookup_app_Some]].
  - pose proof (lookup_lt_Some _ _ _ Hj) as Hlt. rewrite length_take in Hlt.
    rewrite lookup_take_lt in Hj by lia.
    left. exists j. split; [done|]. rewrite decide_True; lia.
  - right. eauto.
  - rewrite lookup_drop in Hj. left. eexists. split; [done|].
    rewrite decide_False; lia.
Qed.

Lemma list_find_splice {A} (P : A → Prop) `{∀ x, Decision (P x)}
    k (items l : list A) :
  k ≤ length l →
  Forall (λ x, ¬ P x) items →
  list_find P (splice k items l)
  = (λ '(c, x), (if decide (c < k) then c else c + length items, x))
      <$> list_find P l.
Proof.
  intros Hk Hitems. rewrite Forall_lookup in Hitems.
  destruct (list_find P l) as [[c x]|] eqn:Hf; simpl.
  - apply list_find_Some in Hf as (Hc & HP & Hmin).
    apply list_find_Some. split; [|split; [done|]].
    + by rewrite splice_lookup_old.
    + intros j y [(i & Hi & ->)|[n Hn]]%splice_lookup_inv Hlt; [|by eauto|done].
      apply (Hmin i y Hi). repeat case_decide; lia.
  - apply list_find_None. rewrite list_find_None, Forall_lookup in Hf.
    apply Forall_lookup.
    intros j y [(i & Hi & _)|[n Hn]]%splice_lookup_inv; by eauto.
Qed.

Lemma vddTasks_not_confirmatory :
  Forall (λ t, ¬ isConfirmatoryDD t = true) vddTasks.
Proof. repeat constructor; by vm_compute. Qed.

Lemma Qgtb_shortened w :
  Qgtb w 3 = true → Qgtb (w - 2) 1 = true ∧ Qpositive (w - 2) = true.
Proof.
  destruct w as [n d]. unfold Qgtb, Qpositive. simpl.
  intros H%Z.ltb_lt. split; apply Z.ltb_lt; lia.
Qed.

(** X17. When the injector injects, it returns every task of the project
    as it was, in its place before or after the four VDD tasks, except the
    first task whose name contains "Confirmatory Due Diligence": if that
    task is longer than 3 weeks, its duration and its baseline become the
    duration minus 2 weeks and its name gets the suffix.  The shortened
    task is longer than 1 week, and the reset of [compressSchedule] keeps
    its new duration. *)
Theorem injectVddTasks_shortens_phase3 p :
  Project.vddEnabled p = true →
  existsb isSentinel (Project.tasks p) = false →
  let ts := Project.tasks p in
  let ts' := Project.tasks (injectVddTasks p) in
  let place i := if decide (i < insertIdx ts) then i else i + 4 in
  match list_find (λ t, isConfirmatoryDD t = true) ts with
  | Some (c, p3Task) =>
      (∀ i t, ts !! i = Some t → i ≠ c → ts' !! place i = Some t)
      ∧ (Qgtb (Task.durationWeeks p3Task) 3 = false →
         ts' !! place c = Some p3Task)
      ∧ (Qgtb (Task.durationWeeks p3Task) 3 = true →
         ∃ t', ts' !! place c = Some t'
           ∧ t' = Task.shorten p3Task (Task.durationWeeks p3Task - 2)
                    (Task.name p3Task ++ " (Shortened due to VDD)")
           ∧ Task.originalDurationWeeks t' = Task.durationWeeks t'
           ∧ Qgtb (Task.durationWeeks t') 1 = true
           ∧ Task.durationWeeks (resetOne t') = Task.durationWeeks t')
  | None => ∀ i t, ts !! i = Some t → ts' !! place i = Some t
  end.
Proof.
  intros Hv Hs. simpl. rewrite injectVddTasks_tasks by done.
  pose proof (insertIdx_le (Project.tasks p)) as Hk.
  pose proof (list_find_splice (λ t, isConfirmatoryDD t = true)
                (insertIdx (Project.tasks p)) vddTasks (Project.tasks p) Hk
                vddTasks_not_confirmatory) as Hfind.
  assert (∀ i, splice (insertIdx (Project.tasks p)) vddTasks (Project.tasks p)
                 !! (if decide (i < insertIdx (Project.tasks p))
                     then i else i + 4)
               = Project.tasks p !! i) as Hold
    by (intros i; by rewrite (splice_lookup_old _ vddTasks)).
  unfold shortenPhase3. rewrite Hfind.
  destruct (list_find _ (Project.tasks p)) as [[c p3Task]|] eqn:Hf; simpl;
    [|intros i t Hi; by rewrite Hold].
  apply list_find_Some in Hf as (Hc & _ & _).
  assert (∀ i, i ≠ c →
            (if decide (i < insertIdx (Project.tasks p)) then i else i + 4)
            ≠ (if decide (c < insertIdx (Project.tasks p)) then c else c + 4))
    as Hinj by (intros i Hne; repeat case_decide; lia).
  destruct (Qgtb (Task.durationWeeks p3Task) 3) eqn:Hlong.
  - split; [|split; [done|]].
    + intros i t Hi Hne.
      rewrite list_lookup_insert_ne by (intros Heq; by apply (Hinj i Hne)).
      by rewrite Hold.
    + intros _. eexists. split.
      * apply list_lookup_insert_eq. apply lookup_lt_is_Some.
        rewrite Hold. eauto.
      * split; [done|]. simpl.
        destruct (Qgtb_shortened _ Hlong) as [H1 Hpos].
        split; [done|]. split; [done|].
        unfold resetOne. simpl. by rewrite Hpos.
  - split; [|split; [|done]].
    + intros i t Hi _. by rewrite Hold.
    + intros _. by rewrite Hold.
Qed.

Lemma shortenPhase3_ids ts : Task.id <$> shortenPhase3 ts = Task.id <$> ts.
Proof.
  unfold shortenPhase3.
  destruct (list_find _ ts) as [[k p3Task]|] eqn:Hf; [|done].
  destruct (Qgtb _ _); [|done].
  apply list_find_Some in Hf as (Hk & _ & _).
  rewrite list_fmap_insert. simpl. apply list_insert_id.
  by rewrite list_lookup_fmap, Hk.
Qed.

(** X18. When the injector injects into a project whose tasks have
    pairwise different ids, none of them VDD.1, VDD.2, VDD.3 or VDD.4, the
    ids of the returned project are pairwise different as well. *)
Theorem injectVddTasks_keeps_ids_unique p :
  Project.vddEnabled p = true →
  NoDup (Task.id <$> Project.tasks p) →
  (∀ x, x ∈ (Task.id <$> vddTasks) → x ∉ (Task.id <$> Project.tasks p)) →
  NoDup (Task.id <$> Project.tasks (injectVddTasks p)).
Proof.
  intros Hv Hnd Hfresh.
  assert (existsb isSentinel (Project.tasks p) = false) as Hs.
  { destruct (existsb isSentinel (Project.tasks p)) eqn:E; [|done].
    apply existsb_isSentinel in E as (i & t & Hi & Hid).
    destruct (Hfresh "VDD.1"); [set_solver|].
    apply list_elem_of_fmap. exists t. split; [done|].
    by eapply list_elem_of_lookup_2. }
  rewrite injectVddTasks_tasks, shortenPhase3_ids by done.
  unfold splice. rewrite !fmap_app, fmap_take, fmap_drop.
  rewrite Permutation_app_swap_app, take_drop.
  apply NoDup_app. split; [|split; [done|done]].
  apply (bool_decide_unpack _). by vm_compute.
Qed.

(** ** The templates and the empty project *)

Lemma short_task gap fuel t :
  gap * 30 ≤ fuel →
  Z.to_nat (Qfloor (Task.durationWeeks t * 5)) ≤ 30 →
  affordable gap fuel t ∧ countsDown t.
Proof.
  intros Hfuel Ht. split.
  - unfold affordable.
    transitivity (gap * 30); [by apply Nat.mul_le_mono_l|done].
  - unfold countsDown, maxExact. lia.
Qed.

Lemma calculateSchedule_total holidayIn fuel gap p :
  recurring holidayIn (Project.country p) gap →
  gap ≤ fuel →
  Forall (λ t, affordable gap fuel t ∧ countsDown t) (Project.tasks p) →
  is_Some (calculateSchedule holidayIn fuel p).
Proof.
  intros Hrec Hgap Hfuel.
  destruct (scheduleLoop_total holidayIn fuel gap (Project.startDate p)
              (Project.country p)
              (indexTasks 0 (resetComputed (Project.tasks p)) ∅) Hrec Hgap
              (maxIterations (resetComputed (Project.tasks p)))
              (mkSched (resetComputed (Project.tasks p)) ∅ false 0))
    as [st Hrun].
  { simpl. intros i t. rewrite resetComputed_lookup.
    destruct (Project.tasks p !! i) as [t0|] eqn:Hi; [|done].
    intros [= <-]. rewrite Forall_lookup in Hfuel. apply (Hfuel _ _ Hi). }
  unfold calculateSchedule, runSchedule. rewrite Hrun. simpl. eauto.
Qed.

Lemma rankedb_ranked ids ts :
  rankedb ids ts = true → ranked (rankIn ids) ts.
Proof.
  unfold rankedb, ranked. rewrite forallb_forall.
  intros Hall t predId Ht%list_elem_of_In Hin%list_elem_of_In _.
  specialize (Hall t Ht). rewrite forallb_forall in Hall.
  by apply Nat.ltb_lt, Hall.
Qed.

Lemma template_scheduled holidayIn fuel gap name startDate ts :
  recurring holidayIn ["US"] gap →
  gap ≤ fuel →
  Forall (λ t, affordable gap fuel t ∧ countsDown t) ts →
  NoDup (Task.id <$> ts) →
  rankedb (Task.id <$> ts) ts = true →
  ∃ p, calculateSchedule holidayIn fuel
         (Project.setTasks (createProject name startDate ["US"]) ts) = Some p
       ∧ Project.startDate p = startDate
       ∧ Project.country p = ["US"]
       ∧ Project.vddEnabled p = false
       ∧ static <$> Project.tasks p = static <$> ts
       ∧ ∀ i t, Project.tasks p !! i = Some t → scheduled t.
Proof.
  intros Hrec Hgap Hfuel Hnd Hrank.
  destruct (calculateSchedule_total holidayIn fuel gap
              (Project.setTasks (createProject name startDate ["US"]) ts)
              Hrec Hgap Hfuel) as [p Hp].
  exists p. split; [done|].
  pose proof (calculateSchedule_static _ _ _ _ Hp) as (_ & Hs & Hc & Hv & Ht).
  split; [done|]. split; [done|]. split; [done|]. split.
  - apply static_transfer; [done|auto].
  - apply (acyclic_all_scheduled _ _ _ _ (rankIn (Task.id <$> ts)) Hp).
    + done.
    + by apply rankedb_ranked.
Qed.

Lemma getProjectByTemplateName_scheduled holidayIn fuel gap name startDate :
  recurring holidayIn ["US"] gap →
  gap * 30 ≤ fuel →
  ∃ p,
    getProjectByTemplateName holidayIn fuel name startDate = Some p
    ∧ Project.startDate p = startDate
    ∧ Project.country p = ["US"]
    ∧ Project.vddEnabled p = false
    ∧ static <$> Project.tasks p = templateTasksOf name
    ∧ ∀ i t, Project.tasks p !! i = Some t → scheduled t.
Proof.
  intros Hrec Hfuel.
  assert (gap ≤ fuel) as Hgap.
  { destruct (Hrec 0%Z) as (k & Hk & _). lia. }
  assert (∀ nm ts,
            Forall (λ t, affordable gap fuel t ∧ countsDown t) ts →
            NoDup (Task.id <$> ts) →
            rankedb (Task.id <$> ts) ts = true →
            static <$> ts = ts →
            ∃ p, calculateSchedule holidayIn fuel
                   (Project.setTasks (createProject nm startDate ["US"]) ts)
                 = Some p
                 ∧ Project.startDate p = startDate
                 ∧ Project.country p = ["US"]
                 ∧ Project.vddEnabled p = false
                 ∧ static <$> Project.tasks p = ts
                 ∧ ∀ i t, Project.tasks p !! i = Some t → scheduled t)
    as Htemplate.
  { intros nm ts Ha Hnd Hr Hst.
    destruct (template_scheduled holidayIn fuel gap nm startDate ts
                Hrec Hgap Ha Hnd Hr) as (p & Hp & H1 & H2 & H3 & H4 & H5).
    exists p. rewrite Hst in H4. done. }
  assert (∀ ts, Forall (λ t, Z.to_nat (Qfloor (Task.durationWeeks t * 5)) ≤ 30)
                  ts →
                Forall (λ t, affordable gap fuel t ∧ countsDown t) ts)
    as Hafford.
  { intros ts Hts. eapply Forall_impl; [exact Hts|].
    intros t Ht. by apply short_task. }
  assert (∃ p, getTemplate1 holidayIn fuel startDate = Some p
               ∧ Project.startDate p = startDate
               ∧ Project.country p = ["US"]
               ∧ Project.vddEnabled p = false
               ∧ static <$> Project.tasks p = template1Tasks
               ∧ ∀ i t, Project.tasks p !! i = Some t → scheduled t) as H1.
  { apply (Htemplate _ template1Tasks).
    - apply Hafford. repeat constructor; vm_compute; lia.
    - apply (bool_decide_unpack _). by vm_compute.
    - by vm_compute.
    - done. }
  assert (∃ p, getTemplate2 holidayIn fuel startDate = Some p
               ∧ Project.startDate p = startDate
               ∧ Project.country p = ["US"]
               ∧ Project.vddEnabled p = false
               ∧ static <$> Project.tasks p = template2Tasks
               ∧ ∀ i t, Project.tasks p !! i = Some t → scheduled t) as H2.
  { apply (Htemplate _ template2Tasks).
    - apply Hafford. repeat constructor; vm_compute; lia.
    - apply (bool_decide_unpack _). by vm_compute.
    - by vm_compute.
    - done. }
  assert (∃ p, getTemplate3 holidayIn fuel startDate = Some p
               ∧ Project.startDate p = startDate
               ∧ Project.country p = ["US"]
               ∧ Project.vddEnabled p = false
               ∧ static <$> Project.tasks p = template3Tasks
               ∧ ∀ i t, Project.tasks p !! i = Some t → scheduled t) as H3.
  { apply (Htemplate _ template3Tasks).
    - apply Hafford. repeat constructor; vm_compute; lia.
    - apply (bool_decide_unpack _). by vm_compute.
    - by vm_compute.
    - done. }
  unfold getProjectByTemplateName, templateTasksOf.
  destruct (includes "Standard" name);
    [|destruct (includes "Fast-Track" name);
      [|destruct (includes "Buy-Side" name)]].
  - destruct H1 as (p & Hp). exists p. tauto.
  - destruct H2 as (p & Hp). exists p. tauto.
  - destruct H3 as (p & Hp). exists p. tauto.
  - destruct H1 as (p & Hp). exists p. tauto.
Qed.


(** X19. When working days come back within [gap] days in the US
    calendar and the fuel covers 30 working days, a template is returned
    for every template name and start date: it is one of the three task
    lists (the standard one for a name that matches none), it starts on
    the given date with the jurisdiction US and VDD off, and every one of
    its tasks is scheduled. *)
Theorem templates_are_fully_scheduled holidayIn fuel gap name startDate :
  recurring holidayIn ["US"] gap →
  gap * 30 ≤ fuel →
  ∃ p ts,
    getProjectByTemplateName holidayIn fuel name startDate = Some p
    ∧ ts = (if includes "Standard" name then template1Tasks
            else if includes "Fast-Track" name then template2Tasks
            else if includes "Buy-Side" name then template3Tasks
            else template1Tasks)
    ∧ Project.startDate p = startDate
    ∧ Project.country p = ["US"]
    ∧ Project.vddEnabled p = false
    ∧ static <$> Project.tasks p = ts
    ∧ ∀ i t, Project.tasks p !! i = Some t → scheduled t.
Proof.
  intros Hrec Hfuel.
  destruct (getProjectByTemplateName_scheduled holidayIn fuel gap name
              startDate Hrec Hfuel) as (p & Hp & Hs & Hc & Hv & Hst & Hall).
  exists p, (templateTasksOf name). repeat (split; [done|]). done.
Qed.

(** X20. A project without tasks is returned as it is by
    [calculateSchedule] and by [compressSchedule] without target dates,
    whatever the calendar; with target dates [compressSchedule] returns
    nothing else either; and [injectVddTasks] returns it as it is when VDD
    is off and with exactly the four VDD tasks when VDD is on. *)
Theorem empty_project_is_stable holidayIn fuel p :
  Project.tasks p = [] →
  calculateSchedule holidayIn fuel p = Some p
  ∧ compressSchedule holidayIn fuel p None None = Some p
  ∧ (∀ m s q, compressSchedule holidayIn fuel p m s = Some q → q = p)
  ∧ injectVddTasks p
    = (if Project.vddEnabled p then Project.setTasks p vddTasks else p).
Proof.
  intros Hts.
  assert (∀ x, Project.tasks x = [] →
               calculateSchedule holidayIn fuel x = Some x) as Hcalc.
  { intros [nm sd cs ts vdd]. simpl. by intros ->. }
  split; [by apply Hcalc|]. split; [|split].
  - destruct p as [nm sd cs ts vdd]. simpl in Hts. by subst ts.
  - intros m s q Hq.
    apply (compressSchedule_invariant holidayIn fuel (λ x, x = p) p m s q);
      [| | |done].
    + destruct p as [nm sd cs ts vdd]. simpl in Hts. by subst ts.
    + intros x y -> Hy. rewrite (Hcalc p Hts) in Hy. congruence.
    + intros x b a sd -> _ _ _.
      destruct p as [nm sd' cs ts vdd]. simpl in Hts. by subst ts.
  - destruct p as [nm sd cs ts [|]]; simpl in Hts; by subst ts.
Qed.

(** ** Loading a template and recalculating *)

Lemma list_find_static (P : Task → Prop) `{∀ t, Decision (P t)} ts :
  (∀ t, P (static t) ↔ P t) →
  list_find P (static <$> ts) = prod_map id static <$> list_find P ts.
Proof.
  intros HP. induction ts as [|t ts IH]; [done|].
  rewrite fmap_cons. simpl.
  destruct (decide (P (static t))) as [Hs|Hs], (decide (P t)) as [Ht|Ht].
  - done.
  - exfalso. apply Ht. by apply HP.
  - exfalso. apply Hs. by apply HP.
  - rewrite IH. by destruct (list_find P ts) as [[i x]|].
Qed.

Lemma existsb_isSentinel_static ts :
  existsb isSentinel (static <$> ts) = existsb isSentinel ts.
Proof.
  induction ts as [|t ts IH]; [done|].
  rewrite fmap_cons. cbn [existsb]. by rewrite IH.
Qed.

Lemma insertIdx_static ts : insertIdx (static <$> ts) = insertIdx ts.
Proof.
  unfold insertIdx. rewrite list_find_static by done.
  by destruct (list_find _ ts) as [[i x]|].
Qed.

Lemma splice_static k ts :
  static <$> splice k vddTasks ts = splice k vddTasks (static <$> ts).
Proof. unfold splice. by rewrite !fmap_app, fmap_take, fmap_drop. Qed.

Lemma shortenPhase3_static ts :
  static <$> shortenPhase3 ts = shortenPhase3 (static <$> ts).
Proof.
  unfold shortenPhase3. rewrite list_find_static by done.
  destruct (list_find _ ts) as [[k t]|]; simpl; [|done].
  destruct (Qgtb (Task.durationWeeks t) 3); [|done].
  by rewrite list_fmap_insert.
Qed.

Lemma injectVddTasks_static p :
  static <$> Project.tasks (injectVddTasks p)
  = Project.tasks
      (injectVddTasks (Project.setTasks p (static <$> Project.tasks p))).
Proof.
  unfold injectVddTasks. simpl.
  destruct (Project.vddEnabled p); simpl; [|done].
  rewrite existsb_isSentinel_static.
  destruct (existsb isSentinel (Project.tasks p)); simpl; [done|].
  by rewrite shortenPhase3_static, splice_static, insertIdx_static.
Qed.

Lemma injectVddTasks_fields p :
  Project.name (injectVddTasks p) = Project.name p
  ∧ Project.startDate (injectVddTasks p) = Project.startDate p
  ∧ Project.country (injectVddTasks p) = Project.country p
  ∧ Project.vddEnabled (injectVddTasks p) = Project.vddEnabled p.
Proof.
  unfold injectVddTasks.
  destruct (Project.vddEnabled p) eqn:Hv; simpl; [|by rewrite Hv].
  destruct (existsb isSentinel (Project.tasks p)); simpl; by rewrite ?Hv.
Qed.

Lemma static_resetComputed xs ys :
  static <$> xs = static <$> ys → resetComputed xs = resetComputed ys.
Proof.
  intros Heq. apply list_eq; intros i. rewrite !resetComputed_lookup.
  apply (f_equal (λ l, l !! i)) in Heq. rewrite !list_lookup_fmap in Heq.
  destruct (xs !! i) as [x|], (ys !! i) as [y|]; try done.
  simpl in *. f_equal.
  assert (static x = static y) as Hxy by congruence.
  destruct x, y. unfold static in Hxy. simpl in Hxy.
  injection Hxy as -> -> -> -> -> -> -> -> ->. done.
Qed.

Lemma static_idemp (ts : list Task) :
  static <$> (static <$> ts) = static <$> ts.
Proof. rewrite <- list_fmap_compose. by apply list_fmap_ext. Qed.



(** A project whose predecessor edges all point backwards in the list and
    whose ids are unique is scheduled completely. *)
Lemma ordered_project_scheduled holidayIn fuel gap p :
  recurring holidayIn (Project.country p) gap →
  gap ≤ fuel →
  Forall (λ t, affordable gap fuel t ∧ countsDown t) (Project.tasks p) →
  NoDup (Task.id <$> Project.tasks p) →
  rankedb (Task.id <$> Project.tasks p) (Project.tasks p) = true →
  ∃ q, calculateSchedule holidayIn fuel p = Some q
       ∧ ∀ i t, Project.tasks q !! i = Some t → scheduled t.
Proof.
  intros Hrec Hgap Hfuel Hnd Hrank.
  destruct (calculateSchedule_total holidayIn fuel gap p Hrec Hgap Hfuel)
    as [q Hq].
  exists q. split; [done|].
  apply (acyclic_all_scheduled _ _ _ _
           (rankIn (Task.id <$> Project.tasks p)) Hq); [done|].
  by apply rankedb_ranked.
Qed.

(** The three task lists, without and with the VDD workstream. *)
Lemma loadedTasks_cases name vdd :
  loadedTasks name vdd
  ∈ [ template1Tasks; template2Tasks; template3Tasks;
      shortenPhase3 (splice 1 vddTasks template1Tasks);
      shortenPhase3 (splice 1 vddTasks template2Tasks);
      shortenPhase3 (splice 1 vddTasks template3Tasks) ].
Proof.
  unfold loadedTasks, templateTasksOf.
  destruct vdd, (includes "Standard" name), (includes "Fast-Track" name),
    (includes "Buy-Side" name); set_solver.
Qed.

Lemma loadedTasks_static name vdd :
  static <$> loadedTasks name vdd = loadedTasks name vdd.
Proof.
  pose proof (loadedTasks_cases name vdd) as Hc.
  repeat (apply elem_of_cons in Hc as [->|Hc]; [by vm_compute|]).
  by apply elem_of_nil in Hc.
Qed.


Lemma loadedTasks_ordered name vdd :
  Forall (λ t, Z.to_nat (Qfloor (Task.durationWeeks t * 5)) ≤ 30)
    (loadedTasks name vdd)
  ∧ NoDup (Task.id <$> loadedTasks name vdd)
  ∧ rankedb (Task.id <$> loadedTasks name vdd) (loadedTasks name vdd) = true.
Proof.
  pose proof (loadedTasks_cases name vdd) as Hc.
  repeat (apply elem_of_cons in Hc as [->|Hc];
          [split; [|split];
             [repeat constructor; vm_compute; lia
             |apply (bool_decide_unpack _); by vm_compute
             |by vm_compute]|]).
  by apply elem_of_nil in Hc.
Qed.

(** Injecting into the tasks of a template, whatever their computed
    fields. *)
Lemma injected_template tpl nm start cs ts :
  static <$> ts = templateTasksOf tpl →
  static <$> Project.tasks (injectVddTasks (Project.mk nm start cs ts true))
  = loadedTasks tpl true.
Proof.
  intros Hst. rewrite injectVddTasks_static.
  unfold Project.setTasks. cbn [Project.tasks Project.name Project.startDate
                                 Project.country Project.vddEnabled].
  rewrite Hst. unfold loadedTasks, templateTasksOf.
  destruct (includes "Standard" tpl);
    [|destruct (includes "Fast-Track" tpl);
      [|destruct (includes "Buy-Side" tpl)]]; reflexivity.
Qed.

Lemma sameInputs_static nm start cs vdd (x : Project) (ts : list Task) :
  Project.name x = nm → Project.startDate x = start →
  Project.country x = cs → Project.vddEnabled x = vdd →
  static <$> Project.tasks x = static <$> ts →
  sameInputs x (Project.mk nm start cs ts vdd).
Proof.
  intros Hn Hs Hc Hv Ht. unfold sameInputs.
  cbn [Project.tasks Project.name Project.startDate
       Project.country Project.vddEnabled].
  repeat (split; [done|]). by apply static_resetComputed.
Qed.

(** What [loadTemplate] schedules: a project with the settings and, computed
    fields apart, the tasks [loadedTasks]. *)
Lemma loadTemplate_sameInputs tpl start nm cs (vdd : bool) p0 :
  Project.startDate p0 = start →
  static <$> Project.tasks p0 = templateTasksOf tpl →
  sameInputs
    (if vdd
     then injectVddTasks
            (Project.mk nm (Project.startDate p0) cs (Project.tasks p0) vdd)
     else Project.mk nm (Project.startDate p0) cs (Project.tasks p0) vdd)
    (Project.mk nm start cs (loadedTasks tpl vdd) vdd).
Proof.
  intros Hs Hst. destruct vdd.
  - pose proof (injectVddTasks_fields
                  (Project.mk nm (Project.startDate p0) cs
                     (Project.tasks p0) true)) as (Hn & Hs' & Hc & Hv).
    apply sameInputs_static; try done.
    + by rewrite Hs'.
    + rewrite loadedTasks_static. by apply injected_template.
  - apply sameInputs_static; try done.
    rewrite loadedTasks_static. exact Hst.
Qed.

Lemma getProjectByTemplateName_static holidayIn fuel tpl start p0 :
  getProjectByTemplateName holidayIn fuel tpl start = Some p0 →
  Project.startDate p0 = start
  ∧ static <$> Project.tasks p0 = templateTasksOf tpl.
Proof.
  unfold getProjectByTemplateName, templateTasksOf,
    getTemplate1, getTemplate2, getTemplate3.
  destruct (includes "Standard" tpl);
    [|destruct (includes "Fast-Track" tpl);
      [|destruct (includes "Buy-Side" tpl)]];
    intros (_ & Hs & _ & _ & Ht)%calculateSchedule_static;
    (split; [done|]);
    (etransitivity; [apply static_transfer; [exact Ht|auto]|done]).
Qed.

Lemma loadTemplate_input holidayIn fuel tpl start nm cs vdd p :
  loadTemplate holidayIn fuel tpl start nm cs vdd = Some p →
  calculateSchedule holidayIn fuel
    (Project.mk nm start cs (loadedTasks tpl vdd) vdd) = Some p.
Proof.
  unfold loadTemplate. intros (p0 & Hp0 & Hp)%bind_Some.
  destruct (getProjectByTemplateName_static _ _ _ _ _ Hp0) as [Hs Hst].
  rewrite <- Hp. symmetry. apply calculateSchedule_ext.
  by apply loadTemplate_sameInputs.
Qed.

Lemma loadTemplate_static holidayIn fuel tpl start nm cs vdd p :
  loadTemplate holidayIn fuel tpl start nm cs vdd = Some p →
  Project.name p = nm ∧ Project.startDate p = start
  ∧ Project.country p = cs ∧ Project.vddEnabled p = vdd
  ∧ static <$> Project.tasks p = loadedTasks tpl vdd.
Proof.
  intros Hp%loadTemplate_input.
  pose proof (calculateSchedule_static _ _ _ _ Hp) as (Hn & Hs & Hc & Hv & Ht).
  cbn [Project.tasks Project.name Project.startDate
       Project.country Project.vddEnabled] in *.
  repeat (split; [done|]).
  rewrite <- (loadedTasks_static tpl vdd). apply static_transfer; [done|auto].
Qed.



(** X21. When working days come back within [gap] days both in the US
    calendar and in the selected one and the fuel covers 30 working days,
    [loadTemplate] returns a project for every template name and every
    setting: it has the given name, start date, jurisdictions and VDD flag,
    its tasks are those of the template, with VDD the four VDD tasks right
    after the kickoff task and Phase 3 shortened, and every task is
    scheduled. *)
Theorem loadTemplate_fully_scheduled holidayIn fuel gap tpl start nm cs vdd :
  recurring holidayIn ["US"] gap →
  recurring holidayIn cs gap →
  gap * 30 ≤ fuel →
  ∃ p,
    loadTemplate holidayIn fuel tpl start nm cs vdd = Some p
    ∧ Project.name p = nm ∧ Project.startDate p = start
    ∧ Project.country p = cs ∧ Project.vddEnabled p = vdd
    ∧ static <$> Project.tasks p
      = (if vdd then shortenPhase3 (splice 1 vddTasks (templateTasksOf tpl))
         else templateTasksOf tpl)
    ∧ ∀ i t, Project.tasks p !! i = Some t → scheduled t.
Proof.
  intros Hus Hcs Hfuel.
  assert (gap ≤ fuel) as Hgap.
  { destruct (Hus 0%Z) as (k & Hk & _). lia. }
  destruct (getProjectByTemplateName_scheduled holidayIn fuel gap tpl start
              Hus Hfuel) as (p0 & Hp0 & Hs0 & _ & _ & Hst0 & _).
  destruct (loadedTasks_ordered tpl vdd) as (Hdays & Hnd & Hrank).
  destruct (ordered_project_scheduled holidayIn fuel gap
              (Project.mk nm start cs (loadedTasks tpl vdd) vdd))
    as (p & Hp & Hall); try done.
  { cbn [Project.tasks]. eapply Forall_impl; [exact Hdays|].
    intros t Ht. by apply short_task. }
  assert (loadTemplate holidayIn fuel tpl start nm cs vdd = Some p) as Hload.
  { unfold loadTemplate. rewrite Hp0. cbn [mbind option_bind].
    rewrite <- Hp. apply calculateSchedule_ext.
    by apply loadTemplate_sameInputs. }
  exists p. split; [done|].
  destruct (loadTemplate_static _ _ _ _ _ _ _ _ Hload)
    as (Hn & Hs & Hc & Hv & Hst).
  repeat (split; [done|]). done.
Qed.


(** X23. [toggleCountry] keeps a selection free of duplicates, flips the
    membership of the toggled code and of no other code, and toggling the
    same code twice gives back the same jurisdictions, up to their order. *)
Theorem toggleCountry_flips cs code :
  NoDup cs →
  NoDup (toggleCountry cs code)
  ∧ (code ∈ toggleCountry cs code ↔ code ∉ cs)
  ∧ (∀ c, c ≠ code → c ∈ toggleCountry cs code ↔ c ∈ cs)
  ∧ toggleCountry (toggleCountry cs code) code ≡ₚ cs.
Proof.
  intros Hnd.
  assert (NoDup (toggleCountry cs code)
          ∧ (code ∈ toggleCountry cs code ↔ code ∉ cs)
          ∧ (∀ c, c ≠ code → c ∈ toggleCountry cs code ↔ c ∈ cs))
    as Hone.
  { unfold toggleCountry. case_bool_decide as Hin.
    - split; [by apply NoDup_filter|]. split.
      + rewrite list_elem_of_filter. tauto.
      + intros c Hc. rewrite list_elem_of_filter. tauto.
    - split; [|split].
      + apply NoDup_app. split; [done|]. split; [|apply NoDup_singleton].
        intros x Hx ->%list_elem_of_singleton. done.
      + rewrite elem_of_app, list_elem_of_singleton. tauto.
      + intros c Hc. rewrite elem_of_app, list_elem_of_singleton. tauto. }
  destruct Hone as (Hnd1 & Hcode & Hother).
  repeat (split; [done|]).
  apply NoDup_Permutation; [|done|].
  - unfold toggleCountry at 1. case_bool_decide.
    + by apply NoDup_filter.
    + apply NoDup_app. split; [done|]. split; [|apply NoDup_singleton].
      intros x Hx ->%list_elem_of_singleton. done.
  - intros c. destruct (decide (c = code)) as [->|Hne].
    + unfold toggleCountry at 1. case_bool_decide as Hin.
      * rewrite list_elem_of_filter. apply Hcode in Hin.
        split; [tauto|]. intros Hc. done.
      * rewrite elem_of_app, list_elem_of_singleton.
        split; [|tauto]. intros _.
        destruct (decide (code ∈ cs)) as [|Hn]; [done|].
        apply Hcode in Hn. done.
    + unfold toggleCountry at 1. case_bool_decide as Hin.
      * rewrite list_elem_of_filter, Hother by done. tauto.
      * rewrite elem_of_app, list_elem_of_singleton, Hother by done. tauto.
Qed.

(** ** Examples of the further properties *)

Lemma calculateSchedule_renumbers_witness :
  ∃ p', calculateSchedule noHolidays 60 lagProject = Some p'
    ∧ length (Project.tasks p') = length (Project.tasks lagProject)
    ∧ ∀ i t', Project.tasks p' !! i = Some t' →
        Task.serialNumber t' = Some (i + 1)
        ∧ ∃ t, Project.tasks lagProject !! i = Some t ∧ static t' = static t.
Proof.
  eexists. split; [vm_compute; reflexivity|].
  eapply (calculateSchedule_renumbers noHolidays 60 lagProject).
  vm_compute; reflexivity.
Defined.


Lemma calculateSchedule_idempotent_witness :
  ∃ p', calculateSchedule noHolidays 60 lagProject = Some p'
    ∧ calculateSchedule noHolidays 60 p' = Some p'.
Proof.
  eexists. split; [vm_compute; reflexivity|].
  eapply (calculateSchedule_idempotent noHolidays 60 lagProject).
  vm_compute; reflexivity.
Defined.


Lemma dangling_predecessors_are_satisfied_witness :
  ∃ p' t,
    calculateSchedule noHolidays 60 danglingProject = Some p'
    ∧ Project.tasks danglingProject !! 0 = Some t
    ∧ (∀ j t2, Project.tasks danglingProject !! j = Some t2 →
               Task.id t2 = Task.id t → j = 0)
    ∧ (∀ predId, predId ∈ Task.predecessors t →
                 predId ∉ (Task.id <$> Project.tasks danglingProject))
    ∧ ∃ t' s, Project.tasks p' !! 0 = Some t'
        ∧ static t' = static t
        ∧ Task.computedStart t' = Some s
        ∧ firstBusinessDayFrom noHolidays (Project.country danglingProject)
            (applyOffset (Project.startDate danglingProject)
               (Task.manualStartOffset t)) s.
Proof.
  assert (∀ j t2, Project.tasks danglingProject !! j = Some t2 →
                  Task.id t2 = "A" → j = 0) as Hone.
  { intros [|j] t2 Hj _; [reflexivity|discriminate Hj]. }
  assert (∀ predId, predId ∈ ["X"] →
                    predId ∉ (Task.id <$> Project.tasks danglingProject))
    as Hdangling.
  { apply Forall_forall. apply (bool_decide_unpack _). vm_compute.
    reflexivity. }
  eexists _, _. split; [vm_compute; reflexivity|].
  split; [vm_compute; reflexivity|].
  split; [exact Hone|]. split; [exact Hdangling|].
  eapply (dangling_predecessors_are_satisfied noHolidays 60 danglingProject
            _ 0);
    [vm_compute; reflexivity|vm_compute; reflexivity
    |exact Hone|exact Hdangling].
Defined.

Lemma acyclic_project_fully_scheduled_witness :
  ∃ p' t,
    calculateSchedule noHolidays 60 lagProject = Some p'
    ∧ NoDup (Task.id <$> Project.tasks lagProject)
    ∧ ranked (rankIn ["A"; "B"]) (Project.tasks lagProject)
    ∧ Project.tasks p' !! 1 = Some t
    ∧ scheduled t.
Proof.
  assert (NoDup (Task.id <$> Project.tasks lagProject)) as Hnd.
  { apply (bool_decide_unpack _). vm_compute. reflexivity. }
  assert (ranked (rankIn ["A"; "B"]) (Project.tasks lagProject)) as Hrank.
  { apply (rankedb_ranked ["A"; "B"]). vm_compute. reflexivity. }
  eexists _, _. split; [vm_compute; reflexivity|].
  split; [exact Hnd|]. split; [exact Hrank|].
  split; [vm_compute; reflexivity|].
  eapply (acyclic_project_fully_scheduled noHolidays 60 lagProject _
            (rankIn ["A"; "B"]) 1);
    [vm_compute; reflexivity|exact Hnd|exact Hrank|vm_compute; reflexivity].
Defined.

Lemma scheduler_stops_settled_witness :
  ∃ st,
    runSchedule noHolidays 60 cycleProject = Some st
    ∧ passes st ≤ length (Project.tasks cycleProject)
    ∧ ∀ i t, objects st !! i = Some t → unscheduled t →
        blocked (objects st) t
        ∨ ∃ j t2, j ≠ i ∧ objects st !! j = Some t2
                  ∧ Task.id t2 = Task.id t ∧ scheduled t2.
Proof.
  eexists. split; [vm_compute; reflexivity|].
  eapply (scheduler_stops_settled noHolidays 60 cycleProject).
  vm_compute; reflexivity.
Defined.

Lemma getBusinessDays_bounded_witness :
  (jan1_2024 < jan8_2024)%Z
  ∧ ((jan8_2024 - jan1_2024 + msPerDay - 1) / msPerDay ≤ Z.of_nat 60)%Z
  ∧ ∃ c, getBusinessDays noHolidays 60 jan1_2024 jan8_2024 ["US"] = Some c
      ∧ (0 ≤ c ≤ (jan8_2024 - jan1_2024 + msPerDay - 1) / msPerDay)%Z.
Proof.
  assert (jan1_2024 < jan8_2024)%Z as Hlt by (vm_compute; reflexivity).
  assert ((jan8_2024 - jan1_2024 + msPerDay - 1) / msPerDay ≤ Z.of_nat 60)%Z
    as Hle by (apply Z.leb_le; vm_compute; reflexivity).
  split; [exact Hlt|]. split; [exact Hle|].
  exact (getBusinessDays_bounded noHolidays 60 jan1_2024 jan8_2024 ["US"]
           Hlt Hle).
Defined.

Lemma getBusinessDays_whole_weeks_witness :
  7 * 2 ≤ 60
  ∧ getBusinessDays noHolidays 60 jan1_2024
      (addDays jan1_2024 (7 * Z.of_nat 2)) []
    = Some (5 * Z.of_nat 2)%Z.
Proof.
  split; [lia|].
  apply (getBusinessDays_whole_weeks noHolidays 60 jan1_2024 2). lia.
Defined.

Lemma whole_weeks_span_witness :
  ∃ p' t s e,
    calculateSchedule noHolidays 60 twoWeeks = Some p'
    ∧ Project.country twoWeeks = []
    ∧ Project.tasks p' !! 0 = Some t
    ∧ Task.computedStart t = Some s
    ∧ Task.computedEnd t = Some e
    ∧ Task.durationWeeks t == inject_Z (Z.of_nat 2)
    ∧ e = addDays s (7 * Z.of_nat 2).
Proof.
  eexists _, _, _, _. split; [vm_compute; reflexivity|].
  split; [reflexivity|]. split; [vm_compute; reflexivity|].
  split; [vm_compute; reflexivity|]. split; [vm_compute; reflexivity|].
  split; [vm_compute; reflexivity|].
  eapply (whole_weeks_span noHolidays 60 twoWeeks _ 0);
    vm_compute; reflexivity.
Defined.

Lemma compressSchedule_ratio_witness :
  ∃ q t,
    compressSchedule noHolidays 60 twoPhases (Some jan8_2024) None = Some q
    ∧ Project.tasks q !! 0 = Some t
    ∧ Qpositive (Task.originalDurationWeeks t) = true
    ∧ Task.durationWeeks t
      == Task.originalDurationWeeks t * Task.compressionRatio t
    ∧ Qpositive (Task.compressionRatio t) = true
    ∧ Qpositive (Task.durationWeeks t) = true.
Proof.
  eexists _, _. split; [vm_compute; reflexivity|].
  split; [vm_compute; reflexivity|]. split; [vm_compute; reflexivity|].
  eapply (compressSchedule_ratio noHolidays 60 twoPhases (Some jan8_2024)
            None _ 0);
    vm_compute; reflexivity.
Defined.

Lemma compressSchedule_uniform_witness :
  ∃ q,
    compressSchedule noHolidays 60 twoPhases (Some jan8_2024) None = Some q
    ∧ ∃ r1 r2, ∀ i t,
        Project.tasks q !! i = Some t →
        Qpositive (Task.originalDurationWeeks t) = true →
        Task.compressionRatio t = if inBlock1 t then r1 else r2.
Proof.
  eexists. split; [vm_compute; reflexivity|].
  eapply (compressSchedule_uniform noHolidays 60 twoPhases (Some jan8_2024)
            None).
  vm_compute; reflexivity.
Defined.

Lemma compressSchedule_frame_witness :
  ∃ q,
    compressSchedule noHolidays 60 twoPhases (Some jan8_2024) None = Some q
    ∧ Project.name q = Project.name twoPhases
    ∧ Project.startDate q = Project.startDate twoPhases
    ∧ Project.country q = Project.country twoPhases
    ∧ Project.vddEnabled q = Project.vddEnabled twoPhases
    ∧ length (Project.tasks q) = length (Project.tasks twoPhases)
    ∧ ∀ i t', Project.tasks q !! i = Some t' →
        ∃ t, Project.tasks twoPhases !! i = Some t
          ∧ Task.id t' = Task.id t ∧ Task.name t' = Task.name t
          ∧ Task.phase t' = Task.phase t
          ∧ Task.originalDurationWeeks t' = Task.originalDurationWeeks t
          ∧ Task.predecessors t' = Task.predecessors t
          ∧ Task.type t' = Task.type t
          ∧ Task.manualStartOffset t' = Task.manualStartOffset t.
Proof.
  eexists. split; [vm_compute; reflexivity|].
  eapply (compressSchedule_frame noHolidays 60 twoPhases (Some jan8_2024)
            None).
  vm_compute; reflexivity.
Defined.

Lemma compressSchedule_is_scheduled_witness :
  ∃ q,
    compressSchedule noHolidays 60 twoPhases (Some jan8_2024) None = Some q
    ∧ calculateSchedule noHolidays 60 q = Some q.
Proof.
  eexists. split; [vm_compute; reflexivity|].
  eapply (compressSchedule_is_scheduled noHolidays 60 twoPhases
            (Some jan8_2024) None).
  vm_compute; reflexivity.
Defined.

Lemma compression_scales_block_witness :
  ∃ q tp,
    compressSchedule noHolidays 60 twoPhases (Some jan8_2024) None = Some q
    ∧ block1Days noHolidays 60 (resetProject twoPhases) jan8_2024
      = Some (tp, 5%Z, 10%Z)
    ∧ ∃ t', Project.tasks q !! 0 = Some t'
        ∧ Task.compressionRatio t' = ratioOf 5 10
        ∧ Task.durationWeeks t' = (2 * ratioOf 5 10)%Q.
Proof.
  eexists _, _. split; [vm_compute; reflexivity|].
  split; [vm_compute; reflexivity|].
  edestruct (proj1 (compression_scales_block noHolidays 60 twoPhases
                      (Some jan8_2024) None _ ltac:(vm_compute; reflexivity))
               jan8_2024 _ 5%Z 10%Z eq_refl ltac:(vm_compute; reflexivity)
               ltac:(reflexivity) ltac:(reflexivity)
               0 (simpleTask "A" "Phase 1" 2 [] None)
               ltac:(reflexivity) ltac:(reflexivity) ltac:(reflexivity))
    as (t' & Ht' & Hr & Hd).
  exists t'. split; [exact Ht'|]. split; [exact Hr|exact Hd].
Defined.

Lemma signing_date_not_after_block2_witness :
  ∃ q p1 tp,
    compressSchedule noHolidays 60 twoPhases None (Some jan1_2024) = Some q
    ∧ block1Stage noHolidays 60 (resetProject twoPhases) None = Some p1
    ∧ calculateSchedule noHolidays 60 p1 = Some tp
    ∧ match earliestStart inBlock2 (Project.tasks tp) with
      | Some minStartBlock2 => (jan1_2024 ≤ minStartBlock2)%Z
      | None => True
      end
    ∧ block2Stage noHolidays 60 p1 (Some jan1_2024) = Some tp
    ∧ ∀ i t,
        Project.tasks twoPhases !! i = Some t → inBlock2 t = true →
        ∃ t', Project.tasks q !! i = Some t'
          ∧ Task.durationWeeks t' = Task.durationWeeks (resetOne t)
          ∧ Task.compressionRatio t' = Task.compressionRatio (resetOne t)
          ∧ (Qpositive (Task.originalDurationWeeks t) = true →
             Task.compressionRatio t' = 1%Q).
Proof.
  eexists _, _, _. split; [vm_compute; reflexivity|].
  split; [vm_compute; reflexivity|]. split; [vm_compute; reflexivity|].
  split; [apply Z.leb_le; vm_compute; reflexivity|].
  eapply (signing_date_not_after_block2 noHolidays 60 twoPhases None
            jan1_2024);
    [vm_compute; reflexivity|vm_compute; reflexivity|vm_compute; reflexivity
    |apply Z.leb_le; vm_compute; reflexivity].
Defined.

Lemma injectVddTasks_shortens_phase3_witness :
  Project.vddEnabled vddStandard = true
  ∧ existsb isSentinel (Project.tasks vddStandard) = false
  ∧ list_find (λ t, isConfirmatoryDD t = true) (Project.tasks vddStandard)
    = Some (6, templateTask "T3.1" "VDR Access & Confirmatory Due Diligence"
                 "Phase 3: Due Diligence & Exclusivity" 6 ["T2.3"] Standard)
  ∧ let ts := Project.tasks vddStandard in
    let ts' := Project.tasks (injectVddTasks vddStandard) in
    let place i := if decide (i < insertIdx ts) then i else i + 4 in
    match list_find (λ t, isConfirmatoryDD t = true) ts with
    | Some (c, p3Task) =>
        (∀ i t, ts !! i = Some t → i ≠ c → ts' !! place i = Some t)
        ∧ (Qgtb (Task.durationWeeks p3Task) 3 = false →
           ts' !! place c = Some p3Task)
        ∧ (Qgtb (Task.durationWeeks p3Task) 3 = true →
           ∃ t', ts' !! place c = Some t'
             ∧ t' = Task.shorten p3Task (Task.durationWeeks p3Task - 2)
                      (Task.name p3Task ++ " (Shortened due to VDD)")
             ∧ Task.originalDurationWeeks t' = Task.durationWeeks t'
             ∧ Qgtb (Task.durationWeeks t') 1 = true
             ∧ Task.durationWeeks (resetOne t') = Task.durationWeeks t')
    | None => ∀ i t, ts !! i = Some t → ts' !! place i = Some t
    end.
Proof.
  split; [reflexivity|]. split; [vm_compute; reflexivity|].
  split; [vm_compute; reflexivity|].
  apply (injectVddTasks_shortens_phase3 vddStandard);
    vm_compute; reflexivity.
Defined.

Lemma injectVddTasks_keeps_ids_unique_witness :
  Project.vddEnabled vddStandard = true
  ∧ NoDup (Task.id <$> Project.tasks vddStandard)
  ∧ (∀ x, x ∈ (Task.id <$> vddTasks) →
          x ∉ (Task.id <$> Project.tasks vddStandard))
  ∧ NoDup (Task.id <$> Project.tasks (injectVddTasks vddStandard)).
Proof.
  assert (NoDup (Task.id <$> Project.tasks vddStandard)) as Hnd.
  { apply (bool_decide_unpack _). vm_compute. reflexivity. }
  assert (∀ x, x ∈ (Task.id <$> vddTasks) →
               x ∉ (Task.id <$> Project.tasks vddStandard)) as Hfresh.
  { apply Forall_forall. apply (bool_decide_unpack _). vm_compute.
    reflexivity. }
  split; [reflexivity|]. split; [exact Hnd|]. split; [exact Hfresh|].
  exact (injectVddTasks_keeps_ids_unique vddStandard eq_refl Hnd Hfresh).
Defined.

Lemma templates_are_fully_scheduled_witness :
  recurring noHolidays ["US"] 3
  ∧ 3 * 30 ≤ 90
  ∧ ∃ p ts,
      getProjectByTemplateName noHolidays 90 "Fast-Track / Sprint M&A"
        jan1_2024 = Some p
      ∧ ts = (if includes "Standard" "Fast-Track / Sprint M&A"
              then template1Tasks
              else if includes "Fast-Track" "Fast-Track / Sprint M&A"
              then template2Tasks
              else if includes "Buy-Side" "Fast-Track / Sprint M&A"
              then template3Tasks
              else template1Tasks)
      ∧ Project.startDate p = jan1_2024
      ∧ Project.country p = ["US"]
      ∧ Project.vddEnabled p = false
      ∧ static <$> Project.tasks p = ts
      ∧ ∀ i t, Project.tasks p !! i = Some t → scheduled t.
Proof.
  split; [apply noHolidays_recurring|]. split; [lia|].
  apply (templates_are_fully_scheduled noHolidays 90 3
           "Fast-Track / Sprint M&A" jan1_2024);
    [apply noHolidays_recurring|lia].
Defined.

Lemma empty_project_is_stable_witness :
  Project.tasks (createProject "Project Alpha" jan1_2024 ["US"]) = []
  ∧ calculateSchedule newYear2024 0
      (createProject "Project Alpha" jan1_2024 ["US"])
    = Some (createProject "Project Alpha" jan1_2024 ["US"])
  ∧ compressSchedule newYear2024 0
      (createProject "Project Alpha" jan1_2024 ["US"]) None None
    = Some (createProject "Project Alpha" jan1_2024 ["US"])
  ∧ (∀ m s q,
       compressSchedule newYear2024 0
         (createProject "Project Alpha" jan1_2024 ["US"]) m s = Some q →
       q = createProject "Project Alpha" jan1_2024 ["US"])
  ∧ injectVddTasks (createProject "Project Alpha" jan1_2024 ["US"])
    = (if Project.vddEnabled (createProject "Project Alpha" jan1_2024 ["US"])
       then Project.setTasks
              (createProject "Project Alpha" jan1_2024 ["US"]) vddTasks
       else createProject "Project Alpha" jan1_2024 ["US"]).
Proof.
  split; [reflexivity|].
  apply (empty_project_is_stable newYear2024 0
           (createProject "Project Alpha" jan1_2024 ["US"])).
  reflexivity.
Defined.

Lemma loadTemplate_fully_scheduled_witness :
  recurring noHolidays ["US"] 3
  ∧ recurring noHolidays ["PT"; "ES"] 3
  ∧ 3 * 30 ≤ 90
  ∧ ∃ p,
      loadTemplate noHolidays 90 "Standard Sell-Side M&A" jan1_2024
        "Project Alpha" ["PT"; "ES"] true = Some p
      ∧ Project.name p = "Project Alpha" ∧ Project.startDate p = jan1_2024
      ∧ Project.country p = ["PT"; "ES"] ∧ Project.vddEnabled p = true
      ∧ static <$> Project.tasks p
        = (if true
           then shortenPhase3
                  (splice 1 vddTasks (templateTasksOf "Standard Sell-Side M&A"))
           else templateTasksOf "Standard Sell-Side M&A")
      ∧ ∀ i t, Project.tasks p !! i = Some t → scheduled t.
Proof.
  split; [apply noHolidays_recurring|].
  split; [apply noHolidays_recurring|]. split; [lia|].
  apply (loadTemplate_fully_scheduled noHolidays 90 3
           "Standard Sell-Side M&A" jan1_2024 "Project Alpha" ["PT"; "ES"]
           true);
    [apply noHolidays_recurring|apply noHolidays_recurring|lia].
Defined.


Lemma toggleCountry_flips_witness :
  NoDup ["US"; "PT"]
  ∧ NoDup (toggleCountry ["US"; "PT"] "US")
  ∧ ("US" ∈ toggleCountry ["US"; "PT"] "US" ↔ "US" ∉ ["US"; "PT"])
  ∧ (∀ c, c ≠ "US" → c ∈ toggleCountry ["US"; "PT"] "US" ↔ c ∈ ["US"; "PT"])
  ∧ toggleCountry (toggleCountry ["US"; "PT"] "US") "US" ≡ₚ ["US"; "PT"].
Proof.
  assert (NoDup ["US"; "PT"]) as Hnd.
  { apply (bool_decide_unpack _). vm_compute. reflexivity. }
  split; [exact Hnd|].
  exact (toggleCountry_flips ["US"; "PT"] "US" Hnd).
Defined.
